(** * Arkanoid: a shallow embedding of the simulation core of [arkanoid.py]

    Conventions of the embedding.

    - A Python [float] is an element of [R]: arithmetic is exact real
      arithmetic.  A Python [int] is an element of [Z]; where the source mixes
      the two, the integer is injected with [IZR].  [a // b] is [Z.div],
      [a / b] is real division.
    - Every method that mutates [self] is a function returning the new value
      of [self] (together with the method's return value when it has one).
    - Objects of the game (balls, bricks, power-ups, particles) have no
      [__eq__]: [list.remove] removes the very object that is being visited.
      The loops that visit a snapshot [xs[:]] are therefore written as
      recursions over the snapshot that rebuild the live list position by
      position.
    - The module [random] is a stream of draws; a computation that draws is a
      function of the index of the next draw ([Rand]).
    - [pygame.Rect.colliderect] belongs to the host library and is an
      interface ([pygame.Lib]).  Drawing code is left out. *)

From Stdlib Require Import Reals Lra Lia ZArith List Bool Sorted.
Import ListNotations.

Local Open Scope R_scope.

(** ** Comparisons of floats as booleans *)

Definition Rltb (a b : R) : bool := if Rlt_dec a b then true else false.
Definition Rleb (a b : R) : bool := if Rle_dec a b then true else false.
Definition Rgtb (a b : R) : bool := Rltb b a.
Definition Rgeb (a b : R) : bool := Rleb b a.

(** ** The module [random] *)

(** [entropy i] is the raw output of the generator at its [i]-th call. *)
Class RandomSource := { entropy : nat -> Z }.

(** A computation that consumes draws: from the index of the next draw to a
    result and the index after it. *)
Definition Rand (A : Type) : Type := nat -> A * nat.

Definition ret {A} (a : A) : Rand A := fun i => (a, i).
Definition bind {A B} (m : Rand A) (k : A -> Rand B) : Rand B :=
  fun i => let (a, j) := m i in k a j.

Declare Scope rand_scope.
Delimit Scope rand_scope with rand.
Notation "x <- m ;; k" := (bind m (fun x => k))
  (at level 61, m at next level, right associativity) : rand_scope.
Notation "m ;;; k" := (bind m (fun _ => k))
  (at level 61, right associativity) : rand_scope.

Section RandomModule.
Context `{RandomSource}.

(** [random.random()]: a 53-bit integer over [2^53], in [[0, 1)]. *)
Definition random : Rand R :=
  fun i => (IZR (entropy i mod 2 ^ 53) / IZR (2 ^ 53), S i).

(** [Random._randbelow(n)]: an integer in [[0, n)]. *)
Definition _randbelow (n : Z) : Rand Z :=
  fun i => ((entropy i mod n)%Z, S i).

(** [random.uniform(a, b) = a + (b - a) * random()]. *)
Definition uniform (a b : R) : Rand R :=
  bind random (fun u => ret (a + (b - a) * u)).

(** [random.randint(a, b) = a + _randbelow(b - a + 1)]. *)
Definition randint (a b : Z) : Rand Z :=
  bind (_randbelow (b - a + 1)) (fun k => ret (a + k)%Z).

(** [random.choice(seq) = seq[_randbelow(len(seq))]]; [d] stands for the
    [IndexError] of an empty sequence. *)
Definition choice {A} (d : A) (seq : list A) : Rand A :=
  bind (_randbelow (Z.of_nat (length seq)))
       (fun k => ret (nth (Z.to_nat k) seq d)).
End RandomModule.

(** ** Python containers *)

(** [range(n)]. *)
Definition range (n : Z) : list Z := map Z.of_nat (seq 0 (Z.to_nat n)).

(** [xs[-n:]]: the last [n] elements. *)
Definition last_n {A} (n : nat) (xs : list A) : list A :=
  skipn (length xs - n) xs.

(** A [dict] keyed by [bool], as an insertion-ordered association list.
    Storing under a key that is present replaces the value and keeps the
    position of the key. *)
Fixpoint dict_setitem {V} (k : bool) (v : V) (d : list (bool * V))
  : list (bool * V) :=
  match d with
  | [] => [(k, v)]
  | (k', v') :: d' =>
      if Bool.eqb k k' then (k', v) :: d' else (k', v') :: dict_setitem k v d'
  end.

(** The dict display [{k1: v1, k2: v2, ...}]. *)
Definition dict_display {V} (items : list (bool * V)) : list (bool * V) :=
  fold_left (fun d kv => dict_setitem (fst kv) (snd kv) d) items [].

(** ** Enumerations *)

Inductive GameState := MENU | PLAYING | PAUSED | GAME_OVER | VICTORY.

Inductive PowerUpType :=
  EXPAND_PADDLE | MULTI_BALL | SLOW_BALL | LASER | STICKY_PADDLE | EXTRA_LIFE.

(** [PowerUpType(v)]; [None] stands for the [ValueError] of a value outside
    [1..6]. *)
Definition PowerUpType_of_value (v : Z) : option PowerUpType :=
  match v with
  | 1 => Some EXPAND_PADDLE
  | 2 => Some MULTI_BALL
  | 3 => Some SLOW_BALL
  | 4 => Some LASER
  | 5 => Some STICKY_PADDLE
  | 6 => Some EXTRA_LIFE
  | _ => None
  end%Z.

(** ** class Vector2D *)

Module Vector2D.
Record t := mk { x : R; y : R }.

Definition __add__ (self other : t) : t :=
  mk (x self + x other) (y self + y other).

Definition __mul__ (self : t) (scalar : R) : t :=
  mk (x self * scalar) (y self * scalar).

Definition magnitude (self : t) : R := sqrt (x self ^ 2 + y self ^ 2).

Definition normalize (self : t) : t :=
  let magnitude := sqrt (x self ^ 2 + y self ^ 2) in
  if Rgtb magnitude 0
  then mk (x self / magnitude) (y self / magnitude)
  else self.

Definition reflect (self normal : t) : t :=
  let dot := 2 * (x self * x normal + y self * y normal) in
  mk (x self - dot * x normal) (y self - dot * y normal).
End Vector2D.

(** ** class Particle *)

Module Particle.
Record t := mk { pos : Vector2D.t; vel : Vector2D.t; life : R; size : R }.

Definition __init__ `{RandomSource} (x y : R) (vel : Vector2D.t) : Rand t :=
  (s <- uniform 2 5 ;; ret (mk (Vector2D.mk x y) vel 1 s))%rand.

Definition update (self : t) (dt : R) : t * bool :=
  let pos' := Vector2D.__add__ (pos self) (Vector2D.__mul__ (vel self) dt) in
  let vel' := Vector2D.mk (Vector2D.x (vel self))
                          (Vector2D.y (vel self) + 500 * dt) in
  let life' := life self - dt * 2 in
  let size' := size self * (98 / 100) in
  (mk pos' vel' life' size', Rgtb life' 0).
End Particle.

(** ** class Ball *)

Module Ball.
Record t := mk {
  pos : Vector2D.t;
  vel : Vector2D.t;
  radius : Z;
  trail : list (R * R);
  speed_multiplier : R
}.

Definition __init__ `{RandomSource} (x y : R) : Rand t :=
  (vx <- choice 0 [-200; 200] ;;
   ret (mk (Vector2D.mk x y) (Vector2D.mk vx (-300)) 8 [] 1))%rand.

Definition set_vel_x (self : t) (v : R) : t :=
  mk (pos self) (Vector2D.mk v (Vector2D.y (vel self)))
     (radius self) (trail self) (speed_multiplier self).

Definition set_vel_y (self : t) (v : R) : t :=
  mk (pos self) (Vector2D.mk (Vector2D.x (vel self)) v)
     (radius self) (trail self) (speed_multiplier self).

Definition set_speed_multiplier (self : t) (m : R) : t :=
  mk (pos self) (vel self) (radius self) (trail self) m.

(** The wall handlers of [update]: the closures stored in
    [collision_handlers].  They read [self.vel] when they are called. *)
Definition bounce_left (self : t) : t :=
  set_vel_x self (Rabs (Vector2D.x (vel self))).
Definition bounce_right (self : t) : t :=
  set_vel_x self (- Rabs (Vector2D.x (vel self))).
Definition bounce_top (self : t) : t :=
  set_vel_y self (Rabs (Vector2D.y (vel self))).

(** [[handler() for condition, handler in d.items() if condition]]. *)
Definition run_handlers (d : list (bool * (t -> t))) (self : t) : t :=
  fold_left (fun b (kv : bool * (t -> t)) => if fst kv then snd kv b else b)
            d self.

(** [update] returns [True] when the ball is lost. *)
Definition update (self : t) (dt : R) (width height : Z) : t * bool :=
  let movement := Vector2D.__mul__ (vel self) (dt * speed_multiplier self) in
  let pos' := Vector2D.__add__ (pos self) movement in
  let trail' :=
    last_n 10 (trail self ++ [(Vector2D.x pos', Vector2D.y pos')]) in
  let self := mk pos' (vel self) (radius self) trail'
                 (speed_multiplier self) in
  let collision_handlers := dict_display [
    (Rleb (Vector2D.x (pos self) - IZR (radius self)) 0, bounce_left);
    (Rgeb (Vector2D.x (pos self) + IZR (radius self)) (IZR width),
     bounce_right);
    (Rleb (Vector2D.y (pos self) - IZR (radius self)) 0, bounce_top)
  ] in
  let self := run_handlers collision_handlers self in
  (self, Rgtb (Vector2D.y (pos self)) (IZR height)).
End Ball.

(** ** class Paddle *)

Module Paddle.
Record t := mk {
  x : R;
  y : R;
  width : Z;
  height : Z;
  base_width : Z;
  vel : R;
  sticky : bool
}.

Definition __init__ (x y : R) : t := mk x y 100 20 100 0 false.

Definition set_width (self : t) (w : Z) : t :=
  mk (x self) (y self) w (height self) (base_width self) (vel self)
     (sticky self).

Definition set_sticky (self : t) (s : bool) : t :=
  mk (x self) (y self) (width self) (height self) (base_width self)
     (vel self) s.

Definition update (self : t) (dt : R) (mouse_x : Z) (field_width : Z) : t :=
  let target_x := (mouse_x - width self / 2)%Z in
  let distance := IZR target_x - x self in
  let vel' := distance * 10 in
  let x' := x self + vel' * dt in
  let x'' := Rmax 0 (Rmin x' (IZR (field_width - width self))) in
  mk x'' (y self) (width self) (height self) (base_width self) vel'
     (sticky self).

Definition get_collision_normal (self : t) (ball_x : R) : Vector2D.t :=
  let relative_pos :=
    (ball_x - (x self + IZR (width self) / 2)) / (IZR (width self) / 2) in
  let relative_pos := Rmax (-1) (Rmin 1 relative_pos) in
  let angle := relative_pos * PI / 3 in
  Vector2D.mk (sin angle) (- cos angle).
End Paddle.

(** ** class Brick *)

Module Brick.
Record t := mk {
  x : Z;
  y : Z;
  width : Z;
  height : Z;
  health : Z;
  max_health : Z;
  points : Z;
  powerup : option PowerUpType
}.

(** The power-up is drawn only when the first draw is below [0.1]. *)
Definition __init__ `{RandomSource} (x y : Z) (health : Z) : Rand t :=
  (u <- random ;;
   p <- (if Rltb u (1 / 10)
         then v <- randint 1 6 ;; ret (PowerUpType_of_value v)
         else ret None) ;;
   ret (mk x y 75 25 health health (health * 100)%Z p))%rand.

(** [hit] returns [True] when the brick is destroyed. *)
Definition hit (self : t) : t * bool :=
  let health' := (health self - 1)%Z in
  (mk (x self) (y self) (width self) (height self) health'
      (max_health self) (points self) (powerup self),
   (health' <=? 0)%Z).
End Brick.

(** ** class PowerUp *)

Module PowerUp.
Record t := mk {
  pos : Vector2D.t;
  type : PowerUpType;
  vel : Vector2D.t;
  size : Z;
  active : bool
}.

Definition __init__ (x y : R) (powerup_type : PowerUpType) : t :=
  mk (Vector2D.mk x y) powerup_type (Vector2D.mk 0 150) 20 true.

(** [update] returns [True] when the power-up has left the field. *)
Definition update (self : t) (dt : R) (height : Z) : t * bool :=
  let pos' := Vector2D.__add__ (pos self) (Vector2D.__mul__ (vel self) dt) in
  (mk pos' (type self) (vel self) (size self) (active self),
   Rgtb (Vector2D.y pos') (IZR height)).
End PowerUp.

(** ** The host library *)

Module pygame.
(** The arguments of [pygame.Rect(left, top, width, height)]. *)
Record Rect := mkRect { left : R; top : R; width : R; height : R }.

(** [a.colliderect(b)]. *)
Class Lib := { colliderect : Rect -> Rect -> bool }.

Inductive Event :=
| QUIT
| MOUSEBUTTONDOWN
| KEYDOWN (key : Z)
| OTHER.

Definition K_ESCAPE : Z := 27.

(** [event.type == pygame.MOUSEBUTTONDOWN]. *)
Definition is_click (e : Event) : bool :=
  match e with MOUSEBUTTONDOWN => true | _ => false end.

(** [event.type == pygame.KEYDOWN and event.key == pygame.K_ESCAPE]. *)
Definition is_escape (e : Event) : bool :=
  match e with KEYDOWN k => (k =? K_ESCAPE)%Z | _ => false end.
End pygame.

(** What the host hands to a state handler each frame: [dt], the pointer's
    abscissa and the pending events. *)
Record Input := mkInput {
  dt : R;
  mouse_x : Z;
  events : list pygame.Event
}.

(** ** Lists addressed by position *)

(** [del xs[i]]. *)
Definition remove_at {A} (i : nat) (xs : list A) : list A :=
  firstn i xs ++ skipn (S i) xs.

(** The object at position [i] now has the value [v]. *)
Definition store_at {A} (i : nat) (v : A) (xs : list A) : list A :=
  firstn i xs ++ v :: skipn (S i) xs.

(** ** Loops that draw *)

(** [[f(a) for a in xs]], the draws in list order. *)
Fixpoint mapM {A B} (f : A -> Rand B) (xs : list A) : Rand (list B) :=
  match xs with
  | [] => ret []
  | a :: xs' => (b <- f a ;; bs <- mapM f xs' ;; ret (b :: bs))%rand
  end.

(** [[e(a) for a in xs if c(a)]]: [f a] is [None] when the condition fails. *)
Fixpoint filter_mapM {A B} (f : A -> Rand (option B)) (xs : list A)
  : Rand (list B) :=
  match xs with
  | [] => ret []
  | a :: xs' =>
      (ob <- f a ;;
       bs <- filter_mapM f xs' ;;
       ret (match ob with Some b => b :: bs | None => bs end))%rand
  end.

(** [for a in xs: s = body(s, a)]. *)
Fixpoint foldM {A S} (body : S -> A -> Rand S) (xs : list A) (s : S) : Rand S :=
  match xs with
  | [] => ret s
  | a :: xs' => (s' <- body s a ;; foldM body xs' s')%rand
  end.

(** ** class ArkanoidGame *)

Module ArkanoidGame.
Record t := mk {
  width : Z;
  height : Z;
  state : GameState;
  score : Z;
  lives : Z;
  level : Z;
  paddle : Paddle.t;
  balls : list Ball.t;
  bricks : list Brick.t;
  particles : list Particle.t;
  powerups : list PowerUp.t
}.

Definition set_state (self : t) (v : GameState) : t :=
  mk (width self) (height self) v (score self) (lives self) (level self)
     (paddle self) (balls self) (bricks self) (particles self)
     (powerups self).
Definition set_score (self : t) (v : Z) : t :=
  mk (width self) (height self) (state self) v (lives self) (level self)
     (paddle self) (balls self) (bricks self) (particles self)
     (powerups self).
Definition set_lives (self : t) (v : Z) : t :=
  mk (width self) (height self) (state self) (score self) v (level self)
     (paddle self) (balls self) (bricks self) (particles self)
     (powerups self).
Definition set_level (self : t) (v : Z) : t :=
  mk (width self) (height self) (state self) (score self) (lives self) v
     (paddle self) (balls self) (bricks self) (particles self)
     (powerups self).
Definition set_paddle (self : t) (v : Paddle.t) : t :=
  mk (width self) (height self) (state self) (score self) (lives self)
     (level self) v (balls self) (bricks self) (particles self)
     (powerups self).
Definition set_balls (self : t) (v : list Ball.t) : t :=
  mk (width self) (height self) (state self) (score self) (lives self)
     (level self) (paddle self) v (bricks self) (particles self)
     (powerups self).
Definition set_bricks (self : t) (v : list Brick.t) : t :=
  mk (width self) (height self) (state self) (score self) (lives self)
     (level self) (paddle self) (balls self) v (particles self)
     (powerups self).
Definition set_particles (self : t) (v : list Particle.t) : t :=
  mk (width self) (height self) (state self) (score self) (lives self)
     (level self) (paddle self) (balls self) (bricks self) v
     (powerups self).
Definition set_powerups (self : t) (v : list PowerUp.t) : t :=
  mk (width self) (height self) (state self) (score self) (lives self)
     (level self) (paddle self) (balls self) (bricks self) (particles self)
     v.

(** [brick.x + brick.width // 2] and [brick.y + brick.height // 2]. *)
Definition brick_center_x (brick : Brick.t) : Z :=
  (Brick.x brick + Brick.width brick / 2)%Z.
Definition brick_center_y (brick : Brick.t) : Z :=
  (Brick.y brick + Brick.height brick / 2)%Z.

Definition brick_rect (brick : Brick.t) : pygame.Rect :=
  pygame.mkRect (IZR (Brick.x brick)) (IZR (Brick.y brick))
                (IZR (Brick.width brick)) (IZR (Brick.height brick)).

Definition paddle_rect (p : Paddle.t) : pygame.Rect :=
  pygame.mkRect (Paddle.x p) (Paddle.y p)
                (IZR (Paddle.width p)) (IZR (Paddle.height p)).

Definition ball_rect (ball : Ball.t) : pygame.Rect :=
  pygame.mkRect (Vector2D.x (Ball.pos ball) - IZR (Ball.radius ball))
                (Vector2D.y (Ball.pos ball) - IZR (Ball.radius ball))
                (IZR (Ball.radius ball * 2)) (IZR (Ball.radius ball * 2)).

Definition powerup_rect (p : PowerUp.t) : pygame.Rect :=
  pygame.mkRect (Vector2D.x (PowerUp.pos p) - IZR (PowerUp.size p))
                (Vector2D.y (PowerUp.pos p) - IZR (PowerUp.size p))
                (IZR (PowerUp.size p * 2)) (IZR (PowerUp.size p * 2)).

(** The default launch position [Ball(self.width // 2, self.height - 80)]. *)
Definition launch_x (self : t) : R := IZR (width self / 2).
Definition launch_y (self : t) : R := IZR (height self - 80).

(** [[p for p in self.particles if p.update(dt)]]. *)
Definition update_particles (dt : R) (ps : list Particle.t)
  : list Particle.t :=
  flat_map (fun p => let (p', alive) := Particle.update p dt in
                     if alive then [p'] else []) ps.

(** The pause check that ends [_handle_playing]. *)
Definition check_pause (self : t) (events : list pygame.Event) : t :=
  fold_left (fun s e => if pygame.is_escape e then set_state s PAUSED else s)
            events self.

Definition _handle_paused (self : t) (events : list pygame.Event) : t :=
  fold_left (fun s e => if pygame.is_escape e then set_state s PLAYING else s)
            events self.

Section Methods.
Context `{RandomSource} `{pygame.Lib}.
Local Open Scope rand_scope.

(** One cell of the comprehension of [_generate_level]: the omission draw
    comes first, the brick is built only when it passes. *)
Definition level_cell (rows : Z) (cell : Z * Z) : Rand (option Brick.t) :=
  let (y, x) := cell in
  u <- random ;;
  if Rgtb u (1 / 10)
  then b <- Brick.__init__ (x * 78 + 10) (y * 30 + 60)
                           (Z.min (rows - y) 5) ;;
       ret (Some b)
  else ret None.

Definition _generate_level (self : t) (level : Z) : Rand t :=
  let rows := Z.min (5 + level) 10 in
  let cols := 10%Z in
  bricks <- filter_mapM (level_cell rows)
                        (list_prod (range rows) (range cols)) ;;
  ret (set_bricks self bricks).

Definition __init__ (width height : Z) : Rand t :=
  let paddle := Paddle.__init__ (IZR (width / 2 - 50)) (IZR (height - 50)) in
  b <- Ball.__init__ (IZR (width / 2)) (IZR (height - 80)) ;;
  let self := mk width height MENU 0 3 1 paddle [b] [] [] [] in
  _generate_level self (level self).

Definition _create_particles (self : t) (x y : R) (count : Z) : Rand t :=
  velocities <- mapM (fun _ => vx <- uniform (-200) 200 ;;
                               vy <- uniform (-300) (-100) ;;
                               ret (Vector2D.mk vx vy))
                     (range count) ;;
  ps <- mapM (fun vel => Particle.__init__ x y vel) velocities ;;
  ret (set_particles self (particles self ++ ps)).

(** Lines 323-331 of [_handle_collision]: the bounce off the paddle. *)
Definition paddle_bounce (self : t) (ball : Ball.t) : Ball.t :=
  let normal :=
    Paddle.get_collision_normal (paddle self) (Vector2D.x (Ball.pos ball)) in
  let vel1 := Vector2D.reflect (Ball.vel ball) normal in
  let vel2 :=
    Vector2D.__mul__ (Vector2D.normalize vel1) (Vector2D.magnitude vel1) in
  let pos' := Vector2D.mk (Vector2D.x (Ball.pos ball))
                          (Paddle.y (paddle self) - IZR (Ball.radius ball)) in
  let vel3 := Vector2D.mk
                (Vector2D.x vel2 + Paddle.vel (paddle self) * (3 / 10))
                (Vector2D.y vel2) in
  Ball.mk pos' vel3 (Ball.radius ball) (Ball.trail ball)
          (Ball.speed_multiplier ball).

Definition paddle_collision (self : t) (ball : Ball.t) (ball_rect : pygame.Rect)
  : Rand (t * Ball.t) :=
  if pygame.colliderect (paddle_rect (paddle self)) ball_rect
     && Rgtb (Vector2D.y (Ball.vel ball)) 0
  then
    let ball := paddle_bounce self ball in
    self <- _create_particles self (Vector2D.x (Ball.pos ball))
                              (Vector2D.y (Ball.pos ball)) 5 ;;
    ret (self, ball)
  else ret (self, ball).

(** Lines 346-356: the bounce off a brick. *)
Definition brick_bounce (ball : Ball.t) (brick : Brick.t) : Ball.t :=
  let ball_center_x := Vector2D.x (Ball.pos ball) in
  let ball_center_y := Vector2D.y (Ball.pos ball) in
  let diff_x := ball_center_x - IZR (brick_center_x brick) in
  let diff_y := ball_center_y - IZR (brick_center_y brick) in
  if Rgtb (Rabs diff_x) (Rabs diff_y)
  then Ball.set_vel_x ball (- Vector2D.x (Ball.vel ball))
  else Ball.set_vel_y ball (- Vector2D.y (Ball.vel ball)).

(** Lines 336-345: the brick at position [i] of [self.bricks] is hit. *)
Definition hit_brick (self : t) (i : nat) (brick : Brick.t) : Rand t :=
  let (brick, destroyed) := Brick.hit brick in
  if destroyed then
    let self := set_bricks self (remove_at i (bricks self)) in
    let self := set_score self (score self + Brick.points brick) in
    self <- _create_particles self (IZR (brick_center_x brick))
                              (IZR (brick_center_y brick)) 10 ;;
    ret (match Brick.powerup brick with
         | Some kind =>
             set_powerups self
               (powerups self ++
                [PowerUp.__init__ (IZR (brick_center_x brick))
                                  (IZR (brick_center_y brick)) kind])
         | None => self
         end)
  else ret (set_bricks self (store_at i brick (bricks self))).

(** Lines 333-357: [for brick in self.bricks[:]] with its [break];
    [snapshot] is what is left to visit and [i] the position of its head
    in [self.bricks]. *)
Fixpoint brick_collisions (snapshot : list Brick.t) (i : nat)
         (ball_rect : pygame.Rect) (self : t) (ball : Ball.t)
  : Rand (t * Ball.t) :=
  match snapshot with
  | [] => ret (self, ball)
  | brick :: rest =>
      if pygame.colliderect (brick_rect brick) ball_rect
      then self <- hit_brick self i brick ;;
           ret (self, brick_bounce ball brick)
      else brick_collisions rest (S i) ball_rect self ball
  end.

Definition _handle_collision (self : t) (ball : Ball.t) (dt : R)
  : Rand (t * Ball.t) :=
  let ball_rect := ball_rect ball in
  sb <- paddle_collision self ball ball_rect ;;
  brick_collisions (bricks (fst sb)) 0 ball_rect (fst sb) (snd sb).

(** The table [effects] of [_apply_powerup]; [LASER] has no entry. *)
Definition effects (kind : PowerUpType) : option (t -> Rand t) :=
  match kind with
  | EXPAND_PADDLE => Some (fun self =>
      ret (set_paddle self
             (Paddle.set_width (paddle self)
                (Z.min (Paddle.width (paddle self) + 30) 200))))
  | MULTI_BALL => Some (fun self =>
      match balls self with
      | [] => ret self
      | first :: _ =>
          new <- mapM (fun _ => Ball.__init__
                                  (Vector2D.x (Ball.pos first))
                                  (Vector2D.y (Ball.pos first)))
                      (range 2) ;;
          ret (set_balls self (balls self ++ new))
      end)
  | SLOW_BALL => Some (fun self =>
      ret (set_balls self
             (map (fun ball => Ball.set_speed_multiplier ball (7 / 10))
                  (balls self))))
  | STICKY_PADDLE => Some (fun self =>
      ret (set_paddle self (Paddle.set_sticky (paddle self) true)))
  | EXTRA_LIFE => Some (fun self =>
      ret (set_lives self (lives self + 1)))
  | LASER => None
  end.

Definition _apply_powerup (self : t) (powerup_type : PowerUpType) : Rand t :=
  self <- match effects powerup_type with
          | Some effect => effect self
          | None => ret self
          end ;;
  ret (set_score self (score self + 50)).

(** [for powerup in self.powerups[:]]; [i] is the position of the head of
    [snapshot] in [self.powerups].  [paddle_rect] was built before the
    loop. *)
Fixpoint powerups_loop (dt : R) (paddle_rect : pygame.Rect)
         (snapshot : list PowerUp.t) (i : nat) (self : t) : Rand t :=
  match snapshot with
  | [] => ret self
  | powerup :: rest =>
      let (powerup, out) := PowerUp.update powerup dt (height self) in
      if out then
        powerups_loop dt paddle_rect rest i
          (set_powerups self (remove_at i (powerups self)))
      else
        let self := set_powerups self (store_at i powerup (powerups self)) in
        if pygame.colliderect paddle_rect (powerup_rect powerup) then
          self <- _apply_powerup self (PowerUp.type powerup) ;;
          let self := set_powerups self (remove_at i (powerups self)) in
          self <- _create_particles self
                    (Vector2D.x (PowerUp.pos powerup))
                    (Vector2D.y (PowerUp.pos powerup)) 15 ;;
          powerups_loop dt paddle_rect rest i self
        else powerups_loop dt paddle_rect rest (S i) self
  end.

Definition _handle_powerups (self : t) (dt : R) : Rand t :=
  powerups_loop dt (paddle_rect (paddle self)) (powerups self) 0 self.

Definition _handle_menu (self : t) (events : list pygame.Event) : Rand t :=
  foldM (fun self event =>
           if pygame.is_click event
           then let self := set_state self PLAYING in
                _generate_level self (level self)
           else ret self)
        events self.

(** Lines 440-445: the live list has just become empty. *)
Definition last_ball_lost (self : t) : Rand t :=
  let self := set_lives self (lives self - 1) in
  if (lives self >? 0)%Z
  then b <- Ball.__init__ (launch_x self) (launch_y self) ;;
       ret (set_balls self [b])
  else ret (set_state self GAME_OVER).

(** Lines 437-447: [for ball in self.balls[:]]; [i] is the position of the
    head of [snapshot] in [self.balls]. *)
Fixpoint balls_loop (dt : R) (snapshot : list Ball.t) (i : nat) (self : t)
  : Rand t :=
  match snapshot with
  | [] => ret self
  | ball :: rest =>
      let (ball, lost) := Ball.update ball dt (width self) (height self) in
      if lost then
        let self := set_balls self (remove_at i (balls self)) in
        self <- match balls self with
                | [] => last_ball_lost self
                | _ :: _ => ret self
                end ;;
        balls_loop dt rest i self
      else
        sb <- _handle_collision self ball dt ;;
        let self := set_balls (fst sb) (store_at i (snd sb) (balls (fst sb))) in
        balls_loop dt rest (S i) self
  end.

(** Lines 452-459: the clear check. *)
Definition check_victory (self : t) : Rand t :=
  match bricks self with
  | [] =>
      let self := set_level self (level self + 1) in
      if (level self >? 5)%Z
      then ret (set_state self VICTORY)
      else self <- _generate_level self (level self) ;;
           b <- Ball.__init__ (launch_x self) (launch_y self) ;;
           ret (set_balls self [b])
  | _ :: _ => ret self
  end.

Definition _handle_playing (self : t) (inp : Input) : Rand t :=
  let self :=
    set_paddle self
      (Paddle.update (paddle self) (dt inp) (mouse_x inp) (width self)) in
  self <- balls_loop (dt inp) (balls self) 0 self ;;
  let self :=
    set_particles self (update_particles (dt inp) (particles self)) in
  self <- _handle_powerups self (dt inp) ;;
  self <- check_victory self ;;
  ret (check_pause self (events inp)).

(** [self.__init__(self.width, self.height)] on every click. *)
Definition restart_on_click (self : t) (events : list pygame.Event)
  : Rand t :=
  foldM (fun self event =>
           if pygame.is_click event
           then __init__ (width self) (height self)
           else ret self)
        events self.

Definition _handle_game_over := restart_on_click.
Definition _handle_victory := restart_on_click.

(** One iteration of the loop of [run]: the handler of the current
    state. *)
Definition frame (self : t) (inp : Input) : Rand t :=
  match state self with
  | MENU => _handle_menu self (events inp)
  | PLAYING => _handle_playing self inp
  | PAUSED => ret (_handle_paused self (events inp))
  | GAME_OVER => _handle_game_over self (events inp)
  | VICTORY => _handle_victory self (events inp)
  end.

(** [run]: the frames of a session, from the game built by [main]. *)
Definition run (self : t) (inputs : list Input) : Rand t :=
  foldM frame inputs self.

(** The worlds (game, index of the next draw) a session can be in. *)
Inductive reachable : t * nat -> Prop :=
| reachable_init : forall width height seed,
    reachable (__init__ width height seed)
| reachable_frame : forall self i inp,
    reachable (self, i) -> reachable (frame self inp i).
End Methods.
End ArkanoidGame.

(** * Vocabulary of the properties *)

(** A brick of the active list is sound when its health is at least 1 and at
    most its [max_health]. *)
Definition brick_sound (b : Brick.t) : Prop :=
  (1 <= Brick.health b <= Brick.max_health b)%Z.

Definition bricks_sound (self : ArkanoidGame.t) : Prop :=
  Forall brick_sound (ArkanoidGame.bricks self).

(** The fall step of a power-up during [dt] in a field of height [h]: where
    it is afterwards, whether it has left the field, and whether it then
    overlaps the rectangle of the paddle. *)
Definition fallen (dt : R) (h : Z) (p : PowerUp.t) : PowerUp.t :=
  fst (PowerUp.update p dt h).

Definition leaves_field (dt : R) (h : Z) (p : PowerUp.t) : bool :=
  snd (PowerUp.update p dt h).

Definition touches_paddle `{pygame.Lib} (paddle_rect : pygame.Rect) (dt : R)
           (h : Z) (p : PowerUp.t) : bool :=
  pygame.colliderect paddle_rect (ArkanoidGame.powerup_rect (fallen dt h p)).

(** A list of bricks that a ball off the left side of the field cannot
    touch: not empty, and right of x = 10. *)
Definition clear_of_the_left (bricks : list Brick.t) : Prop :=
  bricks <> [] /\ forall b, In b bricks -> (10 <= Brick.x b)%Z.

(** ** Scenarios *)

(** A ball 10 units from the left and top walls of the 800 x 600 field,
    moving up and to the left. *)
Definition corner_ball : Ball.t :=
  Ball.mk (Vector2D.mk 10 10) (Vector2D.mk (-200) (-300)) 8 [] 1.

(** A generator whose every raw output is 2^52: [random()] is 1/2, so no
    cell of a level is omitted and no brick carries a power-up. *)
Definition steady_source : RandomSource := {| entropy := fun _ => (2 ^ 52)%Z |}.

(** The overlap test of two axis-aligned rectangles on exact coordinates;
    rectangles that only share an edge do not collide.  ([pygame.Rect]
    first truncates its arguments to integers; in the scenarios below the
    rectangles overlap by more than a unit or are more than a unit apart,
    where truncation does not change the answer.) *)
Definition aabb : pygame.Lib :=
  {| pygame.colliderect a b :=
       Rltb (pygame.left a) (pygame.left b + pygame.width b)
       && Rltb (pygame.top a) (pygame.top b + pygame.height b)
       && Rgtb (pygame.left a + pygame.width a) (pygame.left b)
       && Rgtb (pygame.top a + pygame.height a) (pygame.top b) |}.

(** Two bricks of the top row of a level, the second one hit down to its
    last health and carrying a power-up. *)
Definition brick_a : Brick.t := Brick.mk 10 60 75 25 5 5 500 None.
Definition brick_b : Brick.t := Brick.mk 88 60 75 25 1 5 500 (Some MULTI_BALL).

(** A ball just below [brick_b], moving up. *)
Definition rising_ball : Ball.t :=
  Ball.mk (Vector2D.mk 125 90) (Vector2D.mk 200 (-300)) 8 [] 1.

(** A game in progress on the 800 x 600 field. *)
Definition game_in_play : ArkanoidGame.t :=
  ArkanoidGame.mk 800 600 PLAYING 1200 3 1 (Paddle.__init__ 350 550)
                  [rising_ball] [brick_a; brick_b] [] [].

(** A power-up one unit above the bottom of the field. *)
Definition low_powerup : PowerUp.t := PowerUp.__init__ 400 599 EXTRA_LIFE.

(** The ball that [steady_source] launches on the 800 x 600 field, and the
    same ball after one and two frames of 10 s: above the field and off its
    left side, then level with its launch and further left. *)
Definition launch_ball : Ball.t :=
  Ball.mk (Vector2D.mk 400 520) (Vector2D.mk (-200) (-300)) 8 [] 1.

Definition ball_above : Ball.t :=
  Ball.mk (Vector2D.mk (-1600) (-2480)) (Vector2D.mk (-200) 300) 8
          [(-1600, -2480)] 1.

Definition ball_aside : Ball.t :=
  Ball.mk (Vector2D.mk (-3600) 520) (Vector2D.mk 200 300) 8
          [(-1600, -2480); (-3600, 520)] 1.

(** The paddle at rest under a pointer at 400. *)
Definition paddle_rest : Paddle.t := Paddle.mk 350 550 100 20 100 0 false.

(** The game in the menu, and in play with [n] lives, before any brick has
    been hit. *)
Definition menu_game (bricks : list Brick.t) : ArkanoidGame.t :=
  ArkanoidGame.mk 800 600 MENU 0 3 1 paddle_rest [launch_ball] bricks [] [].

Definition game_with (state : GameState) (n : Z) (balls : list Ball.t)
           (bricks : list Brick.t) : ArkanoidGame.t :=
  ArkanoidGame.mk 800 600 state 0 n 1 paddle_rest balls bricks [] [].

(** Frames with the pointer at 400: a click; a frame that comes 10 s after
    the one before, without event and with Escape pressed; frames of 1/64 s
    with Escape pressed and without event. *)
Definition click_frame : Input := mkInput (1 / 64) 400 [pygame.MOUSEBUTTONDOWN].
Definition stall_frame : Input := mkInput 10 400 [].
Definition stall_escape_frame : Input :=
  mkInput 10 400 [pygame.KEYDOWN pygame.K_ESCAPE].
Definition escape_frame : Input :=
  mkInput (1 / 64) 400 [pygame.KEYDOWN pygame.K_ESCAPE].
Definition quiet_frame : Input := mkInput (1 / 64) 400 [].

(** A session: the click that starts the game; three balls, each lost in
    three stalled frames, Escape being pressed in the frame that loses the
    third; Escape again. *)
Definition pause_session : list Input :=
  [click_frame;
   stall_frame; stall_frame; stall_frame;
   stall_frame; stall_frame; stall_frame;
   stall_frame; stall_frame; stall_escape_frame;
   escape_frame].

(** The outcome of a call: it returns a value, or it raises. *)
Inductive outcome (A : Type) : Type :=
| Returned (value : A)
| Raised.
Arguments Returned {A} value.
Arguments Raised {A}.

(** A call of [_generate_level].  The method has no [raise] statement and
    what it calls ([min], [range], [random.random], [Brick], and
    [PowerUpType] on a value of [randint(1, 6)]) does not raise on
    integers: the call returns. *)
Definition call_generate_level `{RandomSource} (self : ArkanoidGame.t)
           (level : Z) : Rand (outcome ArkanoidGame.t) :=
  fun i => let (self', j) := ArkanoidGame._generate_level self level i in
           (Returned self', j).

(** ** Repeated calls *)

(** [k] calls of [brick.hit()] in a row: the brick afterwards and what the
    last call returned ([False] when there was no call). *)
Fixpoint hit_times (k : nat) (b : Brick.t) : Brick.t * bool :=
  match k with
  | O => (b, false)
  | S k' => Brick.hit (fst (hit_times k' b))
  end.


(** [for kind in kinds: self._apply_powerup(kind)]. *)
Definition collect_all `{RandomSource} (kinds : list PowerUpType)
           (self : ArkanoidGame.t) : Rand ArkanoidGame.t :=
  foldM ArkanoidGame._apply_powerup kinds self.

(** ** Entities as the game makes them *)

(** A particle as [_create_particles] makes it at (x, y). *)
Definition burst_particle (x y : R) (p : Particle.t) : Prop :=
  Particle.pos p = Vector2D.mk x y
  /\ Particle.life p = 1
  /\ 2 <= Particle.size p < 5
  /\ -200 <= Vector2D.x (Particle.vel p) < 200
  /\ -300 <= Vector2D.y (Particle.vel p) < -100.

(** ** What a session keeps *)

(** The paddle of a field of height [h]: 50 above the bottom, 20 high, of
    base width 100 and of a width between 100 and 200. *)
Definition paddle_ok (h : Z) (p : Paddle.t) : Prop :=
  Paddle.y p = IZR (h - 50)
  /\ Paddle.height p = 20%Z
  /\ Paddle.base_width p = 100%Z
  /\ (100 <= Paddle.width p <= 200)%Z.

(** A ball of radius 8, at full speed or slowed to 7/10, with a trail of at
    most ten positions. *)
Definition ball_ok (b : Ball.t) : Prop :=
  Ball.radius b = 8%Z
  /\ (Ball.speed_multiplier b = 1 \/ Ball.speed_multiplier b = 7 / 10)
  /\ (length (Ball.trail b) <= 10)%nat.

(** Where a brick is. *)
Definition brick_cell (b : Brick.t) : Z * Z := (Brick.x b, Brick.y b).

(** A brick of the layout of [level]: 75 x 25 on a cell of the grid, the
    health it started from set by its row, worth 100 points for each unit
    of it, and not yet destroyed. *)
Definition brick_ok (level : Z) (b : Brick.t) : Prop :=
  let rows := Z.min (5 + level) 10 in
  Brick.width b = 75%Z
  /\ Brick.height b = 25%Z
  /\ Brick.points b = (Brick.max_health b * 100)%Z
  /\ (1 <= Brick.health b <= Brick.max_health b)%Z
  /\ exists row col : Z,
      (0 <= row < rows)%Z /\ (0 <= col < 10)%Z
      /\ Brick.x b = (col * 78 + 10)%Z
      /\ Brick.y b = (row * 30 + 60)%Z
      /\ Brick.max_health b = Z.min (rows - row) 5.

(** A particle that is still alive, smaller than 5. *)
Definition particle_ok (p : Particle.t) : Prop :=
  Particle.life p > 0 /\ 0 < Particle.size p < 5.

(** A power-up that falls straight down at 150, in the middle of one of the
    ten columns of the grid, of size 20 and active. *)
Definition powerup_ok (p : PowerUp.t) : Prop :=
  PowerUp.vel p = Vector2D.mk 0 150
  /\ PowerUp.size p = 20%Z
  /\ PowerUp.active p = true
  /\ exists col : Z,
      (0 <= col < 10)%Z
      /\ Vector2D.x (PowerUp.pos p) = IZR (col * 78 + 47).

(** The entities of a game are as above, no two bricks are on the same
    cell, the level is at least 1 and the score at least [lo]. *)
Definition session_inv (lo : Z) (self : ArkanoidGame.t) : Prop :=
  paddle_ok (ArkanoidGame.height self) (ArkanoidGame.paddle self)
  /\ Forall ball_ok (ArkanoidGame.balls self)
  /\ Forall (brick_ok (ArkanoidGame.level self)) (ArkanoidGame.bricks self)
  /\ NoDup (map brick_cell (ArkanoidGame.bricks self))
  /\ Forall particle_ok (ArkanoidGame.particles self)
  /\ Forall powerup_ok (ArkanoidGame.powerups self)
  /\ (1 <= ArkanoidGame.level self)%Z
  /\ (lo <= ArkanoidGame.score self)%Z.

(** The game of a session under [steady_source] on the 800 x 600 field
    after the click that starts it, with the index of the next draw. *)
Definition opened_game : ArkanoidGame.t * nat :=
  let w := @ArkanoidGame.__init__ steady_source 800 600 0%nat in
  @ArkanoidGame.frame steady_source aabb (fst w) click_frame (snd w).

(** ** The layout of a level, cell by cell *)

Section LevelLayout.
Context `{RandomSource}.

(** The cell whose omission draw is the draw [d] keeps its brick when that
    draw is above 0.1. *)
Definition cell_kept (d : nat) : bool := Rgtb (fst (random d)) (1 / 10).

(** The power-up of the brick of that cell: decided by the draw after [d]
    and, when that one is below 0.1, named by the draw after it. *)
Definition cell_powerup (d : nat) : option PowerUpType :=
  if Rltb (fst (random (S d))) (1 / 10)
  then PowerUpType_of_value (fst (randint 1 6 (S (S d))))
  else None.

(** The omission draw of the cell visited after the one that draws at
    [d]: the draws in between are those of the brick. *)
Definition next_cell_draw (d : nat) : nat :=
  if cell_kept d
  then if Rltb (fst (random (S d))) (1 / 10) then d + 3 else d + 2
  else d + 1.

(** The omission draws of [n] cells visited in a row, the first at [d]. *)
Fixpoint cell_draws (d : nat) (n : nat) : list nat :=
  match n with
  | O => []
  | S n' => d :: cell_draws (next_cell_draw d) n'
  end.

(** The brick of the cell (row, col) in a level of [rows] rows, the
    omission draw of the cell being [d]. *)
Definition cell_brick (rows : Z) (cell : Z * Z) (d : nat) : Brick.t :=
  let (row, col) := cell in
  Brick.mk (col * 78 + 10) (row * 30 + 60) 75 25
           (Z.min (rows - row) 5) (Z.min (rows - row) 5)
           (Z.min (rows - row) 5 * 100) (cell_powerup d).

(** The level as the specification describes it: the cells of
    min(5 + n, 10) rows and 10 columns, visited row by row, each with an
    omission draw of its own, and a brick on every cell whose draw is
    above 0.1. *)
Definition level_as_claimed (n : Z) (i : nat) : list Brick.t :=
  let rows := Z.min (5 + n) 10 in
  let cells := list_prod (range rows) (range 10) in
  map (fun cd => cell_brick rows (fst cd) (snd cd))
      (filter (fun cd => cell_kept (snd cd))
              (combine cells (cell_draws i (length cells)))).

(** The clear check as the specification words it: Victory when the
    level, as it is, exceeds 5; otherwise the level is incremented, its
    bricks are generated and a single new ball is launched. *)
Definition clear_check_as_claimed (self : ArkanoidGame.t)
  : Rand ArkanoidGame.t :=
  match ArkanoidGame.bricks self with
  | [] =>
      if (ArkanoidGame.level self >? 5)%Z
      then ret (ArkanoidGame.set_state self VICTORY)
      else
        let self :=
          ArkanoidGame.set_level self (ArkanoidGame.level self + 1) in
        (self <- ArkanoidGame._generate_level self
                   (ArkanoidGame.level self) ;;
         b <- Ball.__init__ (ArkanoidGame.launch_x self)
                            (ArkanoidGame.launch_y self) ;;
         ret (ArkanoidGame.set_balls self [b]))%rand
  | _ :: _ => ret self
  end.
End LevelLayout.

(** ** A session with a power-up on the field *)

(** A generator by turns: of every three raw outputs in a row the second
    is 2^52 and the others are 0.  For a level generated from a draw that
    is 1 modulo 3, every cell keeps its brick ([random()] is 1/2), every
    brick carries a power-up ([random()] is 0) and the power-up is Expand
    Paddle ([randint(1, 6)] is 1). *)
Definition gift_source : RandomSource :=
  {| entropy := fun i => if (i mod 3 =? 1)%nat then (2 ^ 52)%Z else 0%Z |}.

(** The brick of the cell (row, col) in a level of [rows] rows under
    [gift_source], and level 1. *)
Definition gift_brick (rows : Z) (cell : Z * Z) : Brick.t :=
  let (row, col) := cell in
  Brick.mk (col * 78 + 10) (row * 30 + 60) 75 25
           (Z.min (rows - row) 5) (Z.min (rows - row) 5)
           (Z.min (rows - row) 5 * 100) (Some EXPAND_PADDLE).

Definition gift_level : list Brick.t :=
  map (gift_brick 6) (list_prod (range 6) (range 10)).

(** The 800 x 320 field: the ball is launched just below the bottom row of
    the bricks of level 1, and a frame of 1/16 s takes it into the brick of
    row 5, column 4. *)
Definition low_paddle : Paddle.t := Paddle.mk 350 270 100 20 100 0 false.

Definition low_ball : Ball.t :=
  Ball.mk (Vector2D.mk 400 240) (Vector2D.mk (-200) (-300)) 8 [] 1.

Definition low_ball_moved : Ball.t :=
  Ball.mk (Vector2D.mk (775 / 2) (885 / 4)) (Vector2D.mk (-200) (-300)) 8
          [(775 / 2, 885 / 4)] 1.

Definition low_game (state : GameState) (bricks : list Brick.t)
  : ArkanoidGame.t :=
  ArkanoidGame.mk 800 320 state 0 3 1 low_paddle [low_ball] bricks [] [].

Definition low_frame : Input := mkInput (1 / 16) 400 [].

(** The session: the game is built, a click starts it, and a frame of
    1/16 s follows. *)
Definition gift_session : ArkanoidGame.t * nat :=
  let w := @ArkanoidGame.__init__ gift_source 800 320 0%nat in
  @ArkanoidGame.run gift_source aabb (fst w) [click_frame; low_frame] (snd w).

(** * Properties *)

(** ** Deciding comparisons *)

Lemma Rltb_true (a b : R) : a < b -> Rltb a b = true.
Proof.
  intros Hab; unfold Rltb; destruct (Rlt_dec a b);
    [reflexivity | contradiction].
Qed.

Lemma Rltb_false (a b : R) : b <= a -> Rltb a b = false.
Proof.
  intros Hab; unfold Rltb; destruct (Rlt_dec a b); [lra | reflexivity].
Qed.

Lemma Rleb_true (a b : R) : a <= b -> Rleb a b = true.
Proof.
  intros Hab; unfold Rleb; destruct (Rle_dec a b);
    [reflexivity | contradiction].
Qed.

Lemma Rleb_false (a b : R) : b < a -> Rleb a b = false.
Proof.
  intros Hab; unfold Rleb; destruct (Rle_dec a b); [lra | reflexivity].
Qed.

Lemma Rleb_false_inv (a b : R) : Rleb a b = false -> b < a.
Proof. unfold Rleb; destruct (Rle_dec a b); [discriminate | lra]. Qed.

Lemma Rltb_spec (a b : R) : Rltb a b = true <-> a < b.
Proof.
  unfold Rltb; destruct (Rlt_dec a b); split; intros; try easy.
Qed.

Lemma Rleb_spec (a b : R) : Rleb a b = true <-> a <= b.
Proof.
  unfold Rleb; destruct (Rle_dec a b); split; intros; try easy.
Qed.

(** Settles every comparison of the goal whose sides are known numbers. *)
Ltac decide_cmp :=
  unfold Rgtb, Rgeb in *;
  repeat match goal with
    | |- context [Rltb ?a ?b] =>
        first [ rewrite (Rltb_true a b) by lra
              | rewrite (Rltb_false a b) by lra ]
    | |- context [Rleb ?a ?b] =>
        first [ rewrite (Rleb_true a b) by lra
              | rewrite (Rleb_false a b) by lra ]
    end.

(** ** Ball.update and the walls *)

(** The display of [collision_handlers] has one entry per distinct key, so at
    most one entry under [True]: the handler of the last condition that
    holds. *)
Lemma collision_handlers_run (c1 c2 c3 : bool) (h1 h2 h3 : Ball.t -> Ball.t)
      (b : Ball.t) :
  Ball.run_handlers (dict_display [(c1, h1); (c2, h2); (c3, h3)]) b
  = if c3 then h3 b else if c2 then h2 b else if c1 then h1 b else b.
Proof. destruct c1, c2, c3; reflexivity. Qed.

(** What [Ball.update] does to a ball, in closed form. *)
Lemma Ball_update_eq (b : Ball.t) (dt : R) (width height : Z) :
  let pos' :=
    Vector2D.__add__ (Ball.pos b)
      (Vector2D.__mul__ (Ball.vel b) (dt * Ball.speed_multiplier b)) in
  let moved :=
    Ball.mk pos' (Ball.vel b) (Ball.radius b)
      (last_n 10 (Ball.trail b ++ [(Vector2D.x pos', Vector2D.y pos')]))
      (Ball.speed_multiplier b) in
  let left := Rleb (Vector2D.x pos' - IZR (Ball.radius b)) 0 in
  let right := Rgeb (Vector2D.x pos' + IZR (Ball.radius b)) (IZR width) in
  let top := Rleb (Vector2D.y pos' - IZR (Ball.radius b)) 0 in
  Ball.update b dt width height
  = ((if top then Ball.bounce_top moved
      else if right then Ball.bounce_right moved
      else if left then Ball.bounce_left moved
      else moved),
     Rgtb (Vector2D.y pos') (IZR height)).
Proof.
  intros pos' moved left right top.
  unfold Ball.update.
  fold pos'.
  cbn [Ball.pos Ball.vel Ball.radius Ball.trail Ball.speed_multiplier].
  fold moved. fold left. fold right. fold top.
  rewrite collision_handlers_run.
  destruct top, right, left; reflexivity.
Qed.

(** X1.  [update] keeps the magnitude of each component of the velocity. *)
Lemma Ball_update_keeps_components (b : Ball.t) (dt : R) (width height : Z) :
  let b' := fst (Ball.update b dt width height) in
  Rabs (Vector2D.x (Ball.vel b')) = Rabs (Vector2D.x (Ball.vel b))
  /\ Rabs (Vector2D.y (Ball.vel b')) = Rabs (Vector2D.y (Ball.vel b)).
Proof.
  cbn zeta. rewrite Ball_update_eq. cbn [fst].
  repeat match goal with |- context [if ?c then _ else _] => destruct c end;
    cbn [Ball.bounce_top Ball.bounce_left Ball.bounce_right Ball.set_vel_x
         Ball.set_vel_y Ball.vel Vector2D.x Vector2D.y];
    rewrite ?Rabs_Ropp, ?Rabs_Rabsolu; split; reflexivity.
Qed.

(** X2.  What the handlers do, the conditions being taken at the position
    after the move.  At most one of them runs.  When the top condition
    holds, the ball is turned down the field and its horizontal velocity is
    left as it was, also at a side wall.  When the right condition holds
    and the top one does not, the ball is turned left and nothing else.
    When the left condition holds alone, the ball is turned right and
    nothing else.  When none holds the velocity is as it was. *)
Lemma Ball_update_walls (b : Ball.t) (dt : R) (width height : Z) :
  let b' := fst (Ball.update b dt width height) in
  let left := Vector2D.x (Ball.pos b') - IZR (Ball.radius b) <= 0 in
  let right := Vector2D.x (Ball.pos b') + IZR (Ball.radius b) >= IZR width in
  let top := Vector2D.y (Ball.pos b') - IZR (Ball.radius b) <= 0 in
  let vx := Vector2D.x (Ball.vel b) in
  let vy := Vector2D.y (Ball.vel b) in
  (top -> Vector2D.y (Ball.vel b') >= 0)
  /\ (right -> ~ top -> Vector2D.x (Ball.vel b') <= 0)
  /\ (left -> ~ right -> ~ top -> Vector2D.x (Ball.vel b') >= 0)
  /\ (top -> Ball.vel b' = Vector2D.mk vx (Rabs vy))
  /\ (right -> ~ top -> Ball.vel b' = Vector2D.mk (- Rabs vx) vy)
  /\ (left -> ~ right -> ~ top -> Ball.vel b' = Vector2D.mk (Rabs vx) vy)
  /\ (~ left -> ~ right -> ~ top -> Ball.vel b' = Ball.vel b).
Proof.
  cbn zeta. rewrite Ball_update_eq. cbn [fst]. unfold Rgeb.
  set (pos' := Vector2D.__add__ _ _).
  pose proof (Rabs_pos (Vector2D.x (Ball.vel b))) as Hax.
  pose proof (Rabs_pos (Vector2D.y (Ball.vel b))) as Hay.
  destruct (Rleb (Vector2D.y pos' - IZR (Ball.radius b)) 0) eqn:Ht;
    destruct (Rleb (IZR width) (Vector2D.x pos' + IZR (Ball.radius b))) eqn:Hr;
    destruct (Rleb (Vector2D.x pos' - IZR (Ball.radius b)) 0) eqn:Hl;
    cbn [Ball.bounce_top Ball.bounce_left Ball.bounce_right Ball.set_vel_x
         Ball.set_vel_y Ball.pos Ball.vel Vector2D.x Vector2D.y];
    try apply Rleb_spec in Ht; try apply Rleb_spec in Hr;
    try apply Rleb_spec in Hl;
    try apply Rleb_false_inv in Ht; try apply Rleb_false_inv in Hr;
    try apply Rleb_false_inv in Hl;
    repeat split; intros;
    first [lra | reflexivity | exfalso; lra
           | destruct (Ball.vel b); reflexivity].
Qed.

Ltac unfold_ball :=
  cbn [corner_ball Ball.pos Ball.vel Ball.radius Ball.trail
       Ball.speed_multiplier Ball.bounce_top Ball.bounce_left
       Ball.bounce_right Ball.set_vel_x Ball.set_vel_y
       Vector2D.__add__ Vector2D.__mul__ Vector2D.x Vector2D.y fst snd].

(** C1 (the code at the failing input).  A frame of 1/64 s takes
    [corner_ball] to (6.875, 5.3125), touching the left and the top wall;
    only the top handler runs and the velocity becomes (-200, 300).  That
    ball is the input of the next [update], of 1/128 s: before it
    x - r <= 0, after it the ball is at (5.3125, 7.65625), where the left and
    top conditions hold again, and the horizontal velocity is still -200:
    the ball keeps moving into the left wall. *)
Theorem C1_corner_hit_keeps_leftward_velocity :
  let b1 := fst (Ball.update corner_ball (1 / 64) 800 600) in
  let b2 := fst (Ball.update b1 (1 / 128) 800 600) in
  Ball.pos b1
  = Vector2D.mk (10 + -200 * (1 / 64 * 1)) (10 + -300 * (1 / 64 * 1))
  /\ Ball.vel b1 = Vector2D.mk (-200) 300
  /\ Vector2D.x (Ball.pos b1) - IZR (Ball.radius b1) <= 0
  /\ Vector2D.x (Ball.pos b2) - IZR (Ball.radius b2) <= 0
  /\ Vector2D.y (Ball.pos b2) - IZR (Ball.radius b2) <= 0
  /\ Vector2D.x (Ball.vel b2) = -200
  /\ ~ Vector2D.x (Ball.vel b2) >= 0.
Proof.
  assert (H1 : Ball.update corner_ball (1 / 64) 800 600
               = (Ball.mk (Vector2D.mk (10 + -200 * (1 / 64 * 1))
                                       (10 + -300 * (1 / 64 * 1)))
                          (Vector2D.mk (-200) (Rabs (-300))) 8
                          (last_n 10 ([] ++ [(10 + -200 * (1 / 64 * 1),
                                             10 + -300 * (1 / 64 * 1))])) 1,
                  false)).
  { rewrite Ball_update_eq. unfold_ball. decide_cmp. reflexivity. }
  rewrite H1. cbn [fst].
  rewrite Ball_update_eq. unfold_ball.
  assert (Habs : Rabs (-300) = 300) by (rewrite Rabs_left by lra; lra).
  rewrite Habs. decide_cmp. unfold_ball.
  repeat split; try lra.
Qed.

(** ** Reflection and the paddle's normal *)

Section VectorLaws.
Import Vector2D.

Lemma magnitude_nonneg (v : t) : 0 <= magnitude v.
Proof. apply sqrt_pos. Qed.

Lemma norm_sq_nonneg (v : t) : 0 <= x v ^ 2 + y v ^ 2.
Proof. nra. Qed.

Lemma magnitude_sq (v : t) : magnitude v * magnitude v = x v ^ 2 + y v ^ 2.
Proof. apply sqrt_sqrt, norm_sq_nonneg. Qed.

Lemma magnitude_zero (v : t) : magnitude v = 0 -> x v = 0 /\ y v = 0.
Proof.
  intros Hm. pose proof (magnitude_sq v) as Hs. rewrite Hm in Hs.
  split; nra.
Qed.

(** [reflect] keeps the squared length when the normal has length 1. *)
Lemma reflect_norm_sq (v n : t) :
  x n ^ 2 + y n ^ 2 = 1 ->
  x (reflect v n) ^ 2 + y (reflect v n) ^ 2 = x v ^ 2 + y v ^ 2.
Proof.
  intros Hn. unfold reflect. cbn [x y].
  replace ((x v - 2 * (x v * x n + y v * y n) * x n) ^ 2
           + (y v - 2 * (x v * x n + y v * y n) * y n) ^ 2)
    with (x v ^ 2 + y v ^ 2
          + 4 * (x v * x n + y v * y n) ^ 2 * (x n ^ 2 + y n ^ 2 - 1))
    by ring.
  rewrite Hn. ring.
Qed.

Lemma magnitude_reflect (v n : t) :
  magnitude n = 1 -> magnitude (reflect v n) = magnitude v.
Proof.
  intros Hn. unfold magnitude at 1 2.
  rewrite reflect_norm_sq; [reflexivity |].
  rewrite <- magnitude_sq, Hn. ring.
Qed.

(** [v.normalize() * v.magnitude] has the length of [v], also when [v] is
    the zero vector (which [normalize] returns as it is). *)
Lemma normalize_rescale (v : t) :
  __mul__ (normalize v) (magnitude v) = v.
Proof.
  unfold normalize. fold (magnitude v). unfold Rgtb.
  destruct (Rlt_dec 0 (magnitude v)) as [Hpos | Hzero].
  - rewrite Rltb_true by assumption.
    unfold __mul__. cbn [x y]. destruct v as [vx vy]. cbn [x y].
    f_equal; field; lra.
  - rewrite Rltb_false by lra.
    assert (Hm : magnitude v = 0) by (pose proof (magnitude_nonneg v); lra).
    destruct (magnitude_zero v Hm) as [Hx Hy].
    rewrite Hm. unfold __mul__. destruct v as [vx vy]. cbn [x y] in *.
    subst. f_equal; ring.
Qed.

Lemma collision_normal_unit (p : Paddle.t) (ball_x : R) :
  magnitude (Paddle.get_collision_normal p ball_x) = 1.
Proof.
  unfold Paddle.get_collision_normal, magnitude. cbn [x y].
  set (angle := _ * PI / 3).
  replace (sin angle ^ 2 + (- cos angle) ^ 2)
    with (Rsqr (sin angle) + Rsqr (cos angle)) by (unfold Rsqr; ring).
  rewrite sin2_cos2. apply sqrt_1.
Qed.
End VectorLaws.

(** C5.  [get_collision_normal] returns (sin theta, -cos theta) for
    theta = clamp(offset, -1, 1) * pi / 3, and that vector has length 1;
    [reflect] about a vector of length 1 keeps the length of the velocity;
    and in the paddle bounce the velocity that results from reflecting,
    renormalising and rescaling ([v2] below, to which the bounce then adds
    0.3 * paddle velocity on x) has the length of the velocity before the
    bounce. *)
Theorem C5_paddle_bounce_preserves_speed :
  (forall (p : Paddle.t) (ball_x : R),
      let offset := (ball_x - (Paddle.x p + IZR (Paddle.width p) / 2))
                    / (IZR (Paddle.width p) / 2) in
      let theta := Rmax (-1) (Rmin 1 offset) * PI / 3 in
      Paddle.get_collision_normal p ball_x
      = Vector2D.mk (sin theta) (- cos theta)
      /\ Vector2D.magnitude (Paddle.get_collision_normal p ball_x) = 1)
  /\ (forall v n : Vector2D.t,
         Vector2D.magnitude n = 1 ->
         Vector2D.magnitude (Vector2D.reflect v n) = Vector2D.magnitude v)
  /\ (forall (self : ArkanoidGame.t) (ball : Ball.t),
         exists v2 : Vector2D.t,
           Vector2D.magnitude v2 = Vector2D.magnitude (Ball.vel ball)
           /\ Ball.vel (ArkanoidGame.paddle_bounce self ball)
              = Vector2D.mk
                  (Vector2D.x v2
                   + Paddle.vel (ArkanoidGame.paddle self) * (3 / 10))
                  (Vector2D.y v2)).
Proof.
  split; [| split].
  - intros p ball_x offset theta. split.
    + reflexivity.
    + apply collision_normal_unit.
  - exact magnitude_reflect.
  - intros self ball.
    set (normal := Paddle.get_collision_normal (ArkanoidGame.paddle self)
                     (Vector2D.x (Ball.pos ball))).
    exists (Vector2D.reflect (Ball.vel ball) normal). split.
    + apply magnitude_reflect, collision_normal_unit.
    + unfold ArkanoidGame.paddle_bounce. fold normal.
      rewrite normalize_rescale. reflexivity.
Qed.

(** A velocity (3, 4) reflected about the normal (0, -1) of a hit at the
    centre of the paddle. *)
Lemma C5_witness :
  Vector2D.magnitude (Vector2D.mk 0 (-1)) = 1
  /\ Vector2D.magnitude
       (Vector2D.reflect (Vector2D.mk 3 4) (Vector2D.mk 0 (-1)))
     = Vector2D.magnitude (Vector2D.mk 3 4).
Proof.
  assert (Hn : Vector2D.magnitude (Vector2D.mk 0 (-1)) = 1).
  { unfold Vector2D.magnitude. cbn [Vector2D.x Vector2D.y].
    replace (0 ^ 2 + (-1) ^ 2) with 1 by ring. apply sqrt_1. }
  split.
  - exact Hn.
  - exact (proj1 (proj2 C5_paddle_bounce_preserves_speed)
             (Vector2D.mk 3 4) (Vector2D.mk 0 (-1)) Hn).
Defined.

(** ** Draws *)

Section Draws.
Context `{RandomSource}.

Lemma randbelow_range (n : Z) (i : nat) :
  (0 < n)%Z -> (0 <= fst (_randbelow n i) < n)%Z.
Proof. intros Hn. unfold _randbelow. cbn [fst]. apply Z.mod_pos_bound, Hn. Qed.

(** [random.choice([-200, 200])]. *)
Lemma launch_choice (i : nat) :
  exists vx : R, (vx = -200 \/ vx = 200) /\ choice 0 [-200; 200] i = (vx, S i).
Proof.
  unfold choice, bind, ret, _randbelow.
  change (Z.of_nat (length [-200; 200])) with 2%Z.
  pose proof (Z.mod_pos_bound (entropy i) 2 eq_refl) as Hb.
  assert (Hc : (entropy i mod 2 = 0 \/ entropy i mod 2 = 1)%Z) by lia.
  destruct Hc as [-> | ->]; cbn [Z.to_nat Pos.to_nat Pos.iter_op nth].
  - exists (-200). split; [left |]; reflexivity.
  - exists 200. split; [right |]; reflexivity.
Qed.

(** A new ball: at the given position, going up at 300 and sideways at
    200, radius 8, no trail, speed multiplier 1; one draw. *)
Lemma Ball_init_eq (x y : R) (i : nat) :
  exists vx : R,
    (vx = -200 \/ vx = 200)
    /\ Ball.__init__ x y i
       = (Ball.mk (Vector2D.mk x y) (Vector2D.mk vx (-300)) 8 [] 1, S i).
Proof.
  destruct (launch_choice i) as (vx & Hvx & Hc).
  exists vx. split; [assumption |].
  unfold Ball.__init__, bind, ret. rewrite Hc. reflexivity.
Qed.
End Draws.

(** ** The power-up dispatcher *)

Section Dispatcher.
Context `{RandomSource}.
Import ArkanoidGame.

End Dispatcher.

(** ** The level generator *)

Lemma NoDup_list_prod {A B} (l : list A) (l' : list B) :
  NoDup l -> NoDup l' -> NoDup (list_prod l l').
Proof.
  intros Hl Hl'. induction Hl as [| a l Ha Hl IH]; [constructor |].
  cbn [list_prod]. apply NoDup_app.
  - apply NoDup_map_NoDup_ForallPairs; [| exact Hl'].
    intros x y _ _ Heq. congruence.
  - exact IH.
  - intros [a' b'] Hin Hin'.
    apply in_map_iff in Hin. destruct Hin as (y & Heq & _).
    apply in_prod_iff in Hin'. destruct Hin' as [Hin' _].
    inversion Heq; subst. contradiction.
Qed.

Lemma range_NoDup (n : Z) : NoDup (range n).
Proof.
  unfold range. apply NoDup_map_NoDup_ForallPairs; [| apply seq_NoDup].
  intros x y _ _. apply Nat2Z.inj.
Qed.

Section Generator.
Context `{RandomSource}.
Import ArkanoidGame.

Lemma range_In (n k : Z) : In k (range n) <-> (0 <= k < n)%Z.
Proof.
  unfold range. rewrite in_map_iff. split.
  - intros (m & <- & Hm). apply in_seq in Hm. lia.
  - intros Hk. exists (Z.to_nat k). split; [lia |]. apply in_seq. lia.
Qed.

Lemma range_nonpositive (n : Z) : (n <= 0)%Z -> range n = [].
Proof.
  intros Hn. unfold range. replace (Z.to_nat n) with 0%nat by lia.
  reflexivity.
Qed.

(** [PowerUpType(random.randint(1, 6))] never raises. *)
Lemma powerup_draw_defined (i : nat) :
  exists kind, PowerUpType_of_value (fst (randint 1 6 i)) = Some kind.
Proof.
  unfold randint, bind, ret, _randbelow. cbn [fst].
  change (6 - 1 + 1)%Z with 6%Z.
  pose proof (Z.mod_pos_bound (entropy i) 6 eq_refl) as Hb.
  assert (Hc : (entropy i mod 6 = 0 \/ entropy i mod 6 = 1
                \/ entropy i mod 6 = 2 \/ entropy i mod 6 = 3
                \/ entropy i mod 6 = 4 \/ entropy i mod 6 = 5)%Z) by lia.
  destruct Hc as [-> | [-> | [-> | [-> | [-> | ->]]]]]; cbn; eauto.
Qed.

(** A new brick: size 75 x 25, full health, [health * 100] points. *)
Lemma Brick_init_eq (x y health : Z) (i : nat) :
  exists p j,
    Brick.__init__ x y health i
    = (Brick.mk x y 75 25 health health (health * 100) p, j).
Proof.
  unfold Brick.__init__, bind, ret.
  destruct (random i) as [u j].
  destruct (Rltb u (1 / 10)).
  - destruct (randint 1 6 j) as [v k]. eauto.
  - eauto.
Qed.

(** A cell is left empty exactly when its omission draw is not above
    0.1. *)
Lemma level_cell_omitted (rows : Z) (cell : Z * Z) (i : nat) :
  fst (level_cell rows cell i) = None <-> fst (random i) <= 1 / 10.
Proof.
  unfold level_cell, bind, ret. destruct cell as [y x].
  destruct (random i) as [u j] eqn:Hr. cbn [fst]. unfold Rgtb.
  destruct (Rlt_dec (1 / 10) u) as [Hu | Hu].
  - rewrite Rltb_true by assumption.
    destruct (Brick_init_eq (x * 78 + 10) (y * 30 + 60) (Z.min (rows - y) 5) j)
      as (p & k & ->).
    cbn [fst]. split; [discriminate | lra].
  - rewrite Rltb_false by lra. cbn [fst]. split; [lra | reflexivity].
Qed.

Lemma level_cell_brick (rows : Z) (y x : Z) (i : nat) (b : Brick.t) :
  fst (level_cell rows (y, x) i) = Some b ->
  exists p, b = Brick.mk (x * 78 + 10) (y * 30 + 60) 75 25
                         (Z.min (rows - y) 5) (Z.min (rows - y) 5)
                         (Z.min (rows - y) 5 * 100) p.
Proof.
  unfold level_cell, bind, ret.
  destruct (random i) as [u j]. destruct (Rgtb u (1 / 10)).
  - destruct (Brick_init_eq (x * 78 + 10) (y * 30 + 60) (Z.min (rows - y) 5) j)
      as (p & k & ->).
    cbn [fst]. intros [= <-]. eauto.
  - cbn [fst]. discriminate.
Qed.

Lemma filter_mapM_In {A B} (f : A -> Rand (option B)) (xs : list A)
      (i : nat) (b : B) :
  In b (fst (filter_mapM f xs i)) ->
  exists a j, In a xs /\ fst (f a j) = Some b.
Proof.
  revert i. induction xs as [| a xs IH]; intros i; cbn [filter_mapM].
  - unfold ret. cbn. contradiction.
  - unfold bind, ret.
    destruct (f a i) as [ob j] eqn:Hf.
    destruct (filter_mapM f xs j) as [bs k] eqn:Hrest.
    cbn [fst]. intros Hin.
    assert (Hcases : ob = Some b \/ In b bs).
    { destruct ob as [b0 |]; [destruct Hin as [-> | Hin] |]; auto. }
    destruct Hcases as [-> | Hbs].
    + exists a, i. split; [left; reflexivity | rewrite Hf; reflexivity].
    + specialize (IH j). rewrite Hrest in IH.
      destruct (IH Hbs) as (a' & j' & Ha' & Hf').
      exists a', j'. split; [right |]; assumption.
Qed.

(** [_generate_level] replaces the bricks and nothing else. *)
Lemma generate_level_frame (self : t) (level : Z) (i : nat) :
  fst (_generate_level self level i)
  = set_bricks self (bricks (fst (_generate_level self level i))).
Proof.
  unfold _generate_level, bind, ret.
  destruct (filter_mapM _ _ i) as [bs j]. reflexivity.
Qed.

(** One cell of the comprehension, by its omission draw [d]. *)
Lemma level_cell_eq (rows : Z) (cell : Z * Z) (d : nat) :
  level_cell rows cell d
  = (if cell_kept d then Some (cell_brick rows cell d) else None,
     next_cell_draw d).
Proof.
  unfold level_cell, bind, ret, next_cell_draw, cell_brick, cell_powerup,
    cell_kept, Brick.__init__.
  destruct cell as [y x].
  change (random d) with (IZR (entropy d mod 2 ^ 53) / IZR (2 ^ 53), S d).
  cbn [fst snd].
  destruct (Rgtb (IZR (entropy d mod 2 ^ 53) / IZR (2 ^ 53)) (1 / 10)).
  - unfold bind, ret.
    change (random (S d))
      with (IZR (entropy (S d) mod 2 ^ 53) / IZR (2 ^ 53), S (S d)).
    cbn [fst snd].
    destruct (Rltb (IZR (entropy (S d) mod 2 ^ 53) / IZR (2 ^ 53)) (1 / 10)).
    + change (randint 1 6 (S (S d)))
        with ((1 + entropy (S (S d)) mod (6 - 1 + 1))%Z, S (S (S d))).
      cbn [fst snd]. f_equal. lia.
    + f_equal. lia.
  - f_equal. lia.
Qed.

(** The comprehension of [_generate_level] over any list of cells. *)
Lemma filter_mapM_layout (rows : Z) (cells : list (Z * Z)) (d : nat) :
  fst (filter_mapM (level_cell rows) cells d)
  = map (fun cd => cell_brick rows (fst cd) (snd cd))
        (filter (fun cd => cell_kept (snd cd))
                (combine cells (cell_draws d (length cells)))).
Proof.
  revert d. induction cells as [| c cells IH]; intros d; [reflexivity |].
  cbn [filter_mapM length cell_draws combine filter snd fst].
  unfold bind, ret. rewrite level_cell_eq.
  specialize (IH (next_cell_draw d)).
  destruct (filter_mapM (level_cell rows) cells (next_cell_draw d))
    as [bs k].
  cbn [fst] in *.
  destruct (cell_kept d); cbn [map fst snd]; rewrite IH; reflexivity.
Qed.

Lemma length_cell_draws (d n : nat) : length (cell_draws d n) = n.
Proof.
  revert d. induction n as [| n IH]; intros d; [reflexivity |].
  cbn [cell_draws length]. rewrite IH. reflexivity.
Qed.

Lemma next_cell_draw_lt (d : nat) : (d < next_cell_draw d)%nat.
Proof.
  unfold next_cell_draw.
  destruct (cell_kept d); [destruct (Rltb _ _) |]; lia.
Qed.

Lemma cell_draws_ge (d n e : nat) : In e (cell_draws d n) -> (d <= e)%nat.
Proof.
  revert d. induction n as [| n IH]; intros d; [contradiction |].
  cbn [cell_draws]. intros [<- | Hin]; [lia |].
  apply IH in Hin. pose proof (next_cell_draw_lt d). lia.
Qed.

(** No two cells share an omission draw: the draws grow along the
    visit. *)
Lemma cell_draws_sorted (d n : nat) : StronglySorted lt (cell_draws d n).
Proof.
  revert d. induction n as [| n IH]; intros d; [constructor |].
  cbn [cell_draws]. constructor; [apply IH |].
  apply Forall_forall. intros e He. apply cell_draws_ge in He.
  pose proof (next_cell_draw_lt d). lia.
Qed.

(** [_generate_level] sets the bricks to the layout, and draws on. *)
Lemma generate_level_layout (self : t) (n : Z) (i : nat) :
  fst (_generate_level self n i) = set_bricks self (level_as_claimed n i).
Proof.
  unfold _generate_level, level_as_claimed, bind, ret.
  pose proof (filter_mapM_layout (Z.min (5 + n) 10)
                (list_prod (range (Z.min (5 + n) 10)) (range 10)) i)
    as Hlayout.
  destruct (filter_mapM _ _ i) as [bs k]. cbn [fst] in *.
  rewrite Hlayout. reflexivity.
Qed.

Lemma filter_mapM_draws (rows : Z) (cells : list (Z * Z)) (d : nat) :
  (d <= snd (filter_mapM (level_cell rows) cells d))%nat.
Proof.
  revert d. induction cells as [| c cells IH]; intros d.
  - cbn. lia.
  - cbn [filter_mapM]. unfold bind, ret. rewrite level_cell_eq.
    specialize (IH (next_cell_draw d)).
    destruct (filter_mapM (level_cell rows) cells (next_cell_draw d))
      as [bs k].
    cbn [snd] in *. pose proof (next_cell_draw_lt d). lia.
Qed.

(** The draws of [_generate_level] are not taken back. *)
Lemma generate_level_draws (self : t) (n : Z) (i : nat) :
  (i <= snd (_generate_level self n i))%nat.
Proof.
  unfold _generate_level, bind, ret.
  pose proof (filter_mapM_draws (Z.min (5 + n) 10)
                (list_prod (range (Z.min (5 + n) 10)) (range 10)) i)
    as Hdraws.
  destruct (filter_mapM _ _ i) as [bs k]. exact Hdraws.
Qed.

Lemma nth_error_combine {A B} (l : list A) (l' : list B) (k : nat) (a : A)
      (b : B) :
  nth_error (combine l l') k = Some (a, b)
  <-> nth_error l k = Some a /\ nth_error l' k = Some b.
Proof.
  revert l' k. induction l as [| x l IH]; intros l' k.
  - cbn. destruct k; split; [discriminate | intros [[=] _]
                             | discriminate | intros [[=] _]].
  - destruct l' as [| y l'].
    + cbn. destruct k; split; try discriminate; intros [_ [=]].
    + destruct k as [| k]; cbn.
      * split; [intros [= -> ->]; auto | intros [[= ->] [= ->]]; auto].
      * apply IH.
Qed.

(** [random()] is at most 0.1 for the first 900719925474100 of the 2^53
    raw outputs. *)
Lemma omission_threshold (d : nat) :
  fst (random d) <= 1 / 10
  <-> (entropy d mod 2 ^ 53 < 900719925474100)%Z.
Proof.
  unfold random. cbn [fst].
  set (m := (entropy d mod 2 ^ 53)%Z).
  change (2 ^ 53)%Z with 9007199254740992%Z.
  split.
  - intros Hle.
    assert (Hten : IZR (10 * m) <= IZR 9007199254740992).
    { rewrite mult_IZR. unfold Rdiv in Hle.
      apply Rmult_le_compat_r with (r := 9007199254740992) in Hle; [| lra].
      rewrite Rmult_assoc, Rinv_l in Hle by lra. lra. }
    apply le_IZR in Hten. lia.
  - intros Hlt.
    assert (Hten : (10 * m <= 9007199254740992)%Z) by lia.
    apply IZR_le in Hten. rewrite mult_IZR in Hten.
    apply Rmult_le_reg_r with (r := 9007199254740992); [lra |].
    unfold Rdiv. rewrite Rmult_assoc, Rinv_l by lra. lra.
Qed.

(** C7.  For every level index n, with rows = min(5 + n, 10):
    every brick of [_generate_level] sits on a cell (row, col) of the grid,
    0 <= row < rows and 0 <= col < 10, at x = col * 78 + 10 and
    y = row * 30 + 60, with health min(rows - row, 5), between 1 and 5;
    the cells visited are exactly those of rows rows and 10 columns, each
    once; each cell has an omission draw of [random()] of its own, the
    draws growing along the visit; the bricks are, in the order of the
    visit, those of the cells whose draw is above 0.1, so a cell has a brick
    exactly when its own draw is above 0.1; and that draw is at most 0.1
    for 900719925474100 of the 2^53 raw outputs of the generator, a
    fraction within 2^-53 of 0.1. *)
Theorem C7_generated_bricks (self : t) (n : Z) (i : nat) :
  let rows := Z.min (5 + n) 10 in
  let cells := list_prod (range rows) (range 10) in
  let draws := cell_draws i (length cells) in
  let generated := bricks (fst (_generate_level self n i)) in
  (forall b : Brick.t,
      In b generated ->
      exists row col : Z,
        (0 <= row < rows)%Z /\ (0 <= col < 10)%Z
        /\ Brick.x b = (col * 78 + 10)%Z
        /\ Brick.y b = (row * 30 + 60)%Z
        /\ Brick.health b = Z.min (rows - row) 5
        /\ Brick.max_health b = Brick.health b
        /\ (1 <= Brick.health b <= 5)%Z)
  /\ (forall (cell : Z * Z) (j : nat),
         fst (level_cell rows cell j) = None <-> fst (random j) <= 1 / 10)
  /\ (forall row col : Z,
         In (row, col) cells <-> (0 <= row < rows)%Z /\ (0 <= col < 10)%Z)
  /\ NoDup cells
  /\ length cells = (Z.to_nat rows * 10)%nat
  /\ length draws = length cells
  /\ StronglySorted lt draws
  /\ generated = level_as_claimed n i
  /\ (forall (k : nat) (row col : Z),
         nth_error cells k = Some (row, col) ->
         exists d : nat,
           nth_error draws k = Some d
           /\ ((exists b, In b generated
                          /\ Brick.x b = (col * 78 + 10)%Z
                          /\ Brick.y b = (row * 30 + 60)%Z)
               <-> fst (random d) > 1 / 10))
  /\ (forall d : nat,
         fst (random d) <= 1 / 10
         <-> (entropy d mod 2 ^ 53 < 900719925474100)%Z)
  /\ Rabs (900719925474100 / IZR (2 ^ 53) - 1 / 10) < 1 / IZR (2 ^ 53).
Proof.
  intros rows cells draws generated.
  assert (Hgen : generated = level_as_claimed n i)
    by (unfold generated; rewrite generate_level_layout; reflexivity).
  assert (Hcells : forall row col : Z,
             In (row, col) cells
             <-> (0 <= row < rows)%Z /\ (0 <= col < 10)%Z).
  { intros row col. unfold cells. rewrite in_prod_iff, !range_In.
    reflexivity. }
  assert (Hnodup : NoDup cells)
    by (apply NoDup_list_prod; apply range_NoDup).
  assert (Hlen : length draws = length cells) by apply length_cell_draws.
  split; [| split; [| split; [| split; [| split; [| split; [| split;
    [| split; [| split; [| split]]]]]]]]].
  - intros b Hin. rewrite Hgen in Hin. unfold level_as_claimed in Hin.
    fold rows in Hin. fold cells in Hin.
    apply in_map_iff in Hin. destruct Hin as ([[row col] d] & <- & Hin).
    apply filter_In in Hin. destruct Hin as [Hin _].
    apply in_combine_l in Hin. apply Hcells in Hin.
    exists row, col.
    cbn [fst snd cell_brick Brick.x Brick.y Brick.health Brick.max_health].
    repeat split; lia.
  - intros cell j. apply level_cell_omitted.
  - exact Hcells.
  - exact Hnodup.
  - unfold cells, range.
    rewrite length_prod, !length_map, !length_seq. reflexivity.
  - exact Hlen.
  - apply cell_draws_sorted.
  - exact Hgen.
  - intros k row col Hk.
    assert (Hsome : exists d, nth_error draws k = Some d).
    { destruct (nth_error draws k) as [d |] eqn:Hd; [eauto |].
      apply nth_error_None in Hd.
      assert (Hlt : (k < length cells)%nat)
        by (apply nth_error_Some; rewrite Hk; discriminate).
      lia. }
    destruct Hsome as [d Hd]. exists d. split; [exact Hd |].
    rewrite Hgen. unfold level_as_claimed. fold rows. fold cells.
    fold draws. split.
    + intros (b & Hin & Hx & Hy).
      apply in_map_iff in Hin. destruct Hin as ([[row' col'] d'] & <- & Hin).
      apply filter_In in Hin. destruct Hin as [Hin Hkept].
      cbn [fst snd cell_brick Brick.x Brick.y] in Hx, Hy, Hkept.
      assert (row' = row /\ col' = col) as [-> ->] by lia.
      apply In_nth_error in Hin. destruct Hin as [k' Hk'].
      apply nth_error_combine in Hk'. destruct Hk' as [Hcell' Hd'].
      assert (Hsame : k' = k).
      { apply (proj1 (NoDup_nth_error cells) Hnodup).
        - apply nth_error_Some. rewrite Hcell'. discriminate.
        - rewrite Hcell', Hk. reflexivity. }
      subst k'. rewrite Hd in Hd'. injection Hd' as <-.
      unfold cell_kept, Rgtb in Hkept. apply Rltb_spec in Hkept. lra.
    + intros Hdraw.
      exists (cell_brick rows (row, col) d). split.
      * apply in_map_iff. exists ((row, col), d). split; [reflexivity |].
        apply filter_In. split.
        -- apply nth_error_In with k. apply nth_error_combine.
           split; assumption.
        -- cbn [snd]. unfold cell_kept, Rgtb. apply Rltb_true. lra.
      * split; reflexivity.
  - apply omission_threshold.
  - change (2 ^ 53)%Z with 9007199254740992%Z.
    unfold Rabs. destruct (Rcase_abs _); lra.
Qed.

(** C9 (amended).  For a level index whose row count min(5 + n, 10) is not
    positive, [_generate_level] returns normally: the brick list is empty,
    nothing else changes and nothing is drawn. *)
Theorem C9_no_rows_gives_empty_level (self : t) (n : Z) (i : nat) :
  (Z.min (5 + n) 10 <= 0)%Z ->
  _generate_level self n i = (set_bricks self [], i).
Proof.
  intros Hrows. unfold _generate_level, bind, ret.
  rewrite (range_nonpositive _ Hrows). reflexivity.
Qed.
End Generator.

(** ** Lists addressed by position *)

Lemma remove_at_middle {A} (pre post : list A) (a : A) :
  remove_at (length pre) (pre ++ a :: post) = pre ++ post.
Proof.
  unfold remove_at.
  rewrite firstn_app, firstn_all, Nat.sub_diag, firstn_O, app_nil_r.
  replace (S (length pre)) with (length (pre ++ [a]))
    by (rewrite length_app; cbn; lia).
  replace (pre ++ a :: post) with ((pre ++ [a]) ++ post)
    by (rewrite <- app_assoc; reflexivity).
  rewrite skipn_app, skipn_all, Nat.sub_diag. reflexivity.
Qed.

Lemma store_at_middle {A} (pre post : list A) (a v : A) :
  store_at (length pre) v (pre ++ a :: post) = pre ++ v :: post.
Proof.
  unfold store_at.
  rewrite firstn_app, firstn_all, Nat.sub_diag, firstn_O, app_nil_r.
  replace (S (length pre)) with (length (pre ++ [a]))
    by (rewrite length_app; cbn; lia).
  replace (pre ++ a :: post) with ((pre ++ [a]) ++ post)
    by (rewrite <- app_assoc; reflexivity).
  rewrite skipn_app, skipn_all, Nat.sub_diag. reflexivity.
Qed.

Lemma firstn_In {A} (i : nat) (xs : list A) (a : A) :
  In a (firstn i xs) -> In a xs.
Proof.
  intros Ha. rewrite <- (firstn_skipn i xs). apply in_or_app. left. exact Ha.
Qed.

Lemma skipn_In {A} (i : nat) (xs : list A) (a : A) :
  In a (skipn i xs) -> In a xs.
Proof.
  intros Ha. rewrite <- (firstn_skipn i xs). apply in_or_app. right. exact Ha.
Qed.

Lemma Forall_remove_at {A} (P : A -> Prop) (i : nat) (xs : list A) :
  Forall P xs -> Forall P (remove_at i xs).
Proof.
  intros Hxs. unfold remove_at. apply Forall_app. split.
  - apply Forall_forall. intros a Ha.
    eapply Forall_forall; [exact Hxs |]. eapply firstn_In, Ha.
  - apply Forall_forall. intros a Ha.
    eapply Forall_forall; [exact Hxs |]. eapply skipn_In, Ha.
Qed.

Lemma Forall_store_at {A} (P : A -> Prop) (i : nat) (v : A) (xs : list A) :
  P v -> Forall P xs -> Forall P (store_at i v xs).
Proof.
  intros Hv Hxs. unfold store_at. apply Forall_app. split.
  - apply Forall_forall. intros a Ha.
    eapply Forall_forall; [exact Hxs |]. eapply firstn_In, Ha.
  - constructor; [exact Hv |]. apply Forall_forall. intros a Ha.
    eapply Forall_forall; [exact Hxs |]. eapply skipn_In, Ha.
Qed.

(** ** Particles *)

Section Particles.
Context `{RandomSource}.
Import ArkanoidGame.

(** [_create_particles] appends to the particles and changes nothing
    else. *)
Lemma create_particles_eq (self : t) (x y : R) (count : Z) (i : nat) :
  exists ps, fst (_create_particles self x y count i)
             = set_particles self (particles self ++ ps).
Proof.
  unfold _create_particles, bind, ret.
  destruct (mapM _ (range count) i) as [vs j].
  destruct (mapM _ vs j) as [ps k].
  exists ps. reflexivity.
Qed.
End Particles.

(** ** Ball against bricks *)

Section BrickCollisions.
Context `{RandomSource} `{pygame.Lib}.
Import ArkanoidGame.

Lemma hit_brick_destroyed (self : t) (pre post : list Brick.t) (b : Brick.t)
      (i : nat) :
  bricks self = pre ++ b :: post ->
  (Brick.health b - 1 <= 0)%Z ->
  exists ps,
    fst (hit_brick self (length pre) b i)
    = let s := set_particles
                 (set_score (set_bricks self (pre ++ post))
                            (score self + Brick.points b))
                 (particles self ++ ps) in
      match Brick.powerup b with
      | Some kind =>
          set_powerups s
            (powerups self ++
             [PowerUp.__init__ (IZR (brick_center_x b))
                               (IZR (brick_center_y b)) kind])
      | None => s
      end.
Proof.
  intros Hbricks Hdead. unfold hit_brick, Brick.hit.
  apply Z.leb_le in Hdead. rewrite Hdead.
  unfold bind, ret. rewrite Hbricks, remove_at_middle.
  match goal with
  | |- context [_create_particles ?s ?x ?y ?c i] =>
      destruct (create_particles_eq s x y c i) as (ps & Hps);
      destruct (_create_particles s x y c i) as [s' j]
  end.
  cbn [fst] in Hps. subst s'. exists ps.
  cbn [fst Brick.powerup]. destruct (Brick.powerup b); reflexivity.
Qed.

Lemma hit_brick_damaged (self : t) (pre post : list Brick.t) (b : Brick.t)
      (i : nat) :
  bricks self = pre ++ b :: post ->
  (0 < Brick.health b - 1)%Z ->
  hit_brick self (length pre) b i
  = (set_bricks self (pre ++ fst (Brick.hit b) :: post), i).
Proof.
  intros Hbricks Halive. unfold hit_brick, Brick.hit.
  assert (Hleb : (Brick.health b - 1 <=? 0)%Z = false)
    by (apply Z.leb_gt; exact Halive).
  rewrite Hleb. unfold ret. rewrite Hbricks, store_at_middle. reflexivity.
Qed.

(** No brick of the snapshot overlaps: nothing happens. *)
Lemma brick_collisions_miss (snapshot : list Brick.t) (k : nat)
      (rect : pygame.Rect) (self : t) (ball : Ball.t) (i : nat) :
  (forall b, In b snapshot ->
             pygame.colliderect (brick_rect b) rect = false) ->
  brick_collisions snapshot k rect self ball i = (self, ball, i).
Proof.
  revert k. induction snapshot as [| b rest IH]; intros k Hmiss.
  - reflexivity.
  - cbn [brick_collisions]. rewrite (Hmiss b (or_introl eq_refl)).
    apply IH. intros b' Hb'. apply Hmiss. right. exact Hb'.
Qed.

(** The scan stops at the first brick that overlaps. *)
Lemma brick_collisions_first (mid post : list Brick.t) (b : Brick.t)
      (k : nat) (rect : pygame.Rect) (self : t) (ball : Ball.t) (i : nat) :
  (forall b', In b' mid ->
              pygame.colliderect (brick_rect b') rect = false) ->
  pygame.colliderect (brick_rect b) rect = true ->
  brick_collisions (mid ++ b :: post) k rect self ball i
  = (let (s, j) := hit_brick self (k + length mid) b i in
     (s, brick_bounce ball b, j)).
Proof.
  revert k. induction mid as [| m mid IH]; intros k Hmiss Hhit.
  - cbn [app brick_collisions length]. rewrite Hhit, Nat.add_0_r.
    unfold bind, ret. destruct (hit_brick self k b i). reflexivity.
  - cbn [app brick_collisions length].
    rewrite (Hmiss m (or_introl eq_refl)).
    rewrite IH; [| intros b' Hb'; apply Hmiss; right; exact Hb' | exact Hhit].
    replace (S k + length mid)%nat with (k + S (length mid))%nat by lia.
    reflexivity.
Qed.

(** The brick scan, for any game, ball and rectangle: nothing happens when
    no brick overlaps; otherwise the first overlapping brick [b] of
    [pre ++ b :: post] is hit and bounces the ball, and nothing else of the
    game changes but the particles. *)
Lemma brick_scan_spec
      (self : t) (ball : Ball.t) (rect : pygame.Rect) (i : nat) :
  let self' := fst (fst (brick_collisions (bricks self) 0 rect self ball i)) in
  let ball' := snd (fst (brick_collisions (bricks self) 0 rect self ball i)) in
  ((forall b, In b (bricks self) ->
              pygame.colliderect (brick_rect b) rect = false) ->
   self' = self /\ ball' = ball)
  /\ (forall (pre post : list Brick.t) (b : Brick.t),
         bricks self = pre ++ b :: post ->
         (forall b', In b' pre ->
                     pygame.colliderect (brick_rect b') rect = false) ->
         pygame.colliderect (brick_rect b) rect = true ->
         (1 <= Brick.health b)%Z ->
         let dx := Vector2D.x (Ball.pos ball) - IZR (brick_center_x b) in
         let dy := Vector2D.y (Ball.pos ball) - IZR (brick_center_y b) in
         (Brick.health b - 1 = 0 ->
          bricks self' = pre ++ post
          /\ score self' = (score self + Brick.points b)%Z
          /\ powerups self'
             = powerups self ++
               match Brick.powerup b with
               | Some kind =>
                   [PowerUp.__init__ (IZR (brick_center_x b))
                                     (IZR (brick_center_y b)) kind]
               | None => []
               end)%Z
         /\ (Brick.health b - 1 <> 0 ->
             bricks self'
             = pre ++ Brick.mk (Brick.x b) (Brick.y b) (Brick.width b)
                               (Brick.height b) (Brick.health b - 1)
                               (Brick.max_health b) (Brick.points b)
                               (Brick.powerup b) :: post
             /\ score self' = score self
             /\ powerups self' = powerups self)%Z
         /\ (Rabs dx > Rabs dy ->
             Ball.vel ball' = Vector2D.mk (- Vector2D.x (Ball.vel ball))
                                          (Vector2D.y (Ball.vel ball)))
         /\ (Rabs dx <= Rabs dy ->
             Ball.vel ball' = Vector2D.mk (Vector2D.x (Ball.vel ball))
                                          (- Vector2D.y (Ball.vel ball)))
         /\ Ball.pos ball' = Ball.pos ball
         /\ lives self' = lives self /\ level self' = level self
         /\ state self' = state self /\ paddle self' = paddle self
         /\ balls self' = balls self).
Proof.
  intros self' ball'. split.
  - intros Hmiss. subst self' ball'.
    rewrite brick_collisions_miss by exact Hmiss. split; reflexivity.
  - intros pre post b Hbricks Hmiss Hhit Hhealth dx dy.
    assert (Hrun : brick_collisions (bricks self) 0 rect self ball i
                   = (let (s, j) := hit_brick self (length pre) b i in
                      (s, brick_bounce ball b, j))).
    { rewrite Hbricks, brick_collisions_first by assumption. reflexivity. }
    assert (Hball : ball' = brick_bounce ball b).
    { subst ball'. rewrite Hrun. destruct (hit_brick _ _ _ _). reflexivity. }
    assert (Hself : self' = fst (hit_brick self (length pre) b i)).
    { subst self'. rewrite Hrun. destruct (hit_brick _ _ _ _). reflexivity. }
    assert (Hrest : lives self' = lives self /\ level self' = level self
                    /\ state self' = state self /\ paddle self' = paddle self
                    /\ balls self' = balls self).
    { rewrite Hself.
      destruct (Z.le_gt_cases (Brick.health b - 1) 0) as [Hdead | Halive].
      - destruct (hit_brick_destroyed self pre post b i Hbricks Hdead)
          as (ps & ->).
        destruct (Brick.powerup b); repeat split; reflexivity.
      - rewrite (hit_brick_damaged self pre post b i Hbricks)
          by lia.
        repeat split; reflexivity. }
    split; [| split; [| split; [| split; [| split]]]].
    + intros Hzero. rewrite Hself.
      destruct (hit_brick_destroyed self pre post b i Hbricks) as (ps & ->);
        [lia |].
      destruct (Brick.powerup b); cbn; rewrite ?app_nil_r; repeat split.
    + intros Hnonzero. rewrite Hself.
      rewrite (hit_brick_damaged self pre post b i Hbricks) by lia.
      repeat split.
    + intros Hgt. rewrite Hball. unfold brick_bounce. fold dx dy.
      unfold Rgtb. rewrite Rltb_true by lra. reflexivity.
    + intros Hle. rewrite Hball. unfold brick_bounce. fold dx dy.
      unfold Rgtb. rewrite Rltb_false by lra. reflexivity.
    + rewrite Hball. unfold brick_bounce.
      destruct (Rgtb _ _); reflexivity.
    + exact Hrest.
Qed.
(** The paddle phase changes nothing of the game but the particles. *)
Lemma paddle_collision_eq (self : t) (ball : Ball.t) (rect : pygame.Rect)
      (i : nat) :
  exists ps, fst (fst (paddle_collision self ball rect i))
             = set_particles self (particles self ++ ps).
Proof.
  unfold paddle_collision.
  destruct (pygame.colliderect _ rect && Rgtb _ 0).
  - unfold bind, ret.
    match goal with
    | |- context [_create_particles ?s ?x ?y ?c i] =>
        destruct (create_particles_eq s x y c i) as (ps & Hps);
        destruct (_create_particles s x y c i) as [s' j]
    end.
    cbn [fst] in *. exists ps. exact Hps.
  - exists []. unfold ret. cbn [fst]. rewrite app_nil_r.
    destruct self; reflexivity.
Qed.

(** C2.  [_handle_collision], after its paddle phase (which leaves bricks,
    score and power-ups as they are and hands on the ball [ball1]), scans
    the bricks against the ball's bounding box [rect].  When no brick
    overlaps, the brick phase does nothing.  Otherwise let [b] be the first
    brick, in list order, that overlaps, the bricks being
    [pre ++ b :: post].  The ball bounces off [b]: velocity.x is negated
    when |dx| > |dy|, else velocity.y, with (dx, dy) the ball's centre minus
    the brick's.  When the hit takes the health of [b] to 0, [b] leaves the
    list, its points are added to the score and its power-up, if it has
    one, is appended at its centre; otherwise [b] stays in place with one
    health less, and score and power-ups are as before.  The bricks of
    [pre] and [post] are untouched, in the same order, in both cases, and so
    are lives, level, state, paddle and balls. *)
Theorem C2_first_overlapping_brick_only
        (self : t) (ball : Ball.t) (dt : R) (i : nat) :
  let rect := ball_rect ball in
  let self1 := fst (fst (paddle_collision self ball rect i)) in
  let ball1 := snd (fst (paddle_collision self ball rect i)) in
  let self' := fst (fst (_handle_collision self ball dt i)) in
  let ball' := snd (fst (_handle_collision self ball dt i)) in
  (bricks self1 = bricks self /\ score self1 = score self
   /\ powerups self1 = powerups self)
  /\ ((forall b, In b (bricks self) ->
                 pygame.colliderect (brick_rect b) rect = false) ->
      self' = self1 /\ ball' = ball1)
  /\ (forall (pre post : list Brick.t) (b : Brick.t),
         bricks self = pre ++ b :: post ->
         (forall b', In b' pre ->
                     pygame.colliderect (brick_rect b') rect = false) ->
         pygame.colliderect (brick_rect b) rect = true ->
         (1 <= Brick.health b)%Z ->
         let dx := Vector2D.x (Ball.pos ball1) - IZR (brick_center_x b) in
         let dy := Vector2D.y (Ball.pos ball1) - IZR (brick_center_y b) in
         (Brick.health b - 1 = 0 ->
          bricks self' = pre ++ post
          /\ score self' = (score self + Brick.points b)%Z
          /\ powerups self'
             = powerups self ++
               match Brick.powerup b with
               | Some kind =>
                   [PowerUp.__init__ (IZR (brick_center_x b))
                                     (IZR (brick_center_y b)) kind]
               | None => []
               end)%Z
         /\ (Brick.health b - 1 <> 0 ->
             bricks self'
             = pre ++ Brick.mk (Brick.x b) (Brick.y b) (Brick.width b)
                               (Brick.height b) (Brick.health b - 1)
                               (Brick.max_health b) (Brick.points b)
                               (Brick.powerup b) :: post
             /\ score self' = score self
             /\ powerups self' = powerups self)%Z
         /\ (Rabs dx > Rabs dy ->
             Ball.vel ball' = Vector2D.mk (- Vector2D.x (Ball.vel ball1))
                                          (Vector2D.y (Ball.vel ball1)))
         /\ (Rabs dx <= Rabs dy ->
             Ball.vel ball' = Vector2D.mk (Vector2D.x (Ball.vel ball1))
                                          (- Vector2D.y (Ball.vel ball1)))
         /\ Ball.pos ball' = Ball.pos ball1
         /\ lives self' = lives self /\ level self' = level self
         /\ state self' = state self /\ paddle self' = paddle self
         /\ balls self' = balls self).
Proof.
  intros rect self1 ball1 self' ball'.
  destruct (paddle_collision_eq self ball rect i) as (ps & Hps).
  fold self1 in Hps.
  assert (Hrun : fst (_handle_collision self ball dt i)
                 = fst (brick_collisions (bricks self1) 0 rect self1 ball1
                          (snd (paddle_collision self ball rect i)))).
  { unfold _handle_collision, bind. fold rect. subst self1 ball1.
    destruct (paddle_collision self ball rect i) as [[s b] j]. reflexivity. }
  subst self' ball'. rewrite Hrun.
  pose proof (brick_scan_spec self1 ball1 rect
                (snd (paddle_collision self ball rect i))) as Hscan.
  cbn zeta in Hscan. destruct Hscan as [Hmiss Hhit].
  assert (Hb1 : bricks self1 = bricks self) by (rewrite Hps; reflexivity).
  split; [| split].
  - rewrite Hps. repeat split; reflexivity.
  - intros Hnone. apply Hmiss. rewrite Hb1. exact Hnone.
  - intros pre post b Hbricks Hpre Hb Hhealth dx dy.
    rewrite <- Hb1 in Hbricks.
    specialize (Hhit pre post b Hbricks Hpre Hb Hhealth).
    cbn zeta in Hhit. fold dx dy in Hhit.
    destruct Hhit as (Hzero & Hnonzero & Hgt & Hle & Hpos & Hl & Hlv & Hst
                      & Hpd & Hbl).
    assert (Hsc : score self1 = score self) by (rewrite Hps; reflexivity).
    assert (Hpw : powerups self1 = powerups self) by (rewrite Hps; reflexivity).
    rewrite Hsc, Hpw in *.
    repeat split; try tauto; try (rewrite Hps in *; cbn in *; congruence).
Qed.
End BrickCollisions.

(** ** The clear check *)

Section ClearCheck.
Context `{RandomSource}.
Import ArkanoidGame.

(** C3 (amended).  The clear check of [_handle_playing].  When no brick is
    left the level is incremented first, in every case, and the
    incremented level is the one compared with 5: above 5 the state
    becomes Victory (bricks and balls stay as they are); otherwise the
    bricks of the incremented level are generated and the balls are
    replaced by a single new ball at the launch position.  With a brick
    left the check does nothing. *)
Theorem C3_clear_check (self : t) (i : nat) :
  let cleared := set_level self (level self + 1) in
  (bricks self = [] -> (level self + 1 > 5)%Z ->
   check_victory self i = (set_state cleared VICTORY, i))
  /\ (bricks self = [] -> (level self + 1 <= 5)%Z ->
      let gen := _generate_level cleared (level self + 1) i in
      fst gen = set_bricks cleared (bricks (fst gen))
      /\ exists vx : R,
          (vx = -200 \/ vx = 200)
          /\ check_victory self i
             = (set_balls (fst gen)
                  [Ball.mk (Vector2D.mk (launch_x self) (launch_y self))
                           (Vector2D.mk vx (-300)) 8 [] 1],
                S (snd gen)))
  /\ (bricks self <> [] -> check_victory self i = (self, i)).
Proof.
  intros cleared. split; [| split].
  - intros Hb Hlevel. unfold check_victory. rewrite Hb.
    cbn [level set_level].
    assert (Hgt : (level self + 1 >? 5)%Z = true) by (apply Z.gtb_lt; lia).
    rewrite Hgt. reflexivity.
  - intros Hb Hlevel gen. split; [apply generate_level_frame |].
    destruct (Ball_init_eq (launch_x self) (launch_y self) (snd gen))
      as (vx & Hvx & Hinit).
    exists vx. split; [exact Hvx |].
    unfold check_victory. rewrite Hb. cbn [level set_level].
    assert (Hgt : (level self + 1 >? 5)%Z = false)
      by (rewrite Z.gtb_ltb; apply Z.ltb_ge; lia).
    rewrite Hgt. unfold bind, ret. fold cleared. fold gen.
    pose proof (generate_level_frame cleared (level self + 1) i) as Hframe.
    fold gen in Hframe.
    destruct gen as [g j]. cbn [fst snd] in *.
    assert (Hx : launch_x g = launch_x self) by (rewrite Hframe; reflexivity).
    assert (Hy : launch_y g = launch_y self) by (rewrite Hframe; reflexivity).
    rewrite Hx, Hy, Hinit. reflexivity.
  - intros Hb. unfold check_victory.
    destruct (bricks self); [contradiction | reflexivity].
Qed.
End ClearCheck.

(** ** Falling power-ups *)

Section PowerUps.
Context `{RandomSource} `{pygame.Lib}.
Import ArkanoidGame.

Lemma set_powerups_id (self : t) : set_powerups self (powerups self) = self.
Proof. destruct self; reflexivity. Qed.

Lemma set_powerups_twice (self : t) (l l' : list PowerUp.t) :
  set_powerups (set_powerups self l) l' = set_powerups self l'.
Proof. reflexivity. Qed.

Lemma powerups_set_powerups (self : t) (l : list PowerUp.t) :
  powerups (set_powerups self l) = l.
Proof. reflexivity. Qed.

Lemma height_set_powerups (self : t) (l : list PowerUp.t) :
  height (set_powerups self l) = height self.
Proof. reflexivity. Qed.

(** [_create_particles] does not look at the power-ups. *)
Lemma create_particles_powerups (self : t) (l : list PowerUp.t) (x y : R)
      (count : Z) (i : nat) :
  _create_particles (set_powerups self l) x y count i
  = (set_powerups (fst (_create_particles self x y count i)) l,
     snd (_create_particles self x y count i)).
Proof.
  unfold _create_particles, bind, ret.
  destruct (mapM _ (range count) i) as [vs j].
  destruct (mapM _ vs j) as [ps k]. reflexivity.
Qed.

(** Neither does [_apply_powerup]. *)
Lemma apply_powerup_powerups (self : t) (l : list PowerUp.t)
      (kind : PowerUpType) (i : nat) :
  _apply_powerup (set_powerups self l) kind i
  = (set_powerups (fst (_apply_powerup self kind i)) l,
     snd (_apply_powerup self kind i)).
Proof.
  unfold _apply_powerup, effects, bind, ret.
  destruct kind; try reflexivity.
  cbn [balls set_powerups]. destruct (balls self) as [| first rest].
  - reflexivity.
  - unfold bind, ret. destruct (mapM _ (range 2) i) as [new j]. reflexivity.
Qed.

(** What [_apply_powerup] leaves alone, and the 50 points. *)
Lemma apply_powerup_frame (self : t) (kind : PowerUpType) (i : nat) :
  let self' := fst (_apply_powerup self kind i) in
  score self' = (score self + 50)%Z
  /\ height self' = height self
  /\ powerups self' = powerups self
  /\ bricks self' = bricks self
  /\ state self' = state self.
Proof.
  unfold _apply_powerup, effects, bind, ret.
  destruct kind; try (repeat split; reflexivity).
  destruct (balls self) as [| first rest].
  - repeat split; reflexivity.
  - unfold bind, ret. destruct (mapM _ (range 2) i) as [new j].
    repeat split; reflexivity.
Qed.

Lemma create_particles_frame (self : t) (x y : R) (count : Z) (i : nat) :
  let self' := fst (_create_particles self x y count i) in
  score self' = score self
  /\ height self' = height self
  /\ powerups self' = powerups self
  /\ bricks self' = bricks self
  /\ state self' = state self.
Proof.
  destruct (create_particles_eq self x y count i) as (ps & Hps).
  cbn zeta. rewrite Hps. repeat split; reflexivity.
Qed.

Section Loop.
Variables (dt : R) (paddle_rect : pygame.Rect) (h : Z).

(** A power-up that leaves the field can be dropped from the list before
    the loop: the loop ends in the same game, at the same draw. *)
Lemma powerups_loop_skips_leaving (snapshot pre : list PowerUp.t)
      (self : t) (i : nat) :
  height self = h ->
  powerups_loop dt paddle_rect snapshot (length pre)
                (set_powerups self (pre ++ snapshot)) i
  = powerups_loop dt paddle_rect
      (filter (fun p => negb (leaves_field dt h p)) snapshot) (length pre)
      (set_powerups self
         (pre ++ filter (fun p => negb (leaves_field dt h p)) snapshot))
      i.
Proof.
  revert pre self i.
  induction snapshot as [| p rest IH]; intros pre self i Hh.
  - reflexivity.
  - cbn [filter].
    assert (Hl : leaves_field dt h p = snd (PowerUp.update p dt h))
      by reflexivity.
    destruct (PowerUp.update p dt h) as [p' out] eqn:Hupd.
    cbn [snd] in Hl. rewrite Hl. clear Hl.
    destruct out; cbn [negb].
    + cbn [powerups_loop]. rewrite height_set_powerups, Hh, Hupd.
      rewrite powerups_set_powerups, remove_at_middle, set_powerups_twice.
      exact (IH pre self i Hh).
    + cbn [powerups_loop]. rewrite !height_set_powerups, Hh, Hupd.
      rewrite !powerups_set_powerups, !store_at_middle, !set_powerups_twice.
      destruct (pygame.colliderect paddle_rect (powerup_rect p')).
      * unfold bind.
        rewrite !apply_powerup_powerups.
        destruct (_apply_powerup self (PowerUp.type p') i) as [s1 j] eqn:Happ.
        cbn [fst snd].
        rewrite !powerups_set_powerups, !remove_at_middle,
          !set_powerups_twice.
        rewrite !create_particles_powerups.
        destruct (_create_particles s1 _ _ 15 j) as [s2 k] eqn:Hcp.
        cbn [fst snd].
        apply IH.
        pose proof (create_particles_frame s1 (Vector2D.x (PowerUp.pos p'))
                      (Vector2D.y (PowerUp.pos p')) 15 j) as Hf2.
        pose proof (apply_powerup_frame self (PowerUp.type p') i) as Hf1.
        cbn zeta in Hf1, Hf2. rewrite Hcp in Hf2. rewrite Happ in Hf1.
        cbn [fst] in Hf1, Hf2.
        destruct Hf1 as (_ & Hh1 & _). destruct Hf2 as (_ & Hh2 & _).
        congruence.
      * replace (S (length pre)) with (length (pre ++ [p']))
          by (rewrite length_app; cbn; lia).
        replace (pre ++ p' :: rest) with ((pre ++ [p']) ++ rest)
          by (rewrite <- app_assoc; reflexivity).
        replace (pre ++ p' :: filter (fun q => negb (leaves_field dt h q)) rest)
          with ((pre ++ [p'])
                ++ filter (fun q => negb (leaves_field dt h q)) rest)
          by (rewrite <- app_assoc; reflexivity).
        apply IH. exact Hh.
Qed.

(** 50 points for each power-up that stays in the field and touches the
    paddle, and for no other. *)
Lemma powerups_loop_score (snapshot : list PowerUp.t) (k : nat) (self : t)
      (i : nat) :
  height self = h ->
  score (fst (powerups_loop dt paddle_rect snapshot k self i))
  = (score self
     + 50 * Z.of_nat
              (length
                 (filter (fun p => negb (leaves_field dt h p)
                                   && touches_paddle paddle_rect dt h p)
                         snapshot)))%Z.
Proof.
  revert k self i.
  induction snapshot as [| p rest IH]; intros k self i Hh.
  - cbn. lia.
  - cbn [filter powerups_loop].
    assert (Hl : leaves_field dt h p = snd (PowerUp.update p dt h))
      by reflexivity.
    assert (Ht : touches_paddle paddle_rect dt h p
                 = pygame.colliderect paddle_rect
                     (powerup_rect (fst (PowerUp.update p dt h))))
      by reflexivity.
    rewrite Hh.
    destruct (PowerUp.update p dt h) as [p' out] eqn:Hupd.
    cbn [fst snd] in Hl, Ht. rewrite Hl, Ht. clear Hl Ht.
    destruct out; cbn [negb andb].
    + rewrite IH by exact Hh. reflexivity.
    + destruct (pygame.colliderect paddle_rect (powerup_rect p')).
      * unfold bind.
        rewrite apply_powerup_powerups.
        pose proof (apply_powerup_frame self (PowerUp.type p') i) as Hf1.
        destruct (_apply_powerup self (PowerUp.type p') i) as [s1 j].
        cbn zeta in Hf1. cbn [fst snd] in *.
        rewrite powerups_set_powerups, set_powerups_twice.
        rewrite create_particles_powerups.
        pose proof (create_particles_frame s1 (Vector2D.x (PowerUp.pos p'))
                      (Vector2D.y (PowerUp.pos p')) 15 j) as Hf2.
        destruct (_create_particles s1 _ _ 15 j) as [s2 m].
        cbn zeta in Hf2. cbn [fst snd] in *.
        destruct Hf1 as (Hs1 & Hh1 & _). destruct Hf2 as (Hs2 & Hh2 & _).
        rewrite IH by (rewrite height_set_powerups; congruence).
        cbn [score set_powerups length]. rewrite Hs2, Hs1. lia.
      * rewrite IH by exact Hh. reflexivity.
Qed.

(** The power-ups left in the list are those that stay in the field and
    do not touch the paddle, where they have fallen, in their order. *)
Lemma powerups_loop_survivors (snapshot pre : list PowerUp.t) (self : t)
      (i : nat) :
  height self = h ->
  powerups (fst (powerups_loop dt paddle_rect snapshot (length pre)
                               (set_powerups self (pre ++ snapshot)) i))
  = pre ++ map (fallen dt h)
               (filter (fun p => negb (leaves_field dt h p)
                                 && negb (touches_paddle paddle_rect dt h p))
                       snapshot).
Proof.
  revert pre self i.
  induction snapshot as [| p rest IH]; intros pre self i Hh.
  - cbn. reflexivity.
  - cbn [filter powerups_loop].
    assert (Hl : leaves_field dt h p = snd (PowerUp.update p dt h))
      by reflexivity.
    assert (Hm : fallen dt h p = fst (PowerUp.update p dt h)) by reflexivity.
    assert (Ht : touches_paddle paddle_rect dt h p
                 = pygame.colliderect paddle_rect
                     (powerup_rect (fst (PowerUp.update p dt h))))
      by reflexivity.
    rewrite height_set_powerups, Hh.
    destruct (PowerUp.update p dt h) as [p' out] eqn:Hupd.
    cbn [fst snd] in Hl, Ht, Hm. rewrite Hl, Ht. clear Hl Ht.
    destruct out; cbn [negb andb].
    + rewrite powerups_set_powerups, remove_at_middle, set_powerups_twice.
      apply IH. exact Hh.
    + rewrite powerups_set_powerups, store_at_middle, set_powerups_twice.
      destruct (pygame.colliderect paddle_rect (powerup_rect p'));
        cbn [negb].
      * unfold bind.
        rewrite apply_powerup_powerups.
        pose proof (apply_powerup_frame self (PowerUp.type p') i) as Hf1.
        destruct (_apply_powerup self (PowerUp.type p') i) as [s1 j].
        cbn zeta in Hf1. cbn [fst snd] in *.
        rewrite powerups_set_powerups, remove_at_middle,
          set_powerups_twice.
        rewrite create_particles_powerups.
        pose proof (create_particles_frame s1 (Vector2D.x (PowerUp.pos p'))
                      (Vector2D.y (PowerUp.pos p')) 15 j) as Hf2.
        destruct (_create_particles s1 _ _ 15 j) as [s2 m].
        cbn zeta in Hf2. cbn [fst snd] in *.
        destruct Hf1 as (_ & Hh1 & _). destruct Hf2 as (_ & Hh2 & _).
        apply IH. congruence.
      * cbn [map]. rewrite Hm.
        replace (S (length pre)) with (length (pre ++ [p']))
          by (rewrite length_app; cbn; lia).
        replace (pre ++ p' :: rest) with ((pre ++ [p']) ++ rest)
          by (rewrite <- app_assoc; reflexivity).
        rewrite IH by exact Hh. rewrite <- app_assoc. reflexivity.
Qed.
End Loop.

(** C10.  In [_handle_powerups] a power-up whose position after its fall
    step is below the field is removed before the paddle is looked at:
    the handler ends in the same game, at the same draw, as when the
    power-ups that leave the field had been taken off the list
    beforehand; the score grows by 50 for each power-up that stays in the
    field and overlaps the paddle, and by nothing else; the power-ups
    left are those that stay in the field and do not overlap the paddle;
    and when every power-up leaves the field the whole effect of the
    handler is to empty the list, whatever overlaps the paddle. *)
Theorem C10_bottom_exit_before_collection (self : t) (dt : R) (i : nat) :
  let leaves := leaves_field dt (height self) in
  let moved := fallen dt (height self) in
  let touches := touches_paddle (paddle_rect (paddle self)) dt (height self) in
  _handle_powerups self dt i
  = _handle_powerups
      (set_powerups self (filter (fun p => negb (leaves p)) (powerups self)))
      dt i
  /\ score (fst (_handle_powerups self dt i))
     = (score self
        + 50 * Z.of_nat
                 (length (filter (fun p => negb (leaves p) && touches p)
                                 (powerups self))))%Z
  /\ powerups (fst (_handle_powerups self dt i))
     = map moved (filter (fun p => negb (leaves p) && negb (touches p))
                         (powerups self))
  /\ ((forall p, In p (powerups self) -> leaves p = true) ->
      _handle_powerups self dt i = (set_powerups self [], i)).
Proof.
  intros leaves moved touches.
  assert (Hskip : _handle_powerups self dt i
                  = _handle_powerups
                      (set_powerups self
                         (filter (fun p => negb (leaves p)) (powerups self)))
                      dt i).
  { unfold _handle_powerups.
    rewrite powerups_set_powerups.
    pose proof (powerups_loop_skips_leaving dt (paddle_rect (paddle self))
                  (height self) (powerups self) [] self i eq_refl) as Hl.
    cbn [app length] in Hl. rewrite set_powerups_id in Hl. exact Hl. }
  split; [exact Hskip | split; [| split]].
  - unfold _handle_powerups.
    exact (powerups_loop_score dt (paddle_rect (paddle self)) (height self)
             (powerups self) 0 self i eq_refl).
  - unfold _handle_powerups.
    pose proof (powerups_loop_survivors dt (paddle_rect (paddle self))
                  (height self) (powerups self) [] self i eq_refl) as Hl.
    cbn [app length] in Hl. rewrite set_powerups_id in Hl. exact Hl.
  - intros Hall. rewrite Hskip.
    assert (Hnil : forall l, (forall p, In p l -> leaves p = true) ->
                             filter (fun p => negb (leaves p)) l = []).
    { induction l as [| p l IHl]; intros Hl; [reflexivity |].
      cbn [filter]. rewrite (Hl p (or_introl eq_refl)). cbn [negb].
      apply IHl. intros q Hq. apply Hl. right. exact Hq. }
    rewrite (Hnil _ Hall). reflexivity.
Qed.
End PowerUps.

(** ** Brick health over a session *)

Section BrickHealth.
Context `{RandomSource} `{pygame.Lib}.
Import ArkanoidGame.

Lemma generate_level_sound (self : t) (level : Z) (i : nat) :
  bricks_sound (fst (_generate_level self level i)).
Proof.
  unfold bricks_sound. apply Forall_forall. intros b Hin.
  unfold _generate_level, bind, ret in Hin.
  destruct (filter_mapM _ _ i) as [bs k] eqn:Hgen.
  cbn [fst bricks set_bricks] in Hin.
  assert (Hin' : In b (fst (filter_mapM
                              (level_cell (Z.min (5 + level) 10))
                              (list_prod (range (Z.min (5 + level) 10))
                                         (range 10)) i)))
    by (rewrite Hgen; exact Hin).
  apply filter_mapM_In in Hin'.
  destruct Hin' as ([row col] & j & Hcell & Hb).
  apply in_prod_iff in Hcell. destruct Hcell as [Hrow _].
  apply range_In in Hrow.
  apply level_cell_brick in Hb. destruct Hb as (p & ->).
  unfold brick_sound. cbn [Brick.health Brick.max_health]. lia.
Qed.

Lemma init_sound (width height : Z) (i : nat) :
  bricks_sound (fst (__init__ width height i)).
Proof.
  unfold __init__, bind. destruct (Ball.__init__ _ _ i) as [b j].
  apply generate_level_sound.
Qed.

Lemma hit_brick_sound (self : t) (k : nat) (b : Brick.t) (i : nat) :
  brick_sound b -> bricks_sound self ->
  bricks_sound (fst (hit_brick self k b i)).
Proof.
  unfold bricks_sound, brick_sound. intros Hb Hself.
  unfold hit_brick, Brick.hit.
  destruct (Brick.health b - 1 <=? 0)%Z eqn:Hdead.
  - unfold bind, ret.
    match goal with
    | |- context [_create_particles ?s ?x ?y ?c i] =>
        destruct (create_particles_eq s x y c i) as (ps & Hps);
        destruct (_create_particles s x y c i) as [s' j]
    end.
    cbn [fst] in *. subst s'. cbn [Brick.powerup].
    destruct (Brick.powerup b); cbn [bricks set_powerups set_particles
                                     set_score set_bricks];
      apply Forall_remove_at, Hself.
  - unfold ret. cbn [fst bricks set_bricks].
    apply Forall_store_at; [| exact Hself].
    apply Z.leb_gt in Hdead. cbn [Brick.health Brick.max_health]. lia.
Qed.

Lemma brick_collisions_sound (snapshot : list Brick.t) (k : nat)
      (rect : pygame.Rect) (self : t) (ball : Ball.t) (i : nat) :
  Forall brick_sound snapshot -> bricks_sound self ->
  bricks_sound (fst (fst (brick_collisions snapshot k rect self ball i))).
Proof.
  revert k. induction snapshot as [| b rest IH]; intros k Hsnap Hself.
  - exact Hself.
  - cbn [brick_collisions]. inversion Hsnap as [| b' rest' Hb Hrest]; subst.
    destruct (pygame.colliderect (brick_rect b) rect).
    + unfold bind, ret.
      pose proof (hit_brick_sound self k b i Hb Hself) as Hhit.
      destruct (hit_brick self k b i) as [s j]. exact Hhit.
    + apply IH; assumption.
Qed.

Lemma paddle_collision_bricks (self : t) (ball : Ball.t) (rect : pygame.Rect)
      (i : nat) :
  bricks (fst (fst (paddle_collision self ball rect i))) = bricks self.
Proof.
  unfold paddle_collision.
  destruct (pygame.colliderect _ rect && Rgtb _ 0).
  - unfold bind, ret.
    match goal with
    | |- context [_create_particles ?s ?x ?y ?c i] =>
        destruct (create_particles_eq s x y c i) as (ps & Hps);
        destruct (_create_particles s x y c i) as [s' j]
    end.
    cbn [fst] in *. subst s'. reflexivity.
  - reflexivity.
Qed.

Lemma handle_collision_sound (self : t) (ball : Ball.t) (dt : R) (i : nat) :
  bricks_sound self ->
  bricks_sound (fst (fst (_handle_collision self ball dt i))).
Proof.
  intros Hself. unfold _handle_collision, bind.
  pose proof (paddle_collision_bricks self ball (ball_rect ball) i) as Hb.
  destruct (paddle_collision self ball (ball_rect ball) i) as [[s b] j].
  cbn [fst snd] in *.
  apply brick_collisions_sound; [| unfold bricks_sound]; rewrite Hb;
    exact Hself.
Qed.

Lemma last_ball_lost_bricks (self : t) (i : nat) :
  bricks (fst (last_ball_lost self i)) = bricks self.
Proof.
  unfold last_ball_lost. cbn [lives set_lives].
  destruct (lives self - 1 >? 0)%Z.
  - unfold bind, ret. destruct (Ball.__init__ _ _ i). reflexivity.
  - reflexivity.
Qed.

Lemma balls_loop_sound (dt : R) (snapshot : list Ball.t) (k : nat) (self : t)
      (i : nat) :
  bricks_sound self ->
  bricks_sound (fst (balls_loop dt snapshot k self i)).
Proof.
  revert k self i.
  induction snapshot as [| ball rest IH]; intros k self i Hself.
  - exact Hself.
  - cbn [balls_loop].
    destruct (Ball.update ball dt (width self) (height self)) as [ball' lost].
    destruct lost.
    + unfold bind.
      destruct (balls (set_balls self (remove_at k (balls self)))).
      * pose proof (last_ball_lost_bricks
                      (set_balls self (remove_at k (balls self))) i) as Hb.
        destruct (last_ball_lost _ i) as [s j]. cbn [fst] in Hb.
        apply IH. unfold bricks_sound. rewrite Hb. exact Hself.
      * unfold ret. apply IH. exact Hself.
    + unfold bind.
      pose proof (handle_collision_sound self ball' dt i Hself) as Hc.
      destruct (_handle_collision self ball' dt i) as [[s b] j].
      cbn [fst snd] in *. apply IH. exact Hc.
Qed.

Lemma powerups_loop_bricks (dt : R) (rect : pygame.Rect)
      (snapshot : list PowerUp.t) (k : nat) (self : t) (i : nat) :
  bricks (fst (powerups_loop dt rect snapshot k self i)) = bricks self.
Proof.
  revert k self i.
  induction snapshot as [| p rest IH]; intros k self i.
  - reflexivity.
  - cbn [powerups_loop].
    destruct (PowerUp.update p dt (height self)) as [p' out].
    destruct out; [rewrite IH; reflexivity |].
    destruct (pygame.colliderect rect (powerup_rect p')).
    + unfold bind.
      rewrite apply_powerup_powerups.
      pose proof (apply_powerup_frame self (PowerUp.type p') i) as Hf1.
      destruct (_apply_powerup self (PowerUp.type p') i) as [s1 j].
      cbn zeta in Hf1. cbn [fst snd] in *.
      rewrite powerups_set_powerups, set_powerups_twice.
      rewrite create_particles_powerups.
      pose proof (create_particles_frame s1 (Vector2D.x (PowerUp.pos p'))
                    (Vector2D.y (PowerUp.pos p')) 15 j) as Hf2.
      destruct (_create_particles s1 _ _ 15 j) as [s2 m].
      cbn zeta in Hf2. cbn [fst snd] in *.
      rewrite IH. cbn [bricks set_powerups].
      destruct Hf1 as (_ & _ & _ & Hb1 & _).
      destruct Hf2 as (_ & _ & _ & Hb2 & _). congruence.
    + rewrite IH. reflexivity.
Qed.

Lemma check_victory_sound (self : t) (i : nat) :
  bricks_sound self -> bricks_sound (fst (check_victory self i)).
Proof.
  intros Hself. unfold check_victory.
  destruct (bricks self) as [| b0 bs] eqn:Hb.
  - cbn [level set_level]. destruct (level self + 1 >? 5)%Z.
    + unfold ret, bricks_sound. cbn [fst bricks set_state set_level].
      rewrite Hb. constructor.
    + unfold bind, ret.
      pose proof (generate_level_sound (set_level self (level self + 1))
                    (level self + 1) i) as Hg.
      destruct (_generate_level _ _ i) as [s j].
      destruct (Ball.__init__ _ _ j) as [b k]. exact Hg.
  - exact Hself.
Qed.

Lemma check_pause_bricks (self : t) (events : list pygame.Event) :
  bricks (check_pause self events) = bricks self.
Proof.
  unfold check_pause. revert self.
  induction events as [| e es IH]; intros self; [reflexivity |].
  cbn [fold_left]. rewrite IH. destruct (pygame.is_escape e); reflexivity.
Qed.

Lemma handle_paused_bricks (self : t) (events : list pygame.Event) :
  bricks (_handle_paused self events) = bricks self.
Proof.
  unfold _handle_paused. revert self.
  induction events as [| e es IH]; intros self; [reflexivity |].
  cbn [fold_left]. rewrite IH. destruct (pygame.is_escape e); reflexivity.
Qed.

Lemma handle_playing_sound (self : t) (inp : Input) (i : nat) :
  bricks_sound self -> bricks_sound (fst (_handle_playing self inp i)).
Proof.
  intros Hself. unfold _handle_playing, bind, ret.
  match goal with
  | |- context [balls_loop ?d ?sn ?k ?s i] =>
      pose proof (balls_loop_sound d sn k s i Hself) as H1;
      destruct (balls_loop d sn k s i) as [s1 j1]
  end.
  cbn [fst] in H1. unfold _handle_powerups.
  match goal with
  | |- context [powerups_loop ?d ?r ?sn ?k ?s j1] =>
      pose proof (powerups_loop_bricks d r sn k s j1) as H2;
      destruct (powerups_loop d r sn k s j1) as [s2 j2]
  end.
  cbn [fst bricks set_particles] in H2.
  assert (H2' : bricks_sound s2) by (unfold bricks_sound; rewrite H2; exact H1).
  pose proof (check_victory_sound s2 j2 H2') as H3.
  destruct (check_victory s2 j2) as [s3 j3].
  cbn [fst] in *. unfold bricks_sound. rewrite check_pause_bricks. exact H3.
Qed.

Lemma handle_menu_sound (events : list pygame.Event) (self : t) (i : nat) :
  bricks_sound self -> bricks_sound (fst (_handle_menu self events i)).
Proof.
  unfold _handle_menu. revert self i.
  induction events as [| e es IH]; intros self i Hself.
  - exact Hself.
  - cbn [foldM]. unfold bind. destruct (pygame.is_click e).
    + pose proof (generate_level_sound (set_state self PLAYING)
                    (level (set_state self PLAYING)) i) as Hg.
      destruct (_generate_level _ _ i) as [s j]. apply IH. exact Hg.
    + unfold ret. apply IH. exact Hself.
Qed.

Lemma restart_on_click_sound (events : list pygame.Event) (self : t)
      (i : nat) :
  bricks_sound self -> bricks_sound (fst (restart_on_click self events i)).
Proof.
  unfold restart_on_click. revert self i.
  induction events as [| e es IH]; intros self i Hself.
  - exact Hself.
  - cbn [foldM]. unfold bind. destruct (pygame.is_click e).
    + pose proof (init_sound (width self) (height self) i) as Hg.
      destruct (__init__ _ _ i) as [s j]. apply IH. exact Hg.
    + unfold ret. apply IH. exact Hself.
Qed.

Lemma frame_sound (self : t) (inp : Input) (i : nat) :
  bricks_sound self -> bricks_sound (fst (frame self inp i)).
Proof.
  intros Hself. unfold frame. destruct (state self).
  - apply handle_menu_sound, Hself.
  - apply handle_playing_sound, Hself.
  - unfold ret, bricks_sound. cbn [fst]. rewrite handle_paused_bricks.
    exact Hself.
  - apply restart_on_click_sound, Hself.
  - apply restart_on_click_sound, Hself.
Qed.

(** C8.  In every world a session can reach, every brick of the active
    list has [0 <= health <= max_health]; indeed its health is at least 1,
    a brick whose health reaches 0 being taken off the list by the
    resolution step that hits it. *)
Theorem C8_brick_health_invariant (self : t) (i : nat) :
  reachable (self, i) ->
  forall b : Brick.t,
    In b (bricks self) ->
    (0 <= Brick.health b <= Brick.max_health b)%Z
    /\ (1 <= Brick.health b)%Z.
Proof.
  intros Hreach.
  assert (Hsound : bricks_sound self).
  { remember (self, i) as w eqn:Hw.
    replace self with (fst w) by (rewrite Hw; reflexivity).
    clear Hw self i.
    induction Hreach as [width height seed | self i inp _ IH].
    - apply init_sound.
    - apply frame_sound. exact IH. }
  intros b Hin.
  pose proof (proj1 (Forall_forall _ _) Hsound b Hin) as Hb.
  unfold brick_sound in Hb. lia.
Qed.
End BrickHealth.

(** ** Losing balls *)

Section BallLoss.
Context `{RandomSource} `{pygame.Lib}.
Import ArkanoidGame.

(** Lines 440-445, once the live list is empty: one life less, and then
    either one new ball at the launch position or GameOver. *)
Lemma last_ball_lost_eq (self : t) (i : nat) :
  ((lives self - 1 > 0)%Z ->
   exists vx : R,
     (vx = -200 \/ vx = 200)
     /\ last_ball_lost self i
        = (set_balls (set_lives self (lives self - 1))
             [Ball.mk (Vector2D.mk (launch_x self) (launch_y self))
                      (Vector2D.mk vx (-300)) 8 [] 1],
           S i))
  /\ ((lives self - 1 <= 0)%Z ->
      last_ball_lost self i
      = (set_state (set_lives self (lives self - 1)) GAME_OVER, i)).
Proof.
  unfold last_ball_lost. cbn [lives set_lives]. split; intros Hl.
  - assert (Hgt : (lives self - 1 >? 0)%Z = true) by (apply Z.gtb_lt; lia).
    rewrite Hgt.
    destruct (Ball_init_eq (launch_x self) (launch_y self) i)
      as (vx & Hvx & Hinit).
    exists vx. split; [exact Hvx |].
    unfold bind, ret.
    change (launch_x (set_lives self (lives self - 1))) with (launch_x self).
    change (launch_y (set_lives self (lives self - 1))) with (launch_y self).
    rewrite Hinit. reflexivity.
  - assert (Hgt : (lives self - 1 >? 0)%Z = false)
      by (rewrite Z.gtb_ltb; apply Z.ltb_ge; lia).
    rewrite Hgt. reflexivity.
Qed.

(** After it, the game has a ball or is over. *)
Lemma last_ball_lost_outcome (self : t) (i : nat) :
  balls (fst (last_ball_lost self i)) <> []
  \/ state (fst (last_ball_lost self i)) = GAME_OVER.
Proof.
  destruct (last_ball_lost_eq self i) as [Hmore Hnone].
  destruct (Z.le_gt_cases (lives self - 1) 0) as [Hle | Hgt].
  - right. rewrite (Hnone Hle). reflexivity.
  - left. destruct Hmore as (vx & _ & ->); [lia |]. discriminate.
Qed.

Lemma hit_brick_balls_state (self : t) (k : nat) (b : Brick.t) (i : nat) :
  balls (fst (hit_brick self k b i)) = balls self
  /\ state (fst (hit_brick self k b i)) = state self.
Proof.
  unfold hit_brick, Brick.hit.
  destruct (Brick.health b - 1 <=? 0)%Z.
  - unfold bind, ret.
    match goal with
    | |- context [_create_particles ?s ?x ?y ?c i] =>
        destruct (create_particles_eq s x y c i) as (ps & Hps);
        destruct (_create_particles s x y c i) as [s' j]
    end.
    cbn [fst] in *. subst s'. cbn [Brick.powerup].
    destruct (Brick.powerup b); split; reflexivity.
  - split; reflexivity.
Qed.

Lemma brick_collisions_balls_state (snapshot : list Brick.t) (k : nat)
      (rect : pygame.Rect) (self : t) (ball : Ball.t) (i : nat) :
  balls (fst (fst (brick_collisions snapshot k rect self ball i))) = balls self
  /\ state (fst (fst (brick_collisions snapshot k rect self ball i)))
     = state self.
Proof.
  revert k. induction snapshot as [| b rest IH]; intros k.
  - split; reflexivity.
  - cbn [brick_collisions].
    destruct (pygame.colliderect (brick_rect b) rect).
    + unfold bind, ret.
      pose proof (hit_brick_balls_state self k b i) as Hhit.
      destruct (hit_brick self k b i) as [s j]. exact Hhit.
    + apply IH.
Qed.

Lemma handle_collision_balls_state (self : t) (ball : Ball.t) (dt : R)
      (i : nat) :
  balls (fst (fst (_handle_collision self ball dt i))) = balls self
  /\ state (fst (fst (_handle_collision self ball dt i))) = state self.
Proof.
  unfold _handle_collision, bind.
  destruct (paddle_collision_eq self ball (ball_rect ball) i) as (ps & Hps).
  destruct (paddle_collision self ball (ball_rect ball) i) as [[s b] j].
  cbn [fst snd] in *.
  destruct (brick_collisions_balls_state (bricks s) 0 (ball_rect ball) s b j)
    as [Hb Hs].
  rewrite Hb, Hs, Hps. split; reflexivity.
Qed.

(** The loop over the balls ends with a ball on the field or with the game
    over, when it starts with the balls it visits on the field. *)
Lemma balls_loop_outcome (dt : R) (snapshot pre : list Ball.t) (self : t)
      (i : nat) :
  balls self = pre ++ snapshot ->
  balls self <> [] ->
  let self' := fst (balls_loop dt snapshot (length pre) self i) in
  balls self' <> [] \/ state self' = GAME_OVER.
Proof.
  revert pre self i.
  induction snapshot as [| ball rest IH]; intros pre self i Hballs Hne.
  - left. exact Hne.
  - cbn zeta. cbn [balls_loop].
    destruct (Ball.update ball dt (width self) (height self)) as [ball' lost].
    destruct lost.
    + rewrite Hballs, remove_at_middle. unfold bind.
      cbn [balls set_balls].
      destruct (pre ++ rest) as [| b0 bs] eqn:Hleft.
      * apply app_eq_nil in Hleft. destruct Hleft as [-> ->].
        pose proof (last_ball_lost_outcome (set_balls self []) i) as Hout.
        destruct (last_ball_lost (set_balls self []) i) as [s j].
        cbn [fst] in Hout. exact Hout.
      * unfold ret. rewrite <- Hleft.
        apply (IH pre (set_balls self (pre ++ rest)) i); [reflexivity |].
        cbn [balls set_balls]. rewrite Hleft. discriminate.
    + unfold bind.
      destruct (handle_collision_balls_state self ball' dt i) as [Hb _].
      destruct (_handle_collision self ball' dt i) as [[s b] j].
      cbn [fst snd] in *.
      rewrite Hb, Hballs, store_at_middle.
      replace (S (length pre)) with (length (pre ++ [b]))
        by (rewrite length_app; cbn; lia).
      apply (IH (pre ++ [b])).
      * cbn [balls set_balls]. rewrite <- app_assoc. reflexivity.
      * cbn [balls set_balls]. destruct pre; discriminate.
Qed.

Lemma apply_powerup_balls (self : t) (kind : PowerUpType) (i : nat) :
  balls self <> [] -> balls (fst (_apply_powerup self kind i)) <> [].
Proof.
  intros Hne. unfold _apply_powerup, effects, bind, ret.
  destruct kind; cbn [fst balls set_score set_paddle set_lives set_balls];
    try exact Hne.
  - destruct (balls self) as [| first rest] eqn:Hb; [contradiction |].
    unfold bind, ret. destruct (mapM _ (range 2) i) as [new j].
    cbn [fst balls set_score set_balls]. discriminate.
  - destruct (balls self); [contradiction | discriminate].
Qed.

Lemma powerups_loop_balls_state (dt : R) (rect : pygame.Rect)
      (snapshot : list PowerUp.t) (k : nat) (self : t) (i : nat) :
  let self' := fst (powerups_loop dt rect snapshot k self i) in
  (balls self <> [] -> balls self' <> []) /\ state self' = state self.
Proof.
  revert k self i.
  induction snapshot as [| p rest IH]; intros k self i.
  - split; [tauto | reflexivity].
  - cbn zeta. cbn [powerups_loop].
    destruct (PowerUp.update p dt (height self)) as [p' out].
    destruct out;
      [exact (IH k (set_powerups self (remove_at k (powerups self))) i) |].
    destruct (pygame.colliderect rect (powerup_rect p'));
      [| exact (IH (S k)
                   (set_powerups self (store_at k p' (powerups self))) i)].
    unfold bind.
    rewrite apply_powerup_powerups.
    pose proof (apply_powerup_frame self (PowerUp.type p') i) as Hf1.
    pose proof (apply_powerup_balls self (PowerUp.type p') i) as Hb1.
    destruct (_apply_powerup self (PowerUp.type p') i) as [s1 j].
    cbn zeta in Hf1. cbn [fst snd] in *.
    rewrite powerups_set_powerups, set_powerups_twice.
    rewrite create_particles_powerups.
    destruct (create_particles_eq s1 (Vector2D.x (PowerUp.pos p'))
                (Vector2D.y (PowerUp.pos p')) 15 j) as (ps & Hps).
    destruct (_create_particles s1 _ _ 15 j) as [s2 m].
    cbn [fst snd] in *. subst s2.
    match goal with
    | |- context [powerups_loop dt rect rest k ?s m] =>
        destruct (IH k s m) as [IHb IHs]
    end.
    cbn zeta in IHb, IHs. cbn [balls state set_powerups set_particles] in *.
    destruct Hf1 as (_ & _ & _ & _ & Hs1).
    split; [intros Hne; apply IHb, Hb1, Hne | congruence].
Qed.

Lemma check_victory_balls_state (self : t) (i : nat) :
  let self' := fst (check_victory self i) in
  (balls self <> [] -> balls self' <> [])
  /\ (state self' = state self \/ state self' = VICTORY).
Proof.
  cbn zeta. unfold check_victory.
  destruct (bricks self); [| split; [tauto | left; reflexivity]].
  cbn [level set_level]. destruct (level self + 1 >? 5)%Z.
  - split; [tauto | right; reflexivity].
  - unfold bind, ret.
    pose proof (generate_level_frame (set_level self (level self + 1))
                  (level self + 1) i) as Hg.
    destruct (_generate_level _ _ i) as [s j]. cbn [fst] in Hg.
    destruct (Ball.__init__ _ _ j) as [b k]. cbn [fst].
    split; [discriminate | left; rewrite Hg; reflexivity].
Qed.

Lemma check_pause_balls_state (events : list pygame.Event) (self : t) :
  balls (check_pause self events) = balls self
  /\ (state (check_pause self events) = state self
      \/ state (check_pause self events) = PAUSED).
Proof.
  unfold check_pause. revert self.
  induction events as [| e es IH]; intros self.
  - split; [reflexivity | left; reflexivity].
  - cbn [fold_left]. destruct (pygame.is_escape e).
    + destruct (IH (set_state self PAUSED)) as [Hb Hs]. split; [exact Hb |].
      right. destruct Hs as [Hs | Hs]; exact Hs.
    + apply IH.
Qed.

(** X3.  A Playing frame that begins with a ball on the field and ends in
    Playing ends with a ball on the field. *)
Lemma playing_frame_keeps_a_ball (self : t) (inp : Input) (i : nat) :
  state self = PLAYING ->
  balls self <> [] ->
  state (fst (frame self inp i)) = PLAYING ->
  balls (fst (frame self inp i)) <> [].
Proof.
  intros Hstate Hne. unfold frame. rewrite Hstate.
  unfold _handle_playing, bind, ret.
  match goal with
  | |- context [balls_loop ?d ?sn ?k ?s i] =>
      pose proof (balls_loop_outcome d sn [] s i eq_refl Hne) as H1;
      change (length (@nil Ball.t)) with 0%nat in H1;
      destruct (balls_loop d sn k s i) as [s1 j1]
  end.
  cbn zeta in H1. cbn [fst] in H1. unfold _handle_powerups.
  match goal with
  | |- context [powerups_loop ?d ?r ?sn ?k ?s j1] =>
      destruct (powerups_loop_balls_state d r sn k s j1) as [H2b H2s];
      destruct (powerups_loop d r sn k s j1) as [s2 j2]
  end.
  cbn zeta in H2b, H2s. cbn [fst balls state set_particles] in H2b, H2s.
  destruct (check_victory_balls_state s2 j2) as [H3b H3s].
  destruct (check_victory s2 j2) as [s3 j3].
  cbn zeta in H3b, H3s. cbn [fst] in *.
  destruct (check_pause_balls_state (events inp) s3) as [H4b H4s].
  intros Hend. rewrite H4b. apply H3b, H2b.
  destruct H1 as [H1 | H1]; [exact H1 | exfalso].
  destruct H4s as [H4s | H4s]; [| congruence].
  destruct H3s as [H3s | H3s]; congruence.
Qed.
End BallLoss.

(** * The theorems at the scenarios *)

(** Computes the integer under every [IZR] of the goal. *)
Ltac norm_IZR :=
  repeat match goal with
    | |- context [IZR ?z] =>
        let z' := eval cbv in z in
        progress (change (IZR z) with (IZR z'))
    end.

(** Evaluates an overlap test of [aabb] on known rectangles. *)
Ltac decide_overlap :=
  unfold pygame.colliderect, aabb, ArkanoidGame.brick_rect,
    ArkanoidGame.ball_rect, ArkanoidGame.paddle_rect,
    ArkanoidGame.powerup_rect;
  cbn [pygame.left pygame.top pygame.width pygame.height];
  norm_IZR;
  cbn [Ball.pos Ball.radius Vector2D.x Vector2D.y rising_ball];
  decide_cmp; reflexivity.

Lemma rising_ball_misses_brick_a :
  @pygame.colliderect aabb (ArkanoidGame.brick_rect brick_a)
                      (ArkanoidGame.ball_rect rising_ball) = false.
Proof. decide_overlap. Defined.

Lemma rising_ball_hits_brick_b :
  @pygame.colliderect aabb (ArkanoidGame.brick_rect brick_b)
                      (ArkanoidGame.ball_rect rising_ball) = true.
Proof. decide_overlap. Defined.

Lemma rising_ball_misses_paddle :
  @ArkanoidGame.paddle_collision steady_source aabb game_in_play rising_ball
     (ArkanoidGame.ball_rect rising_ball) 0%nat
  = (game_in_play, rising_ball, 0%nat).
Proof.
  unfold ArkanoidGame.paddle_collision.
  assert (Hmiss : @pygame.colliderect aabb
                    (ArkanoidGame.paddle_rect
                       (ArkanoidGame.paddle game_in_play))
                    (ArkanoidGame.ball_rect rising_ball) = false).
  { unfold pygame.colliderect, aabb, ArkanoidGame.paddle_rect,
      ArkanoidGame.ball_rect.
    cbn [pygame.left pygame.top pygame.width pygame.height
         ArkanoidGame.paddle game_in_play Paddle.__init__ Paddle.x Paddle.y
         Paddle.width Paddle.height].
    norm_IZR.
    cbn [Ball.pos Ball.radius Vector2D.x Vector2D.y rising_ball].
    decide_cmp. reflexivity. }
  rewrite Hmiss. reflexivity.
Defined.

(** [rising_ball] passes the paddle and [brick_a] and destroys [brick_b]:
    the bricks left are [[brick_a]], the score goes from 1200 to 1700, the
    power-up of [brick_b] appears at (125, 72) and the ball turns back
    down. *)
Lemma C2_witness :
  let out := fst (@ArkanoidGame._handle_collision steady_source aabb
                    game_in_play rising_ball (1 / 64) 0%nat) in
  ArkanoidGame.bricks (fst out) = [brick_a]
  /\ ArkanoidGame.score (fst out) = 1700%Z
  /\ ArkanoidGame.powerups (fst out) = [PowerUp.__init__ 125 72 MULTI_BALL]
  /\ Ball.vel (snd out) = Vector2D.mk 200 (- -300).
Proof.
  pose proof (@C2_first_overlapping_brick_only steady_source aabb game_in_play
                rising_ball (1 / 64) 0%nat)
    as (_ & _ & Hhit).
  assert (Hmiss : forall b', In b' [brick_a] ->
            @pygame.colliderect aabb (ArkanoidGame.brick_rect b')
                                (ArkanoidGame.ball_rect rising_ball) = false).
  { intros b' [<- | []]. exact rising_ball_misses_brick_a. }
  assert (Hhealth : (1 <= Brick.health brick_b)%Z) by (cbn; lia).
  specialize (Hhit [brick_a] [] brick_b eq_refl Hmiss rising_ball_hits_brick_b
                Hhealth).
  rewrite rising_ball_misses_paddle in Hhit. cbn [fst snd] in Hhit.
  destruct Hhit as (Hzero & _ & _ & Hle & _).
  destruct (Hzero eq_refl) as (Hbricks & Hscore & Hpowerups).
  split; [exact Hbricks | split; [exact Hscore | split]].
  - exact Hpowerups.
  - apply Hle.
    unfold ArkanoidGame.brick_center_x, ArkanoidGame.brick_center_y.
    norm_IZR. cbn [Ball.pos rising_ball Vector2D.x Vector2D.y].
    replace (125 - 125) with 0 by lra. rewrite Rabs_R0. apply Rabs_pos.
Defined.

(** The last brick of level 5 has just gone: Victory, at level 6.  With a
    brick left, nothing happens. *)
Lemma C3_witness :
  let cleared5 :=
    ArkanoidGame.set_level (ArkanoidGame.set_bricks game_in_play []) 5 in
  @ArkanoidGame.check_victory steady_source cleared5 0%nat
  = (ArkanoidGame.set_state (ArkanoidGame.set_level cleared5 6) VICTORY, 0%nat)
  /\ (exists vx : R,
         ArkanoidGame.balls
           (fst (@ArkanoidGame.check_victory steady_source
                   (ArkanoidGame.set_bricks game_in_play []) 0%nat))
         = [Ball.mk (Vector2D.mk 400 520) (Vector2D.mk vx (-300)) 8 [] 1])
  /\ @ArkanoidGame.check_victory steady_source game_in_play 0%nat
     = (game_in_play, 0%nat).
Proof.
  intros cleared5. split; [| split].
  - apply (proj1 (@C3_clear_check steady_source cleared5 0%nat)).
    + reflexivity.
    + cbn. lia.
  - destruct (proj1 (proj2 (@C3_clear_check steady_source
                              (ArkanoidGame.set_bricks game_in_play []) 0%nat))
                eq_refl)
      as (_ & vx & _ & Heq).
    + cbn. lia.
    + exists vx. rewrite Heq. reflexivity.
  - apply (proj2 (proj2 (@C3_clear_check steady_source game_in_play 0%nat))).
    discriminate.
Defined.

(** C3 (the claim as worded, at level 5).  No brick is left and the level,
    5, does not exceed 5: as worded the check goes on to the next level,
    still in Playing; the code has incremented the level before it
    compares it, and is in Victory at level 6 with the ball it had. *)
Lemma C3_counterexample :
  let cleared5 :=
    ArkanoidGame.set_level (ArkanoidGame.set_bricks game_in_play []) 5 in
  ArkanoidGame.bricks cleared5 = []
  /\ ~ (ArkanoidGame.level cleared5 > 5)%Z
  /\ ArkanoidGame.state
       (fst (@clear_check_as_claimed steady_source cleared5 0%nat))
     = PLAYING
  /\ @ArkanoidGame.check_victory steady_source cleared5 0%nat
     = (ArkanoidGame.mk 800 600 VICTORY 1200 3 6 (Paddle.__init__ 350 550)
                        [rising_ball] [] [] [], 0%nat)
  /\ @ArkanoidGame.check_victory steady_source cleared5 0%nat
     <> @clear_check_as_claimed steady_source cleared5 0%nat.
Proof.
  intros cleared5.
  assert (Hclaimed :
            ArkanoidGame.state
              (fst (@clear_check_as_claimed steady_source cleared5 0%nat))
            = PLAYING).
  { unfold clear_check_as_claimed.
    change (ArkanoidGame.bricks cleared5) with (@nil Brick.t).
    change (ArkanoidGame.level cleared5 >? 5)%Z with false.
    cbv zeta. unfold bind, ret.
    match goal with
    | |- context [ArkanoidGame._generate_level ?s ?l 0%nat] =>
        pose proof (@generate_level_frame steady_source s l 0%nat) as Hframe;
        destruct (ArkanoidGame._generate_level s l 0%nat) as [g j]
    end.
    cbn [fst] in Hframe.
    destruct (Ball.__init__ _ _ j) as [b k]. cbn [fst].
    rewrite Hframe. reflexivity. }
  assert (Hcode :
            @ArkanoidGame.check_victory steady_source cleared5 0%nat
            = (ArkanoidGame.mk 800 600 VICTORY 1200 3 6
                 (Paddle.__init__ 350 550) [rising_ball] [] [] [], 0%nat))
    by reflexivity.
  split; [reflexivity |]. split; [cbn; lia |].
  split; [exact Hclaimed |]. split; [exact Hcode |].
  intros Heq. rewrite <- Heq, Hcode in Hclaimed. discriminate.
Qed.


(** ** Level 1 under [steady_source] *)

Lemma steady_random (i : nat) : @random steady_source i = (1 / 2, S i).
Proof.
  unfold random. cbn [entropy steady_source].
  change ((2 ^ 52) mod 2 ^ 53)%Z with 4503599627370496%Z.
  change (2 ^ 53)%Z with 9007199254740992%Z.
  f_equal. lra.
Qed.

Lemma steady_brick (x y health : Z) (i : nat) :
  @Brick.__init__ steady_source x y health i
  = (Brick.mk x y 75 25 health health (health * 100) None, S i).
Proof.
  unfold Brick.__init__, bind, ret. rewrite steady_random.
  rewrite Rltb_false by lra. reflexivity.
Qed.

Lemma steady_cell (rows y x : Z) (i : nat) :
  @ArkanoidGame.level_cell steady_source rows (y, x) i
  = (Some (Brick.mk (x * 78 + 10) (y * 30 + 60) 75 25 (Z.min (rows - y) 5)
                    (Z.min (rows - y) 5) (Z.min (rows - y) 5 * 100) None),
     S (S i)).
Proof.
  unfold ArkanoidGame.level_cell, bind, ret. rewrite steady_random.
  unfold Rgtb. rewrite Rltb_true by lra. rewrite steady_brick. reflexivity.
Qed.

(** The first brick of level 1 is [brick_a]. *)
Lemma steady_level_1 (self : ArkanoidGame.t) (i : nat) :
  In brick_a
     (ArkanoidGame.bricks (fst (@ArkanoidGame._generate_level steady_source
                                  self 1 i))).
Proof.
  unfold ArkanoidGame._generate_level, bind, ret.
  change (Z.min (5 + 1) 10) with 6%Z.
  set (cells := list_prod (range 6) (range 10)).
  assert (Hcells : cells = (0, 0)%Z :: tl cells) by reflexivity.
  rewrite Hcells. cbn [filter_mapM]. unfold bind, ret. rewrite steady_cell.
  destruct (filter_mapM _ (tl cells) (S (S i))) as [bs j].
  cbn [fst ArkanoidGame.bricks ArkanoidGame.set_bricks]. left. reflexivity.
Qed.

(** [brick_a] is a brick of level 1, on row 0 and column 0. *)
Lemma C7_witness :
  In brick_a
     (ArkanoidGame.bricks (fst (@ArkanoidGame._generate_level steady_source
                                  game_in_play 1 0%nat)))
  /\ (exists row col : Z,
         (0 <= row < 6)%Z /\ (0 <= col < 10)%Z
         /\ Brick.x brick_a = (col * 78 + 10)%Z
         /\ Brick.y brick_a = (row * 30 + 60)%Z
         /\ (1 <= Brick.health brick_a <= 5)%Z)
  /\ exists b : Brick.t,
      In b (ArkanoidGame.bricks
              (fst (@ArkanoidGame._generate_level steady_source
                      game_in_play 1 0%nat)))
      /\ Brick.x b = 10%Z /\ Brick.y b = 60%Z.
Proof.
  pose proof (@C7_generated_bricks steady_source game_in_play 1 0%nat)
    as Hlevel.
  cbv zeta in Hlevel.
  destruct Hlevel as (Hbricks & _ & _ & _ & _ & _ & _ & _ & Hcell & _).
  split; [apply steady_level_1 | split].
  - destruct (Hbricks brick_a (steady_level_1 game_in_play 0%nat))
      as (row & col & Hrow & Hcol & Hx & Hy & _ & _ & Hh).
    exists row, col. repeat split; try assumption; lia.
  - destruct (Hcell 0%nat 0%Z 0%Z eq_refl) as (d & Hd & Hiff).
    change (length (list_prod (range (Z.min (5 + 1) 10)) (range 10)))
      with 60%nat in Hd.
    cbn [cell_draws nth_error] in Hd. injection Hd as <-.
    apply Hiff. rewrite steady_random. cbn [fst]. lra.
Defined.

(** The game built by [main] under [steady_source] is reachable and has
    [brick_a] among its bricks. *)
Lemma C8_witness :
  let w := @ArkanoidGame.__init__ steady_source 800 600 0%nat in
  @ArkanoidGame.reachable steady_source aabb (fst w, snd w)
  /\ In brick_a (ArkanoidGame.bricks (fst w))
  /\ (0 <= Brick.health brick_a <= Brick.max_health brick_a)%Z.
Proof.
  intros w.
  assert (Hreach : @ArkanoidGame.reachable steady_source aabb (fst w, snd w)).
  { rewrite <- surjective_pairing. apply ArkanoidGame.reachable_init. }
  assert (Hin : In brick_a (ArkanoidGame.bricks (fst w))).
  { subst w. unfold ArkanoidGame.__init__, bind.
    destruct (@Ball.__init__ steady_source _ _ 0%nat) as [b j].
    apply steady_level_1. }
  split; [exact Hreach | split; [exact Hin |]].
  exact (proj1 (@C8_brick_health_invariant steady_source aabb (fst w) (snd w)
                  Hreach brick_a Hin)).
Defined.

(** Level index -5 has no row; the call returns a game without bricks. *)
Lemma C9_counterexample :
  (Z.min (5 + -5) 10 <= 0)%Z
  /\ fst (@call_generate_level steady_source game_in_play (-5) 0%nat)
     = Returned (ArkanoidGame.set_bricks game_in_play [])
  /\ fst (@call_generate_level steady_source game_in_play (-5) 0%nat)
     <> Raised.
Proof.
  split; [cbn; lia |].
  assert (Hcall : fst (@call_generate_level steady_source game_in_play (-5)
                         0%nat)
                  = Returned (ArkanoidGame.set_bricks game_in_play []))
    by reflexivity.
  split; [exact Hcall | rewrite Hcall; discriminate].
Qed.

Lemma C9_witness :
  (Z.min (5 + -5) 10 <= 0)%Z
  /\ @ArkanoidGame._generate_level steady_source game_in_play (-5) 0%nat
     = (ArkanoidGame.set_bricks game_in_play [], 0%nat).
Proof.
  assert (Hrows : (Z.min (5 + -5) 10 <= 0)%Z) by (cbn; lia).
  split; [exact Hrows |].
  exact (@C9_no_rows_gives_empty_level steady_source game_in_play (-5) 0%nat
           Hrows).
Defined.

(** [low_powerup] falls below the field in a frame of 1/64 s. *)
Lemma low_powerup_leaves :
  snd (PowerUp.update low_powerup (1 / 64) 600) = true.
Proof.
  unfold PowerUp.update, low_powerup, PowerUp.__init__.
  cbn [snd PowerUp.pos PowerUp.vel Vector2D.__add__ Vector2D.__mul__
       Vector2D.x Vector2D.y].
  decide_cmp. reflexivity.
Qed.

Lemma C10_witness :
  let game := ArkanoidGame.set_powerups game_in_play [low_powerup] in
  (forall p, In p (ArkanoidGame.powerups game) ->
             leaves_field (1 / 64) (ArkanoidGame.height game) p = true)
  /\ @ArkanoidGame._handle_powerups steady_source aabb game (1 / 64) 0%nat
     = (ArkanoidGame.set_powerups game [], 0%nat).
Proof.
  intros game.
  assert (Hall : forall p, In p (ArkanoidGame.powerups game) ->
            leaves_field (1 / 64) (ArkanoidGame.height game) p = true).
  { intros p [<- | []]. exact low_powerup_leaves. }
  split; [exact Hall |].
  exact (proj2 (proj2 (proj2 (@C10_bottom_exit_before_collection steady_source
                                aabb game (1 / 64) 0%nat))) Hall).
Defined.

(** ** A session that is left in Playing without a ball *)

Lemma run_cons `{RandomSource} `{pygame.Lib} (self : ArkanoidGame.t)
      (inp : Input) (rest : list Input) (i : nat) :
  ArkanoidGame.run self (inp :: rest) i
  = ArkanoidGame.run (fst (ArkanoidGame.frame self inp i)) rest
                     (snd (ArkanoidGame.frame self inp i)).
Proof.
  unfold ArkanoidGame.run. cbn [foldM]. unfold bind.
  destruct (ArkanoidGame.frame self inp i). reflexivity.
Qed.

Lemma run_reachable `{RandomSource} `{pygame.Lib} (inputs : list Input)
      (self : ArkanoidGame.t) (i : nat) :
  ArkanoidGame.reachable (self, i) ->
  ArkanoidGame.reachable (ArkanoidGame.run self inputs i).
Proof.
  revert self i. induction inputs as [| inp rest IH]; intros self i Hr.
  - exact Hr.
  - rewrite run_cons. apply IH. rewrite <- surjective_pairing.
    apply ArkanoidGame.reachable_frame. exact Hr.
Qed.

(** The bricks of a generated level start at x = 10 or further right. *)
Lemma generated_brick_x `{RandomSource} (self : ArkanoidGame.t) (n : Z)
      (i : nat) (b : Brick.t) :
  In b (ArkanoidGame.bricks (fst (ArkanoidGame._generate_level self n i))) ->
  (10 <= Brick.x b)%Z.
Proof.
  intros Hin. unfold ArkanoidGame._generate_level, bind, ret in Hin.
  destruct (filter_mapM _ _ i) as [bs k] eqn:Hgen.
  cbn [fst ArkanoidGame.bricks ArkanoidGame.set_bricks] in Hin.
  assert (Hin' : In b (fst (filter_mapM
                              (ArkanoidGame.level_cell (Z.min (5 + n) 10))
                              (list_prod (range (Z.min (5 + n) 10))
                                         (range 10)) i)))
    by (rewrite Hgen; exact Hin).
  apply filter_mapM_In in Hin'.
  destruct Hin' as ([row col] & j & Hcell & Hb).
  apply in_prod_iff in Hcell. destruct Hcell as [_ Hcol].
  apply range_In in Hcol.
  apply level_cell_brick in Hb. destruct Hb as (p & ->).
  cbn [Brick.x]. lia.
Qed.

Lemma steady_level_clear (self : ArkanoidGame.t) (i : nat) :
  clear_of_the_left
    (ArkanoidGame.bricks
       (fst (@ArkanoidGame._generate_level steady_source self 1 i))).
Proof.
  split.
  - pose proof (steady_level_1 self i) as Hin.
    destruct (ArkanoidGame.bricks _); [contradiction | discriminate].
  - intros b. apply generated_brick_x.
Qed.

Lemma steady_launch (i : nat) :
  @Ball.__init__ steady_source (IZR (800 / 2)) (IZR (600 - 80)) i
  = (launch_ball, S i).
Proof.
  unfold Ball.__init__, choice, bind, ret, _randbelow.
  cbn [entropy steady_source].
  change (Z.of_nat (length [-200; 200])) with 2%Z.
  change ((2 ^ 52) mod 2)%Z with 0%Z.
  reflexivity.
Qed.

Lemma paddle_rest_update (dt : R) :
  Paddle.update paddle_rest dt 400 800 = paddle_rest.
Proof.
  unfold Paddle.update, paddle_rest.
  cbn [Paddle.x Paddle.y Paddle.width Paddle.height Paddle.base_width
       Paddle.vel Paddle.sticky].
  change (400 - 100 / 2)%Z with 350%Z. change (800 - 100)%Z with 700%Z.
  replace (350 + (350 - 350) * 10 * dt) with 350 by ring.
  replace ((350 - 350) * 10) with 0 by ring.
  rewrite Rmin_left by lra. rewrite Rmax_right by lra. reflexivity.
Qed.

(** The three stalled frames of a ball. *)
Lemma launch_ball_flight :
  Ball.update launch_ball 10 800 600 = (ball_above, false).
Proof.
  rewrite Ball_update_eq.
  cbn [launch_ball Ball.pos Ball.vel Ball.radius Ball.trail
       Ball.speed_multiplier Vector2D.__add__ Vector2D.__mul__
       Vector2D.x Vector2D.y].
  decide_cmp. unfold Ball.bounce_top, Ball.set_vel_y.
  cbn [Ball.pos Ball.vel Ball.radius
       Ball.trail Ball.speed_multiplier Vector2D.x Vector2D.y].
  rewrite Rabs_left by lra.
  unfold ball_above, last_n, Vector2D.__add__, Vector2D.__mul__.
  cbn [app length Nat.sub skipn Vector2D.x Vector2D.y].
  replace (400 + -200 * (10 * 1)) with (-1600) by lra.
  replace (520 + -300 * (10 * 1)) with (-2480) by lra.
  replace (- -300) with 300 by lra.
  reflexivity.
Qed.

Lemma ball_above_flight :
  Ball.update ball_above 10 800 600 = (ball_aside, false).
Proof.
  rewrite Ball_update_eq.
  cbn [ball_above Ball.pos Ball.vel Ball.radius Ball.trail
       Ball.speed_multiplier Vector2D.__add__ Vector2D.__mul__
       Vector2D.x Vector2D.y].
  decide_cmp. unfold Ball.bounce_left, Ball.set_vel_x.
  cbn [Ball.pos Ball.vel Ball.radius
       Ball.trail Ball.speed_multiplier Vector2D.x Vector2D.y].
  rewrite Rabs_left by lra.
  unfold ball_aside, last_n, Vector2D.__add__, Vector2D.__mul__.
  cbn [app length Nat.sub skipn Vector2D.x Vector2D.y].
  replace (-1600 + -200 * (10 * 1)) with (-3600) by lra.
  replace (-2480 + 300 * (10 * 1)) with 520 by lra.
  replace (- -200) with 200 by lra.
  reflexivity.
Qed.

Lemma ball_aside_lost : snd (Ball.update ball_aside 10 800 600) = true.
Proof.
  rewrite Ball_update_eq.
  cbn [ball_aside Ball.pos Ball.vel Ball.radius Ball.speed_multiplier
       Vector2D.__add__ Vector2D.__mul__ Vector2D.x Vector2D.y snd].
  decide_cmp. reflexivity.
Qed.

(** A ball that is off the left side of the field touches neither the
    paddle at rest nor a brick. *)
Lemma stalled_ball_misses (self : ArkanoidGame.t) (b : Ball.t) (dt : R)
      (i : nat) :
  Ball.radius b = 8%Z ->
  Vector2D.x (Ball.pos b) + 8 <= 0 ->
  ArkanoidGame.paddle self = paddle_rest ->
  (forall k, In k (ArkanoidGame.bricks self) -> (10 <= Brick.x k)%Z) ->
  @ArkanoidGame._handle_collision steady_source aabb self b dt i
  = (self, b, i).
Proof.
  intros Hr Hx Hpaddle Hbricks.
  unfold ArkanoidGame._handle_collision, bind.
  assert (Hp : @ArkanoidGame.paddle_collision steady_source aabb self b
                 (ArkanoidGame.ball_rect b) i = (self, b, i)).
  { unfold ArkanoidGame.paddle_collision. rewrite Hpaddle.
    unfold pygame.colliderect, aabb, ArkanoidGame.paddle_rect,
      ArkanoidGame.ball_rect.
    cbn [pygame.left pygame.top pygame.width pygame.height paddle_rest
         Paddle.x Paddle.y Paddle.width Paddle.height].
    rewrite Hr. norm_IZR.
    rewrite (Rltb_false 350 (Vector2D.x (Ball.pos b) - 8 + 16)) by lra.
    reflexivity. }
  rewrite Hp. cbn [fst snd].
  apply brick_collisions_miss. intros k Hk.
  pose proof (IZR_le _ _ (Hbricks k Hk)) as Hk10.
  unfold pygame.colliderect, aabb, ArkanoidGame.brick_rect,
    ArkanoidGame.ball_rect.
  cbn [pygame.left pygame.top pygame.width pygame.height].
  rewrite Hr. change (IZR (8 * 2)) with 16.
  rewrite (Rltb_false (IZR (Brick.x k)) (Vector2D.x (Ball.pos b) - 8 + 16))
    by lra.
  reflexivity.
Qed.

(** A stalled frame in which the only ball flies on, off the field. *)
Lemma stall_flight (n : Z) (b b' : Ball.t) (bricks : list Brick.t) (i : nat) :
  Ball.update b 10 800 600 = (b', false) ->
  Ball.radius b' = 8%Z ->
  Vector2D.x (Ball.pos b') + 8 <= 0 ->
  clear_of_the_left bricks ->
  @ArkanoidGame.frame steady_source aabb (game_with PLAYING n [b] bricks)
                      stall_frame i
  = (game_with PLAYING n [b'] bricks, i).
Proof.
  intros Hupd Hr Hx [Hne Hclear].
  unfold ArkanoidGame.frame. cbn [ArkanoidGame.state game_with].
  unfold ArkanoidGame._handle_playing, bind, ret.
  cbn [dt mouse_x events stall_frame ArkanoidGame.paddle ArkanoidGame.width
       ArkanoidGame.balls ArkanoidGame.set_paddle game_with].
  rewrite paddle_rest_update.
  change (ArkanoidGame.set_paddle (game_with PLAYING n [b] bricks) paddle_rest)
    with (game_with PLAYING n [b] bricks).
  cbn [ArkanoidGame.balls_loop].
  change (ArkanoidGame.width (game_with PLAYING n [b] bricks)) with 800%Z.
  change (ArkanoidGame.height (game_with PLAYING n [b] bricks)) with 600%Z.
  rewrite Hupd. unfold bind.
  rewrite stalled_ball_misses;
    [| exact Hr | exact Hx | reflexivity | exact Hclear].
  destruct bricks as [| k ks]; [contradiction |].
  reflexivity.
Qed.

(** The only ball of the live list is lost. *)
Lemma balls_loop_single_lost `{RandomSource} `{pygame.Lib} (dt : R)
      (ball : Ball.t) (self : ArkanoidGame.t) (i : nat) :
  snd (Ball.update ball dt (ArkanoidGame.width self) (ArkanoidGame.height self))
  = true ->
  ArkanoidGame.balls self = [ball] ->
  ArkanoidGame.balls_loop dt [ball] 0 self i
  = ArkanoidGame.last_ball_lost (ArkanoidGame.set_balls self []) i.
Proof.
  intros Hlost Hballs. cbn [ArkanoidGame.balls_loop].
  destruct (Ball.update ball dt _ _) as [b' lost].
  cbn [snd] in Hlost. subst lost. rewrite Hballs.
  cbn [remove_at firstn skipn app ArkanoidGame.balls ArkanoidGame.set_balls].
  unfold bind, ret.
  destruct (ArkanoidGame.last_ball_lost _ i). reflexivity.
Qed.

(** A stalled frame that loses the only ball while a life is left: one life
    less and a new ball at the launch position. *)
Lemma stall_loss (n : Z) (b : Ball.t) (bricks : list Brick.t) (i : nat) :
  snd (Ball.update b 10 800 600) = true ->
  (n - 1 > 0)%Z ->
  clear_of_the_left bricks ->
  @ArkanoidGame.frame steady_source aabb (game_with PLAYING n [b] bricks)
                      stall_frame i
  = (game_with PLAYING (n - 1) [launch_ball] bricks, S i).
Proof.
  intros Hlost Hn [Hne _].
  unfold ArkanoidGame.frame. cbn [ArkanoidGame.state game_with].
  unfold ArkanoidGame._handle_playing, bind, ret.
  cbn [dt mouse_x events stall_frame ArkanoidGame.paddle ArkanoidGame.width
       ArkanoidGame.balls ArkanoidGame.set_paddle game_with].
  rewrite paddle_rest_update.
  change (ArkanoidGame.set_paddle (game_with PLAYING n [b] bricks) paddle_rest)
    with (game_with PLAYING n [b] bricks).
  rewrite (balls_loop_single_lost 10 b (game_with PLAYING n [b] bricks) i
             Hlost eq_refl).
  unfold ArkanoidGame.last_ball_lost.
  cbn [ArkanoidGame.lives ArkanoidGame.set_lives ArkanoidGame.set_balls
       game_with].
  assert (Hgt : (n - 1 >? 0)%Z = true) by (apply Z.gtb_lt; lia).
  rewrite Hgt. unfold bind, ret.
  unfold ArkanoidGame.launch_x, ArkanoidGame.launch_y.
  cbn [ArkanoidGame.width ArkanoidGame.height].
  rewrite steady_launch.
  destruct bricks as [| k ks]; [contradiction |].
  reflexivity.
Qed.

(** A stalled frame that loses the only ball on the last life while Escape
    is pressed: GameOver is set, and overwritten with Paused. *)
Lemma stall_last_loss (n : Z) (b : Ball.t) (bricks : list Brick.t) (i : nat) :
  snd (Ball.update b 10 800 600) = true ->
  (n - 1 <= 0)%Z ->
  clear_of_the_left bricks ->
  @ArkanoidGame.frame steady_source aabb (game_with PLAYING n [b] bricks)
                      stall_escape_frame i
  = (game_with PAUSED (n - 1) [] bricks, i).
Proof.
  intros Hlost Hn [Hne _].
  unfold ArkanoidGame.frame. cbn [ArkanoidGame.state game_with].
  unfold ArkanoidGame._handle_playing, bind, ret.
  cbn [dt mouse_x events stall_escape_frame ArkanoidGame.paddle
       ArkanoidGame.width ArkanoidGame.balls ArkanoidGame.set_paddle
       game_with].
  rewrite paddle_rest_update.
  change (ArkanoidGame.set_paddle (game_with PLAYING n [b] bricks) paddle_rest)
    with (game_with PLAYING n [b] bricks).
  rewrite (balls_loop_single_lost 10 b (game_with PLAYING n [b] bricks) i
             Hlost eq_refl).
  unfold ArkanoidGame.last_ball_lost.
  cbn [ArkanoidGame.lives ArkanoidGame.set_lives ArkanoidGame.set_balls
       game_with].
  assert (Hgt : (n - 1 >? 0)%Z = false)
    by (rewrite Z.gtb_ltb; apply Z.ltb_ge; lia).
  rewrite Hgt. unfold ret.
  destruct bricks as [| k ks]; [contradiction |].
  reflexivity.
Qed.

(** Escape in Paused resumes Playing. *)
Lemma resume_frame (n : Z) (balls : list Ball.t) (bricks : list Brick.t)
      (i : nat) :
  @ArkanoidGame.frame steady_source aabb (game_with PAUSED n balls bricks)
                      escape_frame i
  = (game_with PLAYING n balls bricks, i).
Proof. reflexivity. Qed.

(** A Playing frame without a ball changes nothing. *)
Lemma ballless_frame (n : Z) (bricks : list Brick.t) (i : nat) :
  bricks <> [] ->
  @ArkanoidGame.frame steady_source aabb (game_with PLAYING n [] bricks)
                      quiet_frame i
  = (game_with PLAYING n [] bricks, i).
Proof.
  intros Hne.
  unfold ArkanoidGame.frame. cbn [ArkanoidGame.state game_with].
  unfold ArkanoidGame._handle_playing, bind, ret.
  cbn [dt mouse_x events quiet_frame ArkanoidGame.paddle ArkanoidGame.width
       ArkanoidGame.balls ArkanoidGame.set_paddle game_with].
  rewrite paddle_rest_update.
  destruct bricks as [| k ks]; [contradiction |].
  reflexivity.
Qed.

(** The game built by [main], and the click that starts it. *)
Lemma steady_init :
  exists bricks j,
    @ArkanoidGame.__init__ steady_source 800 600 0%nat = (menu_game bricks, j).
Proof.
  unfold ArkanoidGame.__init__, bind. rewrite steady_launch.
  match goal with
  | |- context [ArkanoidGame._generate_level ?s ?l ?k] =>
      pose proof (@generate_level_frame steady_source s l k) as Hg;
      destruct (@ArkanoidGame._generate_level steady_source s l k) as [g j]
  end.
  cbn [fst] in Hg. exists (ArkanoidGame.bricks g), j. rewrite Hg. reflexivity.
Qed.

Lemma steady_click (bricks : list Brick.t) (i : nat) :
  exists bricks' j,
    clear_of_the_left bricks'
    /\ @ArkanoidGame.frame steady_source aabb (menu_game bricks) click_frame i
       = (game_with PLAYING 3 [launch_ball] bricks', j).
Proof.
  unfold ArkanoidGame.frame. cbn [ArkanoidGame.state menu_game].
  unfold ArkanoidGame._handle_menu.
  cbn [events click_frame foldM pygame.is_click].
  unfold bind, ret.
  match goal with
  | |- context [ArkanoidGame._generate_level ?s ?l ?k] =>
      pose proof (@generate_level_frame steady_source s l k) as Hg;
      pose proof (steady_level_clear s k) as Hclear;
      change l with 1%Z in *;
      destruct (@ArkanoidGame._generate_level steady_source s 1 k) as [g j]
  end.
  cbn [fst] in Hg, Hclear. exists (ArkanoidGame.bricks g), j.
  split; [exact Hclear |]. rewrite Hg. reflexivity.
Qed.

Lemma run_app `{RandomSource} `{pygame.Lib} (xs ys : list Input)
      (self : ArkanoidGame.t) (i : nat) :
  ArkanoidGame.run self (xs ++ ys) i
  = ArkanoidGame.run (fst (ArkanoidGame.run self xs i)) ys
                     (snd (ArkanoidGame.run self xs i)).
Proof.
  revert self i. induction xs as [| x xs IH]; intros self i.
  - reflexivity.
  - cbn [app]. rewrite !run_cons. apply IH.
Qed.

Lemma ball_above_off_field : Vector2D.x (Ball.pos ball_above) + 8 <= 0.
Proof. cbn [ball_above Ball.pos Vector2D.x]. lra. Qed.

Lemma ball_aside_off_field : Vector2D.x (Ball.pos ball_aside) + 8 <= 0.
Proof. cbn [ball_aside Ball.pos Vector2D.x]. lra. Qed.

(** Two stalled frames take the launched ball to [ball_aside]. *)
Lemma two_stalls (n : Z) (bricks : list Brick.t) (rest : list Input)
      (i : nat) :
  clear_of_the_left bricks ->
  @ArkanoidGame.run steady_source aabb
     (game_with PLAYING n [launch_ball] bricks)
     (stall_frame :: stall_frame :: rest) i
  = @ArkanoidGame.run steady_source aabb
      (game_with PLAYING n [ball_aside] bricks) rest i.
Proof.
  intros Hclear.
  rewrite run_cons.
  rewrite (stall_flight n launch_ball ball_above bricks i launch_ball_flight
             eq_refl ball_above_off_field Hclear).
  cbn [fst snd]. rewrite run_cons.
  rewrite (stall_flight n ball_above ball_aside bricks i ball_above_flight
             eq_refl ball_aside_off_field Hclear).
  reflexivity.
Qed.

(** Three stalled frames cost a life, while one is left afterwards. *)
Lemma three_stalls (n : Z) (bricks : list Brick.t) (rest : list Input)
      (i : nat) :
  (n - 1 > 0)%Z ->
  clear_of_the_left bricks ->
  @ArkanoidGame.run steady_source aabb
     (game_with PLAYING n [launch_ball] bricks)
     (stall_frame :: stall_frame :: stall_frame :: rest) i
  = @ArkanoidGame.run steady_source aabb
      (game_with PLAYING (n - 1) [launch_ball] bricks) rest (S i).
Proof.
  intros Hn Hclear.
  rewrite two_stalls by exact Hclear.
  rewrite run_cons.
  rewrite (stall_loss n ball_aside bricks i ball_aside_lost Hn Hclear).
  reflexivity.
Qed.

(** C4 (the code at the failing input).  The session [pause_session], from
    the game built by [main]: the player starts the game and loses three
    balls, pressing Escape in the frame that loses the third.  Before that
    frame the game is in Playing with one life and one ball, whose update
    signals lost.  The frame empties the live list, takes lives from 1 to
    0 and sets GameOver, and its pause check overwrites the state with
    Paused.  Escape again resumes Playing.  The frame after that is a
    Playing frame that stays in Playing, and it ends with no ball and no
    life. *)
Theorem C4_pause_overrides_game_over :
  let start := @ArkanoidGame.__init__ steady_source 800 600 0%nat in
  let before :=
    @ArkanoidGame.run steady_source aabb (fst start) (firstn 9 pause_session)
                      (snd start) in
  let lost :=
    @ArkanoidGame.frame steady_source aabb (fst before) stall_escape_frame
                        (snd before) in
  let resumed :=
    @ArkanoidGame.frame steady_source aabb (fst lost) escape_frame (snd lost) in
  let final :=
    @ArkanoidGame.frame steady_source aabb (fst resumed) quiet_frame
                        (snd resumed) in
  (ArkanoidGame.state (fst before) = PLAYING
   /\ ArkanoidGame.lives (fst before) = 1%Z
   /\ ArkanoidGame.balls (fst before) = [ball_aside]
   /\ snd (Ball.update ball_aside (dt stall_escape_frame) 800 600) = true)
  /\ (ArkanoidGame.state (fst lost) = PAUSED
      /\ ArkanoidGame.lives (fst lost) = 0%Z
      /\ ArkanoidGame.balls (fst lost) = [])
  /\ (ArkanoidGame.state (fst resumed) = PLAYING
      /\ resumed
         = @ArkanoidGame.run steady_source aabb (fst start) pause_session
                             (snd start))
  /\ (@ArkanoidGame.reachable steady_source aabb final
      /\ ArkanoidGame.state (fst final) = PLAYING
      /\ ArkanoidGame.lives (fst final) = 0%Z
      /\ ArkanoidGame.balls (fst final) = []).
Proof.
  intros start before lost resumed final.
  destruct steady_init as (bricks0 & j0 & Hinit).
  destruct (steady_click bricks0 j0) as (bricks & j & Hclear & Hclick).
  assert (Hbefore : before = (game_with PLAYING 1 [ball_aside] bricks,
                              S (S j))).
  { subst before start. rewrite Hinit. cbn [fst snd].
    unfold pause_session. cbn [firstn].
    rewrite run_cons, Hclick. cbn [fst snd].
    rewrite (three_stalls 3) by (exact Hclear || lia).
    rewrite (three_stalls (3 - 1)) by (exact Hclear || lia).
    rewrite two_stalls by exact Hclear.
    reflexivity. }
  assert (Hlost : lost = (game_with PAUSED 0 [] bricks, S (S j))).
  { subst lost. rewrite Hbefore. cbn [fst snd].
    rewrite (stall_last_loss 1 ball_aside bricks (S (S j)) ball_aside_lost)
      by (exact Hclear || lia).
    reflexivity. }
  assert (Hresumed : resumed = (game_with PLAYING 0 [] bricks, S (S j))).
  { subst resumed. rewrite Hlost. reflexivity. }
  assert (Hfinal : final = (game_with PLAYING 0 [] bricks, S (S j))).
  { subst final. rewrite Hresumed. cbn [fst snd].
    apply ballless_frame. apply Hclear. }
  assert (Hrun : resumed
                 = @ArkanoidGame.run steady_source aabb (fst start)
                     pause_session (snd start)).
  { change pause_session
      with (firstn 9 pause_session ++ [stall_escape_frame; escape_frame]).
    rewrite run_app.
    pose proof Hbefore as Hb. unfold before in Hb. rewrite Hb.
    cbn [fst snd]. rewrite run_cons.
    rewrite (stall_last_loss 1 ball_aside bricks (S (S j)) ball_aside_lost)
      by (exact Hclear || lia).
    rewrite Hresumed. reflexivity. }
  repeat split.
  - rewrite Hbefore. reflexivity.
  - rewrite Hbefore. reflexivity.
  - rewrite Hbefore. reflexivity.
  - exact ball_aside_lost.
  - rewrite Hlost. reflexivity.
  - rewrite Hlost. reflexivity.
  - rewrite Hlost. reflexivity.
  - rewrite Hresumed. reflexivity.
  - exact Hrun.
  - subst final. apply ArkanoidGame.reachable_frame.
    rewrite <- surjective_pairing, Hrun.
    apply run_reachable. rewrite <- surjective_pairing.
    apply ArkanoidGame.reachable_init.
  - rewrite Hfinal. reflexivity.
  - rewrite Hfinal. reflexivity.
  - rewrite Hfinal. reflexivity.
Qed.

(** * Further properties of the code *)

(** ** Vectors *)

(** X4.  Addition of vectors is commutative and associative, scaling distributes
    over it, and scaling by 1 changes nothing. *)
Theorem vector_add_laws (a b c : Vector2D.t) (k : R) :
  Vector2D.__add__ a b = Vector2D.__add__ b a
  /\ Vector2D.__add__ (Vector2D.__add__ a b) c
     = Vector2D.__add__ a (Vector2D.__add__ b c)
  /\ Vector2D.__mul__ (Vector2D.__add__ a b) k
     = Vector2D.__add__ (Vector2D.__mul__ a k) (Vector2D.__mul__ b k)
  /\ Vector2D.__mul__ a 1 = a.
Proof.
  destruct a as [ax ay], b as [bx by_], c as [cx cy].
  unfold Vector2D.__add__, Vector2D.__mul__. cbn [Vector2D.x Vector2D.y].
  repeat split; f_equal; ring.
Qed.

(** X5.  [normalize] of a vector that is not the zero vector has length 1;
    the zero vector is returned as it is, nothing being divided by 0. *)
Theorem normalize_unit (v : Vector2D.t) :
  (0 < Vector2D.magnitude v ->
   Vector2D.magnitude (Vector2D.normalize v) = 1)
  /\ (Vector2D.magnitude v = 0 -> Vector2D.normalize v = v).
Proof.
  split; intros Hm.
  - unfold Vector2D.normalize. fold (Vector2D.magnitude v). unfold Rgtb.
    rewrite Rltb_true by exact Hm.
    unfold Vector2D.magnitude at 1. cbn [Vector2D.x Vector2D.y].
    replace ((Vector2D.x v / Vector2D.magnitude v) ^ 2
             + (Vector2D.y v / Vector2D.magnitude v) ^ 2)
      with ((Vector2D.x v ^ 2 + Vector2D.y v ^ 2)
            / (Vector2D.magnitude v * Vector2D.magnitude v))
      by (field; lra).
    rewrite magnitude_sq.
    replace ((Vector2D.x v ^ 2 + Vector2D.y v ^ 2)
             / (Vector2D.x v ^ 2 + Vector2D.y v ^ 2)) with 1.
    + apply sqrt_1.
    + field. rewrite <- magnitude_sq. nra.
  - unfold Vector2D.normalize. fold (Vector2D.magnitude v). unfold Rgtb.
    rewrite Rltb_false by lra. reflexivity.
Qed.

Lemma normalize_unit_witness :
  0 < Vector2D.magnitude (Vector2D.mk 3 4)
  /\ Vector2D.magnitude (Vector2D.normalize (Vector2D.mk 3 4)) = 1
  /\ Vector2D.normalize (Vector2D.mk 0 0) = Vector2D.mk 0 0.
Proof.
  assert (H5 : Vector2D.magnitude (Vector2D.mk 3 4) = 5).
  { unfold Vector2D.magnitude. cbn [Vector2D.x Vector2D.y].
    replace (3 ^ 2 + 4 ^ 2) with (5 * 5) by ring.
    apply sqrt_square. lra. }
  assert (H0 : Vector2D.magnitude (Vector2D.mk 0 0) = 0).
  { unfold Vector2D.magnitude. cbn [Vector2D.x Vector2D.y].
    replace (0 ^ 2 + 0 ^ 2) with 0 by ring. apply sqrt_0. }
  assert (Hpos : 0 < Vector2D.magnitude (Vector2D.mk 3 4))
    by (rewrite H5; lra).
  split; [exact Hpos | split].
  - exact (proj1 (normalize_unit (Vector2D.mk 3 4)) Hpos).
  - exact (proj2 (normalize_unit (Vector2D.mk 0 0)) H0).
Defined.

(** X6.  Reflecting twice about the same normal of length 1 gives the vector
    back. *)
Theorem reflect_involution (v n : Vector2D.t) :
  Vector2D.magnitude n = 1 ->
  Vector2D.reflect (Vector2D.reflect v n) n = v.
Proof.
  intros Hn.
  assert (Hsq : Vector2D.x n ^ 2 + Vector2D.y n ^ 2 = 1)
    by (rewrite <- magnitude_sq, Hn; ring).
  destruct v as [vx vy], n as [nx ny].
  unfold Vector2D.reflect. cbn [Vector2D.x Vector2D.y] in *.
  f_equal.
  - replace (vx - 2 * (vx * nx + vy * ny) * nx
             - 2 * ((vx - 2 * (vx * nx + vy * ny) * nx) * nx
                    + (vy - 2 * (vx * nx + vy * ny) * ny) * ny) * nx)
      with (vx + 4 * (vx * nx + vy * ny) * nx * (nx ^ 2 + ny ^ 2 - 1))
      by ring.
    rewrite Hsq. ring.
  - replace (vy - 2 * (vx * nx + vy * ny) * ny
             - 2 * ((vx - 2 * (vx * nx + vy * ny) * nx) * nx
                    + (vy - 2 * (vx * nx + vy * ny) * ny) * ny) * ny)
      with (vy + 4 * (vx * nx + vy * ny) * ny * (nx ^ 2 + ny ^ 2 - 1))
      by ring.
    rewrite Hsq. ring.
Qed.

Lemma reflect_involution_witness :
  Vector2D.magnitude (Vector2D.mk 0 1) = 1
  /\ Vector2D.reflect (Vector2D.reflect (Vector2D.mk 1 (-1)) (Vector2D.mk 0 1))
                      (Vector2D.mk 0 1)
     = Vector2D.mk 1 (-1).
Proof.
  assert (Hn : Vector2D.magnitude (Vector2D.mk 0 1) = 1).
  { unfold Vector2D.magnitude. cbn [Vector2D.x Vector2D.y].
    replace (0 ^ 2 + 1 ^ 2) with 1 by ring. apply sqrt_1. }
  split; [exact Hn |].
  exact (reflect_involution (Vector2D.mk 1 (-1)) (Vector2D.mk 0 1) Hn).
Defined.

(** ** The paddle *)

(** X7.  [Paddle.update] never leaves the paddle left of 0, and in a field at
    least as wide as the paddle it leaves it inside the field, wherever the
    pointer is and whatever [dt]; the velocity is ten times the distance to
    the target, and nothing else of the paddle changes. *)
Theorem paddle_update_clamped (p : Paddle.t) (dt : R)
        (mouse_x field_width : Z) :
  let p' := Paddle.update p dt mouse_x field_width in
  0 <= Paddle.x p'
  /\ ((Paddle.width p <= field_width)%Z ->
      Paddle.x p' <= IZR (field_width - Paddle.width p))
  /\ Paddle.vel p' = (IZR (mouse_x - Paddle.width p / 2) - Paddle.x p) * 10
  /\ Paddle.y p' = Paddle.y p /\ Paddle.width p' = Paddle.width p
  /\ Paddle.height p' = Paddle.height p
  /\ Paddle.base_width p' = Paddle.base_width p
  /\ Paddle.sticky p' = Paddle.sticky p.
Proof.
  cbn zeta. unfold Paddle.update.
  cbn [Paddle.x Paddle.y Paddle.width Paddle.height Paddle.base_width
       Paddle.vel Paddle.sticky].
  split; [apply Rmax_l | split; [| repeat split]].
  intros Hfits. apply IZR_le in Hfits.
  rewrite !minus_IZR.
  apply Rmax_lub; [lra | apply Rmin_r].
Qed.

(** The test of the suite: a paddle at 0 pulled towards a pointer at -100
    stays at 0, and one at 700 pulled towards 900 stays at 700. *)
Lemma paddle_update_clamped_witness :
  (Paddle.width (Paddle.__init__ 700 550) <= 800)%Z
  /\ 0 <= Paddle.x (Paddle.update (Paddle.__init__ 0 550) (1 / 10) (-100) 800)
  /\ Paddle.x (Paddle.update (Paddle.__init__ 700 550) (1 / 10) 900 800)
     <= 700.
Proof.
  assert (Hfits : (Paddle.width (Paddle.__init__ 700 550) <= 800)%Z)
    by (cbn; lia).
  split; [exact Hfits | split].
  - exact (proj1 (paddle_update_clamped (Paddle.__init__ 0 550) (1 / 10)
                    (-100) 800)).
  - exact (proj1 (proj2 (paddle_update_clamped (Paddle.__init__ 700 550)
                           (1 / 10) 900 800)) Hfits).
Defined.

Lemma clamped_offset_angle (offset : R) :
  let angle := Rmax (-1) (Rmin 1 offset) * PI / 3 in
  - (PI / 3) <= angle <= PI / 3
  /\ (offset < 0 -> angle < 0)
  /\ (offset = 0 -> angle = 0)
  /\ (0 < offset -> 0 < angle).
Proof.
  cbn zeta. pose proof PI_RGT_0 as Hpi.
  set (r := Rmax (-1) (Rmin 1 offset)).
  assert (Hr : -1 <= r <= 1).
  { unfold r. split; [apply Rmax_l |].
    apply Rmax_lub; [lra | apply Rmin_l]. }
  assert (Hneg : offset < 0 -> r < 0).
  { intros Ho. unfold r. apply Rmax_lub_lt; [lra |].
    apply Rle_lt_trans with offset; [apply Rmin_r | exact Ho]. }
  assert (Hzero : offset = 0 -> r = 0).
  { intros ->. unfold r. rewrite Rmin_right by lra. apply Rmax_right. lra. }
  assert (Hpos : 0 < offset -> 0 < r).
  { intros Ho. unfold r. apply Rlt_le_trans with (Rmin 1 offset);
      [apply Rmin_glb_lt; lra | apply Rmax_r]. }
  repeat split.
  - nra.
  - nra.
  - intros Ho. specialize (Hneg Ho). nra.
  - intros Ho. rewrite (Hzero Ho). lra.
  - intros Ho. specialize (Hpos Ho). nra.
Qed.

(** X8.  The normal of a paddle hit points up the field, within 60 degrees of
    the vertical, and leans to the side of the paddle that was hit: to the
    left for a hit left of the centre, to the right for a hit right of it,
    and straight up for a hit at the centre. *)
Theorem collision_normal_direction (p : Paddle.t) (ball_x : R) :
  (0 < Paddle.width p)%Z ->
  let centre := Paddle.x p + IZR (Paddle.width p) / 2 in
  let n := Paddle.get_collision_normal p ball_x in
  Vector2D.y n <= - (1 / 2)
  /\ (ball_x < centre -> Vector2D.x n < 0)
  /\ (ball_x = centre -> n = Vector2D.mk 0 (-1))
  /\ (centre < ball_x -> 0 < Vector2D.x n).
Proof.
  intros Hw centre n. apply IZR_lt in Hw.
  pose proof PI_RGT_0 as Hpi.
  set (offset := (ball_x - centre) / (IZR (Paddle.width p) / 2)).
  destruct (clamped_offset_angle offset) as ([Hlo Hhi] & Hneg & Hzero & Hpos).
  assert (Hn : n = Vector2D.mk
                     (sin (Rmax (-1) (Rmin 1 offset) * PI / 3))
                     (- cos (Rmax (-1) (Rmin 1 offset) * PI / 3)))
    by reflexivity.
  set (angle := Rmax (-1) (Rmin 1 offset) * PI / 3) in *.
  assert (Hhalf : 0 < IZR (Paddle.width p) / 2) by lra.
  assert (Hcos : 1 / 2 <= cos angle).
  { rewrite <- cos_PI3.
    destruct (Rle_dec 0 angle) as [Hge | Hlt].
    - apply cos_decr_1; lra.
    - rewrite <- (cos_neg angle). apply cos_decr_1; lra. }
  rewrite Hn. cbn [Vector2D.x Vector2D.y]. repeat split.
  - lra.
  - intros Hleft.
    assert (Ho : offset < 0).
    { pose proof (Rinv_0_lt_compat _ Hhalf) as Hinv.
      unfold offset, Rdiv. nra. }
    specialize (Hneg Ho).
    rewrite <- (Ropp_involutive angle), sin_neg.
    pose proof (sin_gt_0 (- angle)) as Hs. lra.
  - intros Hcentre.
    assert (Ho : offset = 0).
    { unfold offset. rewrite Hcentre. unfold Rdiv. ring_simplify.
      reflexivity. }
    rewrite (Hzero Ho), sin_0, cos_0. reflexivity.
  - intros Hright.
    assert (Ho : 0 < offset).
    { pose proof (Rinv_0_lt_compat _ Hhalf) as Hinv.
      unfold offset, Rdiv. nra. }
    specialize (Hpos Ho). apply sin_gt_0; lra.
Qed.

(** The test of the suite, for the paddle at 350: hits at 350, 400 and
    450. *)
Lemma collision_normal_direction_witness :
  (0 < Paddle.width (Paddle.__init__ 350 550))%Z
  /\ Vector2D.x (Paddle.get_collision_normal (Paddle.__init__ 350 550) 350) < 0
  /\ Paddle.get_collision_normal (Paddle.__init__ 350 550) 400
     = Vector2D.mk 0 (-1)
  /\ 0 < Vector2D.x (Paddle.get_collision_normal (Paddle.__init__ 350 550) 450).
Proof.
  assert (Hw : (0 < Paddle.width (Paddle.__init__ 350 550))%Z) by (cbn; lia).
  split; [exact Hw | split; [| split]].
  - apply (proj1 (proj2 (collision_normal_direction
                           (Paddle.__init__ 350 550) 350 Hw))).
    cbn [Paddle.__init__ Paddle.x Paddle.width]. lra.
  - apply (proj1 (proj2 (proj2 (collision_normal_direction
                                  (Paddle.__init__ 350 550) 400 Hw)))).
    cbn [Paddle.__init__ Paddle.x Paddle.width]. lra.
  - apply (proj2 (proj2 (proj2 (collision_normal_direction
                                  (Paddle.__init__ 350 550) 450 Hw)))).
    cbn [Paddle.__init__ Paddle.x Paddle.width]. lra.
Defined.

(** ** A hit at the end of the paddle *)

(** X9.  A ball that meets the paddle at or beyond its right end is reflected
    about the normal at 60 degrees, and the vertical velocity it leaves
    with is [vy / 2 + vx * sqrt 3 / 2]: a ball that came down while moving
    to the right (or straight down) is still moving down after the
    bounce. *)
Theorem edge_hit_keeps_falling (self : ArkanoidGame.t) (ball : Ball.t) :
  let p := ArkanoidGame.paddle self in
  let after := ArkanoidGame.paddle_bounce self ball in
  (0 < Paddle.width p)%Z ->
  Paddle.x p + IZR (Paddle.width p) <= Vector2D.x (Ball.pos ball) ->
  0 <= Vector2D.x (Ball.vel ball) ->
  0 < Vector2D.y (Ball.vel ball) ->
  Vector2D.y (Ball.vel after)
  = Vector2D.y (Ball.vel ball) / 2
    + Vector2D.x (Ball.vel ball) * (sqrt 3 / 2)
  /\ 0 < Vector2D.y (Ball.vel after)
  /\ Vector2D.y (Ball.pos after) = Paddle.y p - IZR (Ball.radius ball).
Proof.
  cbn zeta. intros Hw Hx Hvx Hvy.
  assert (Hhalf : 0 < IZR (Paddle.width (ArkanoidGame.paddle self)) / 2)
    by (apply IZR_lt in Hw; lra).
  assert (Hclamp :
            Rmax (-1)
              (Rmin 1
                 ((Vector2D.x (Ball.pos ball)
                   - (Paddle.x (ArkanoidGame.paddle self)
                      + IZR (Paddle.width (ArkanoidGame.paddle self)) / 2))
                  / (IZR (Paddle.width (ArkanoidGame.paddle self)) / 2)))
            = 1).
  { rewrite Rmin_left; [apply Rmax_right; lra |].
    pose proof (Rinv_0_lt_compat _ Hhalf) as Hinv.
    assert (Hone : IZR (Paddle.width (ArkanoidGame.paddle self)) / 2
                   * / (IZR (Paddle.width (ArkanoidGame.paddle self)) / 2)
                   = 1) by (field; lra).
    unfold Rdiv at 1. nra. }
  assert (Hy : Vector2D.y (Ball.vel (ArkanoidGame.paddle_bounce self ball))
               = Vector2D.y (Ball.vel ball) / 2
                 + Vector2D.x (Ball.vel ball) * (sqrt 3 / 2)).
  { unfold ArkanoidGame.paddle_bounce. cbn [Ball.vel Vector2D.y].
    rewrite normalize_rescale.
    unfold Paddle.get_collision_normal. rewrite Hclamp.
    replace (1 * PI / 3) with (PI / 3) by lra.
    rewrite sin_PI3, cos_PI3. unfold Vector2D.reflect.
    cbn [Vector2D.x Vector2D.y]. lra. }
  split; [exact Hy | split; [| reflexivity]].
  rewrite Hy. pose proof (sqrt_pos 3) as Hs. nra.
Qed.

(** The ball 2 right of the end of [paddle_rest], coming down to the
    right. *)
Lemma edge_hit_keeps_falling_witness :
  0 < Vector2D.y
        (Ball.vel
           (ArkanoidGame.paddle_bounce
              (game_with PLAYING 3 [] [brick_a])
              (Ball.mk (Vector2D.mk 452 545) (Vector2D.mk 100 300) 8 [] 1))).
Proof.
  refine (proj1 (proj2 (edge_hit_keeps_falling
                          (game_with PLAYING 3 [] [brick_a])
                          (Ball.mk (Vector2D.mk 452 545)
                                   (Vector2D.mk 100 300) 8 [] 1)
                          _ _ _ _))).
  - cbn. lia.
  - cbn. lra.
  - cbn. lra.
  - cbn. lra.
Defined.

(** ** Bricks *)

Lemma hit_times_fields (k : nat) (b : Brick.t) :
  let b' := fst (hit_times k b) in
  Brick.health b' = (Brick.health b - Z.of_nat k)%Z
  /\ Brick.max_health b' = Brick.max_health b
  /\ Brick.points b' = Brick.points b
  /\ Brick.powerup b' = Brick.powerup b
  /\ Brick.x b' = Brick.x b /\ Brick.y b' = Brick.y b
  /\ Brick.width b' = Brick.width b /\ Brick.height b' = Brick.height b.
Proof.
  induction k as [| k IH].
  - cbn. repeat split. lia.
  - cbn zeta in *. cbn [hit_times]. unfold Brick.hit.
    cbn [fst Brick.health Brick.max_health Brick.points Brick.powerup
         Brick.x Brick.y Brick.width Brick.height].
    destruct IH as (Hh & Hrest). rewrite Hh.
    split; [lia | exact Hrest].
Qed.

(** X10.  A brick is destroyed by the hit that takes its health to 0 and by no
    earlier one: the [k]-th call of [hit] returns [True] exactly when the
    health was at most [k]; each call takes one health, and nothing else of
    the brick changes.  A brick of health 2 thus takes exactly 2 hits. *)
Theorem brick_destroyed_on_last_hit (b : Brick.t) (k : nat) :
  (1 <= k)%nat ->
  (snd (hit_times k b) = true <-> (Brick.health b <= Z.of_nat k)%Z)
  /\ Brick.health (fst (hit_times k b)) = (Brick.health b - Z.of_nat k)%Z
  /\ Brick.max_health (fst (hit_times k b)) = Brick.max_health b
  /\ Brick.points (fst (hit_times k b)) = Brick.points b.
Proof.
  intros Hk. destruct k as [| k]; [lia |].
  destruct (hit_times_fields (S k) b) as (Hh & Hm & Hp & _).
  split; [| repeat split; assumption].
  cbn [hit_times]. unfold Brick.hit. cbn [snd].
  destruct (hit_times_fields k b) as (Hhk & _). rewrite Hhk.
  rewrite Z.leb_le. lia.
Qed.

(** The brick of the test suite: health 2, not destroyed by the first hit,
    destroyed by the second. *)
Lemma brick_destroyed_on_last_hit_witness :
  let b := Brick.mk 100 50 75 25 2 2 200 None in
  (1 <= 1)%nat /\ (1 <= 2)%nat
  /\ snd (hit_times 1 b) = false
  /\ snd (hit_times 2 b) = true
  /\ Brick.health (fst (hit_times 2 b)) = 0%Z.
Proof.
  intros b.
  assert (H1 : (1 <= 1)%nat) by lia. assert (H2 : (1 <= 2)%nat) by lia.
  split; [exact H1 | split; [exact H2 | split; [| split]]].
  - destruct (snd (hit_times 1 b)) eqn:Hs; [| reflexivity].
    apply (proj1 (brick_destroyed_on_last_hit b 1 H1)) in Hs.
    cbn in Hs. lia.
  - apply (proj1 (brick_destroyed_on_last_hit b 2 H2)). cbn. lia.
  - exact (proj1 (proj2 (brick_destroyed_on_last_hit b 2 H2))).
Defined.

(** ** The trail of a ball *)

Lemma Ball_update_pos_trail (b : Ball.t) (dt : R) (width height : Z) :
  let pos' :=
    Vector2D.__add__ (Ball.pos b)
      (Vector2D.__mul__ (Ball.vel b) (dt * Ball.speed_multiplier b)) in
  let b' := fst (Ball.update b dt width height) in
  Ball.pos b' = pos'
  /\ Ball.trail b'
     = last_n 10 (Ball.trail b ++ [(Vector2D.x pos', Vector2D.y pos')])
  /\ Ball.radius b' = Ball.radius b
  /\ Ball.speed_multiplier b' = Ball.speed_multiplier b.
Proof.
  cbn zeta. rewrite Ball_update_eq. cbn [fst].
  repeat match goal with |- context [if ?c then _ else _] => destruct c end;
    repeat split; reflexivity.
Qed.

(** X11.  [update] moves the ball by velocity * dt * speed_multiplier, appends
    the new position to the trail and keeps the last 10 positions: the
    trail never holds more than 10 positions, it ends with the position of
    the ball, and what it drops is dropped from the old end.  Radius and
    speed multiplier are as before. *)
Theorem ball_trail_bounded (b : Ball.t) (dt : R) (width height : Z) :
  let b' := fst (Ball.update b dt width height) in
  Ball.pos b'
  = Vector2D.__add__ (Ball.pos b)
      (Vector2D.__mul__ (Ball.vel b) (dt * Ball.speed_multiplier b))
  /\ length (Ball.trail b') = Nat.min (S (length (Ball.trail b))) 10
  /\ (length (Ball.trail b') <= 10)%nat
  /\ last (Ball.trail b') (0, 0)
     = (Vector2D.x (Ball.pos b'), Vector2D.y (Ball.pos b'))
  /\ (exists dropped,
         Ball.trail b
         ++ [(Vector2D.x (Ball.pos b'), Vector2D.y (Ball.pos b'))]
         = dropped ++ Ball.trail b')
  /\ Ball.radius b' = Ball.radius b
  /\ Ball.speed_multiplier b' = Ball.speed_multiplier b.
Proof.
  cbn zeta.
  destruct (Ball_update_pos_trail b dt width height)
    as (Hpos & Htrail & Hr & Hm).
  cbn zeta in Hpos, Htrail. rewrite Htrail, Hpos.
  set (pos' := Vector2D.__add__ _ _).
  set (full := Ball.trail b ++ [(Vector2D.x pos', Vector2D.y pos')]).
  assert (Hlen : length full = S (length (Ball.trail b)))
    by (unfold full; rewrite length_app; cbn; lia).
  assert (Hsplit : full = firstn (length full - 10) full ++ last_n 10 full)
    by (unfold last_n; symmetry; apply firstn_skipn).
  assert (Hcount : length (last_n 10 full)
                   = Nat.min (S (length (Ball.trail b))) 10)
    by (unfold last_n; rewrite length_skipn, Hlen; lia).
  split; [reflexivity |]. split; [exact Hcount |]. split; [lia |].
  split; [| split].
  - assert (Hne : last_n 10 full <> []).
    { intros Hnil. rewrite Hnil in Hcount. cbn in Hcount. lia. }
    pose proof (app_removelast_last (0, 0) Hne) as Hlast.
    assert (Hfull : full = (firstn (length full - 10) full
                            ++ removelast (last_n 10 full))
                           ++ [last (last_n 10 full) (0, 0)])
      by (rewrite <- app_assoc, <- Hlast; exact Hsplit).
    unfold full at 1 in Hfull.
    apply app_inj_tail in Hfull. destruct Hfull as [_ Heq].
    symmetry. exact Heq.
  - exists (firstn (length full - 10) full). exact Hsplit.
  - split; assumption.
Qed.

(** ** The walls *)

(** A ball that has crossed the right wall alone is turned back, and so is
    one that has crossed the top wall; [corner_ball], which a frame of
    1/64 s takes across the top and the left wall at once, is turned down
    and keeps moving left. *)
Lemma Ball_update_walls_witness :
  let right_ball :=
    Ball.mk (Vector2D.mk 790 300) (Vector2D.mk 100 0) 8 [] 1 in
  let top_ball :=
    Ball.mk (Vector2D.mk 400 10) (Vector2D.mk 0 (-100)) 8 [] 1 in
  Vector2D.x (Ball.vel (fst (Ball.update right_ball (1 / 8) 800 600))) <= 0
  /\ Vector2D.y (Ball.vel (fst (Ball.update top_ball (1 / 8) 800 600))) >= 0
  /\ Ball.vel (fst (Ball.update corner_ball (1 / 64) 800 600))
     = Vector2D.mk (-200) (Rabs (-300)).
Proof.
  intros right_ball top_ball. split; [| split].
  3: {
    apply (proj1 (proj2 (proj2 (proj2
                   (Ball_update_walls corner_ball (1 / 64) 800 600))))).
    rewrite (proj1 (Ball_update_pos_trail corner_ball (1 / 64) 800 600)).
    cbn [corner_ball Ball.pos Ball.vel Ball.radius Ball.speed_multiplier
         Vector2D.__add__ Vector2D.__mul__ Vector2D.x Vector2D.y].
    lra. }
  - apply (proj1 (proj2 (Ball_update_walls right_ball (1 / 8) 800 600))).
    + rewrite (proj1 (Ball_update_pos_trail right_ball (1 / 8) 800 600)).
      cbn [right_ball Ball.pos Ball.vel Ball.radius Ball.speed_multiplier
           Vector2D.__add__ Vector2D.__mul__ Vector2D.x Vector2D.y].
      lra.
    + rewrite (proj1 (Ball_update_pos_trail right_ball (1 / 8) 800 600)).
      cbn [right_ball Ball.pos Ball.vel Ball.radius Ball.speed_multiplier
           Vector2D.__add__ Vector2D.__mul__ Vector2D.x Vector2D.y].
      lra.
  - apply (proj1 (Ball_update_walls top_ball (1 / 8) 800 600)).
    rewrite (proj1 (Ball_update_pos_trail top_ball (1 / 8) 800 600)).
    cbn [top_ball Ball.pos Ball.vel Ball.radius Ball.speed_multiplier
         Vector2D.__add__ Vector2D.__mul__ Vector2D.x Vector2D.y].
    lra.
Defined.

(** ** The draws of a new brick *)

Section BrickDraws.
Context `{RandomSource}.

(** X12.  A new brick is 75 x 25, at full health and worth 100 points for each
    unit of it.  It carries a power-up exactly when the first draw is below
    1/10; the kind is then the one a second draw names, and the conversion
    of the drawn number to a kind is defined for every number
    [randint(1, 6)] gives.  Otherwise there is no second draw. *)
Theorem brick_powerup_draw (x y health : Z) (i : nat) :
  let b := fst (Brick.__init__ x y health i) in
  let next := snd (Brick.__init__ x y health i) in
  b = Brick.mk x y 75 25 health health (health * 100) (Brick.powerup b)
  /\ (fst (random i) < 1 / 10 ->
      (exists kind, Brick.powerup b = Some kind)
      /\ Brick.powerup b = PowerUpType_of_value (fst (randint 1 6 (S i)))
      /\ next = S (S i))
  /\ (1 / 10 <= fst (random i) -> Brick.powerup b = None /\ next = S i).
Proof.
  cbn zeta. unfold Brick.__init__, bind, ret.
  change (random i) with (IZR (entropy i mod 2 ^ 53) / IZR (2 ^ 53), S i).
  cbn [fst snd].
  destruct (Rltb (IZR (entropy i mod 2 ^ 53) / IZR (2 ^ 53)) (1 / 10))
    eqn:Hdraw.
  - apply Rltb_spec in Hdraw.
    pose proof (powerup_draw_defined (S i)) as Hkind.
    change (randint 1 6 (S i))
      with ((1 + entropy (S i) mod (6 - 1 + 1))%Z, S (S i)) in *.
    cbn [fst snd Brick.powerup] in *.
    split; [reflexivity | split]; [| intros Hge; lra].
    intros _. split; [exact Hkind | split; reflexivity].
  - assert (Hge : 1 / 10 <= IZR (entropy i mod 2 ^ 53) / IZR (2 ^ 53)).
    { destruct (Rlt_dec (IZR (entropy i mod 2 ^ 53) / IZR (2 ^ 53)) (1 / 10))
        as [Hlt | Hge]; [| lra].
      apply Rltb_spec in Hlt. congruence. }
    cbn [fst snd Brick.powerup].
    split; [reflexivity | split]; [intros Hlt; lra |].
    intros _. split; reflexivity.
Qed.
End BrickDraws.

(** Under [steady_source] every draw of [random()] is 1/2: no power-up. *)
Lemma brick_powerup_draw_witness :
  1 / 10 <= fst (@random steady_source 0%nat)
  /\ Brick.powerup (fst (@Brick.__init__ steady_source 10 60 5 0%nat)) = None.
Proof.
  assert (Hdraw : 1 / 10 <= fst (@random steady_source 0%nat)).
  { rewrite steady_random. cbn [fst]. lra. }
  split; [exact Hdraw |].
  exact (proj1 (proj2 (proj2 (@brick_powerup_draw steady_source 10 60 5 0%nat))
                  Hdraw)).
Defined.

(** ** Particles *)


Section ParticleBursts.
Context `{RandomSource}.
Import ArkanoidGame.

(** [random()] lies in [[0, 1)]. *)
Lemma random_range (i : nat) : 0 <= fst (random i) < 1 /\ snd (random i) = S i.
Proof.
  unfold random. cbn [fst snd].
  pose proof (Z.mod_pos_bound (entropy i) (2 ^ 53) eq_refl) as [Hlo Hhi].
  apply IZR_le in Hlo. apply IZR_lt in Hhi.
  assert (Hpos : 0 < IZR (2 ^ 53)) by (apply IZR_lt; reflexivity).
  split; [| reflexivity]. split.
  - apply Rmult_le_pos; [exact Hlo |].
    apply Rlt_le, Rinv_0_lt_compat, Hpos.
  - apply Rmult_lt_reg_r with (IZR (2 ^ 53)); [exact Hpos |].
    unfold Rdiv. rewrite Rmult_assoc, Rinv_l by lra. lra.
Qed.

(** [uniform(a, b)] lies in [[a, b)] when [a < b]. *)
Lemma uniform_range (a b : R) (i : nat) :
  a < b -> a <= fst (uniform a b i) < b /\ snd (uniform a b i) = S i.
Proof.
  intros Hab. unfold uniform, bind, ret.
  destruct (random_range i) as [[Hlo Hhi] Hnext].
  destruct (random i) as [u j]. cbn [fst snd] in *.
  split; [nra | exact Hnext].
Qed.

(** A new particle: one draw, for its size in [[2, 5)]. *)
Lemma Particle_init_eq (x y : R) (v : Vector2D.t) (i : nat) :
  exists s : R,
    2 <= s < 5
    /\ Particle.__init__ x y v i
       = (Particle.mk (Vector2D.mk x y) v 1 s, S i).
Proof.
  unfold Particle.__init__, bind, ret.
  destruct (uniform_range 2 5 i) as [Hs Hk]; [lra |].
  destruct (uniform 2 5 i) as [s k]. cbn [fst snd] in *.
  exists s. split; [exact Hs | rewrite Hk; reflexivity].
Qed.

Lemma mapM_spec {A B} (f : A -> Rand B) (P : B -> Prop) (k : nat)
      (xs : list A) (i : nat) :
  (forall a j, P (fst (f a j)) /\ snd (f a j) = (j + k)%nat) ->
  Forall P (fst (mapM f xs i))
  /\ length (fst (mapM f xs i)) = length xs
  /\ snd (mapM f xs i) = (i + k * length xs)%nat.
Proof.
  intros Hf. revert i. induction xs as [| a xs IH]; intros i.
  - cbn. repeat split; [constructor | lia].
  - cbn [mapM]. unfold bind, ret.
    destruct (Hf a i) as [HP Hj].
    destruct (f a i) as [b j]. cbn [fst snd] in *.
    destruct (IH j) as (HPs & Hlen & Hk).
    destruct (mapM f xs j) as [bs m]. cbn [fst snd length] in *.
    repeat split; [constructor; assumption | lia | lia].
Qed.

(** One velocity of [_create_particles]: two draws. *)
Lemma burst_velocity_range (a : Z) (j : nat) :
  let v := (vx <- uniform (-200) 200 ;;
            vy <- uniform (-300) (-100) ;;
            ret (Vector2D.mk vx vy))%rand j in
  (-200 <= Vector2D.x (fst v) < 200 /\ -300 <= Vector2D.y (fst v) < -100)
  /\ snd v = (j + 2)%nat.
Proof.
  cbn zeta. unfold bind, ret.
  destruct (uniform_range (-200) 200 j) as [Hx Hjx]; [lra |].
  destruct (uniform (-200) 200 j) as [vx jx]. cbn [fst snd] in *.
  destruct (uniform_range (-300) (-100) jx) as [Hy Hjy]; [lra |].
  destruct (uniform (-300) (-100) jx) as [vy jy]. cbn [fst snd] in *.
  cbn [Vector2D.x Vector2D.y]. repeat split; try lra. lia.
Qed.

(** The particles made from a list of velocities: one draw each. *)
Lemma burst_particles (x y : R) (vs : list Vector2D.t) (k : nat) :
  Forall (fun v => -200 <= Vector2D.x v < 200
                   /\ -300 <= Vector2D.y v < -100) vs ->
  let ps := mapM (fun vel => Particle.__init__ x y vel) vs k in
  Forall (burst_particle x y) (fst ps)
  /\ length (fst ps) = length vs
  /\ snd ps = (k + length vs)%nat.
Proof.
  revert k. induction vs as [| v vs IH]; intros k Hvs.
  - cbn. repeat split; [constructor | lia].
  - inversion Hvs as [| v' vs' Hv Hrest]; subst.
    cbn zeta. cbn [mapM]. unfold bind, ret.
    destruct (Particle_init_eq x y v k) as (s & Hs & ->).
    destruct (IH (S k) Hrest) as (HP & Hl & Hn). cbn zeta in HP, Hl, Hn.
    destruct (mapM _ vs (S k)) as [ps m]. cbn [fst snd length] in *.
    split; [| split; lia].
    constructor; [| exact HP].
    unfold burst_particle.
    cbn [Particle.pos Particle.life Particle.size Particle.vel].
    repeat split; lra.
Qed.

(** What [_create_particles] adds to the list. *)
Lemma create_particles_burst (self : t) (x y : R) (count : Z) (i : nat) :
  exists ps : list Particle.t,
    fst (_create_particles self x y count i)
    = set_particles self (particles self ++ ps)
    /\ Forall (burst_particle x y) ps
    /\ length ps = Z.to_nat count.
Proof.
  assert (Hlen : length (range count) = Z.to_nat count)
    by (unfold range; rewrite length_map, length_seq; reflexivity).
  unfold _create_particles.
  match goal with
  | |- context [mapM ?f (range count)] => set (velocity := f)
  end.
  destruct (mapM_spec velocity
              (fun v => -200 <= Vector2D.x v < 200
                        /\ -300 <= Vector2D.y v < -100)
              2 (range count) i)
    as (Hvs & Hvlen & _);
    [intros a j; exact (burst_velocity_range a j) |].
  unfold bind, ret.
  destruct (mapM velocity (range count) i) as [vs j].
  cbn [fst] in Hvs, Hvlen.
  destruct (burst_particles x y vs j Hvs) as (HP & Hl & _).
  cbn zeta in HP, Hl.
  destruct (mapM _ vs j) as [ps m]. cbn [fst snd] in *.
  exists ps. split; [reflexivity | split; [exact HP | lia]].
Qed.

(** X14.  [_create_particles(x, y, count)] appends exactly [count] particles
    (none for a negative count) and changes nothing else of the game; each
    new particle is at (x, y) with life 1, a size in [[2, 5)] and a
    velocity up the field, in [[-200, 200)] x [[-300, -100)]; three draws
    are made per particle. *)
Theorem create_particles_count (self : t) (x y : R) (count : Z) (i : nat) :
  exists ps : list Particle.t,
    fst (_create_particles self x y count i)
    = set_particles self (particles self ++ ps)
    /\ length ps = Z.to_nat count
    /\ Forall (burst_particle x y) ps
    /\ snd (_create_particles self x y count i)
       = (i + 3 * Z.to_nat count)%nat.
Proof.
  assert (Hlen : length (range count) = Z.to_nat count)
    by (unfold range; rewrite length_map, length_seq; reflexivity).
  unfold _create_particles.
  match goal with
  | |- context [mapM ?f (range count)] => set (velocity := f)
  end.
  destruct (mapM_spec velocity
              (fun v => -200 <= Vector2D.x v < 200
                        /\ -300 <= Vector2D.y v < -100)
              2 (range count) i)
    as (Hvs & Hvlen & Hvnext);
    [intros a j; exact (burst_velocity_range a j) |].
  unfold bind, ret.
  destruct (mapM velocity (range count) i) as [vs j].
  cbn [fst snd] in Hvs, Hvlen, Hvnext.
  destruct (burst_particles x y vs j Hvs) as (HP & Hl & Hn).
  cbn zeta in HP, Hl, Hn.
  destruct (mapM _ vs j) as [ps m]. cbn [fst snd] in *.
  exists ps. repeat split; try assumption; lia.
Qed.
End ParticleBursts.

(** ** Collecting the same power-up again and again *)

Section Collecting.
Context `{RandomSource}.
Import ArkanoidGame.

(** X15.  Expand Paddle collected [n] times in a row widens a paddle of width at
    most 200 by 30 each time up to the cap of 200, where it stays; the
    score grows by 50 each time, and nothing else of the game changes. *)
Theorem expand_paddle_repeated (n : nat) (self : t) (i : nat) :
  (Paddle.width (paddle self) <= 200)%Z ->
  collect_all (repeat EXPAND_PADDLE n) self i
  = (set_score
       (set_paddle self
          (Paddle.set_width (paddle self)
             (Z.min (Paddle.width (paddle self) + 30 * Z.of_nat n) 200)))
       (score self + 50 * Z.of_nat n),
     i).
Proof.
  revert self. induction n as [| n IH]; intros self Hw.
  - cbn [repeat collect_all foldM]. unfold collect_all, ret. cbn [foldM].
    unfold ret. f_equal.
    destruct self as [w h st sc lv lvl p bs br pa pw].
    destruct p as [px py pwid ph pb pv ps].
    cbn [paddle score Paddle.width] in *.
    unfold set_score, set_paddle, Paddle.set_width.
    cbn [width height state score lives level paddle balls bricks particles
         powerups Paddle.x Paddle.y Paddle.width Paddle.height
         Paddle.base_width Paddle.vel Paddle.sticky].
    replace (Z.min (pwid + 30 * Z.of_nat 0) 200) with pwid by lia.
    replace (sc + 50 * Z.of_nat 0)%Z with sc by lia.
    reflexivity.
  - cbn [repeat]. unfold collect_all in *. cbn [foldM]. unfold bind.
    change (_apply_powerup self EXPAND_PADDLE i)
      with (set_score
              (set_paddle self
                 (Paddle.set_width (paddle self)
                    (Z.min (Paddle.width (paddle self) + 30) 200)))
              (score self + 50), i).
    cbv beta iota.
    rewrite IH by (cbn [paddle set_score set_paddle Paddle.set_width
                        Paddle.width]; lia).
    cbn [paddle score set_score set_paddle Paddle.set_width Paddle.width].
    f_equal. unfold set_score, set_paddle, Paddle.set_width.
    cbn [width height state score lives level paddle balls bricks particles
         powerups Paddle.x Paddle.y Paddle.width Paddle.height
         Paddle.base_width Paddle.vel Paddle.sticky].
    rewrite Nat2Z.inj_succ.
    f_equal; [lia |]. f_equal. lia.
Qed.

End Collecting.

(** From the width 100 of a new paddle: 130 after one, 200 after four and
    after five. *)
Lemma expand_paddle_repeated_witness :
  (Paddle.width (ArkanoidGame.paddle game_in_play) <= 200)%Z
  /\ Paddle.width
       (ArkanoidGame.paddle
          (fst (@collect_all steady_source (repeat EXPAND_PADDLE 1)
                             game_in_play 0%nat))) = 130%Z
  /\ Paddle.width
       (ArkanoidGame.paddle
          (fst (@collect_all steady_source (repeat EXPAND_PADDLE 4)
                             game_in_play 0%nat))) = 200%Z
  /\ Paddle.width
       (ArkanoidGame.paddle
          (fst (@collect_all steady_source (repeat EXPAND_PADDLE 5)
                             game_in_play 0%nat))) = 200%Z.
Proof.
  assert (Hw : (Paddle.width (ArkanoidGame.paddle game_in_play) <= 200)%Z)
    by (cbn; lia).
  split; [exact Hw |].
  rewrite (@expand_paddle_repeated steady_source 1 game_in_play 0%nat Hw).
  rewrite (@expand_paddle_repeated steady_source 4 game_in_play 0%nat Hw).
  rewrite (@expand_paddle_repeated steady_source 5 game_in_play 0%nat Hw).
  repeat split.
Defined.

(** ** The states of a session *)

Section States.
Context `{RandomSource} `{pygame.Lib}.
Import ArkanoidGame.

Lemma check_pause_eq (evs : list pygame.Event) (self : t) :
  check_pause self evs
  = if existsb pygame.is_escape evs then set_state self PAUSED else self.
Proof.
  unfold check_pause. revert self.
  induction evs as [| e evs IH]; intros self; [reflexivity |].
  cbn [fold_left existsb]. rewrite IH.
  destruct (pygame.is_escape e), (existsb pygame.is_escape evs); reflexivity.
Qed.

Lemma handle_paused_eq (evs : list pygame.Event) (self : t) :
  _handle_paused self evs
  = if existsb pygame.is_escape evs then set_state self PLAYING else self.
Proof.
  unfold _handle_paused. revert self.
  induction evs as [| e evs IH]; intros self; [reflexivity |].
  cbn [fold_left existsb]. rewrite IH.
  destruct (pygame.is_escape e), (existsb pygame.is_escape evs); reflexivity.
Qed.

Lemma set_state_same (self : t) : set_state self (state self) = self.
Proof. destruct self; reflexivity. Qed.

(** X16.  Escape pressed while playing and Escape pressed while paused undo each
    other: the game that comes back from the pause is the game that went
    into it, whatever other events came with the two key presses. *)
Theorem pause_resume_round_trip (self : t) (evs1 evs2 : list pygame.Event) :
  state self = PLAYING ->
  existsb pygame.is_escape evs1 = true ->
  existsb pygame.is_escape evs2 = true ->
  state (check_pause self evs1) = PAUSED
  /\ _handle_paused (check_pause self evs1) evs2 = self.
Proof.
  intros Hs H1 H2. rewrite check_pause_eq, handle_paused_eq, H1, H2.
  split; [reflexivity |].
  change (set_state (set_state self PAUSED) PLAYING)
    with (set_state self PLAYING).
  rewrite <- Hs. apply set_state_same.
Qed.

(** X17.  A frame in Paused changes nothing but the state, and that only when
    Escape is among its events: nothing moves whatever [dt] and the
    pointer are, and no random number is drawn. *)
Theorem paused_frame_frozen (self : t) (inp : Input) (i : nat) :
  state self = PAUSED ->
  frame self inp i
  = (if existsb pygame.is_escape (events inp)
     then set_state self PLAYING else self, i).
Proof.
  intros Hs. unfold frame. rewrite Hs. unfold ret.
  rewrite handle_paused_eq. reflexivity.
Qed.

Lemma generate_level_eq (self : t) (lvl : Z) (i : nat) :
  exists bs j, _generate_level self lvl i = (set_bricks self bs, j)
               /\ forall self', _generate_level self' lvl i
                                = (set_bricks self' bs, j).
Proof.
  unfold _generate_level, bind, ret.
  destruct (filter_mapM _ _ i) as [bs j].
  exists bs, j. split; [reflexivity | intros; reflexivity].
Qed.

Lemma handle_menu_eq (evs : list pygame.Event) (self : t) (i : nat) :
  (existsb pygame.is_click evs = false -> _handle_menu self evs i = (self, i))
  /\ (existsb pygame.is_click evs = true ->
      exists j, _handle_menu self evs i
                = _generate_level (set_state self PLAYING) (level self) j).
Proof.
  unfold _handle_menu. revert self i.
  induction evs as [| e evs IH]; intros self i.
  - split; [reflexivity | discriminate].
  - cbn [foldM existsb]. unfold bind.
    destruct (pygame.is_click e); cbn [orb].
    + split; [discriminate | intros _].
      cbv zeta. change (level (set_state self PLAYING)) with (level self).
      destruct (generate_level_eq (set_state self PLAYING) (level self) i)
        as (bs & j & Hg & _).
      rewrite Hg.
      destruct (IH (set_bricks (set_state self PLAYING) bs) j) as [Hno Hyes].
      destruct (existsb pygame.is_click evs).
      * destruct (Hyes eq_refl) as [k Hk]. exists k. rewrite Hk.
        cbn [level set_bricks set_state].
        destruct (generate_level_eq (set_state self PLAYING) (level self) k)
          as (bs' & j' & Hg' & Hany).
        rewrite Hg'.
        rewrite (Hany (set_state (set_bricks (set_state self PLAYING) bs)
                                 PLAYING)).
        reflexivity.
      * exists i. rewrite (Hno eq_refl). symmetry. exact Hg.
    + unfold ret. apply IH.
Qed.

Lemma clicks_none (evs : list pygame.Event) :
  existsb pygame.is_click evs = false -> filter pygame.is_click evs = [].
Proof.
  induction evs as [| e evs IH]; [reflexivity |].
  cbn [existsb filter]. destruct (pygame.is_click e); [discriminate |].
  exact IH.
Qed.

Lemma clicks_some (evs : list pygame.Event) :
  existsb pygame.is_click evs = true ->
  (1 <= length (filter pygame.is_click evs))%nat.
Proof.
  induction evs as [| e evs IH]; [discriminate |].
  cbn [existsb filter]. destruct (pygame.is_click e); cbn [orb length].
  - intros _. lia.
  - exact IH.
Qed.

(** The clicks of a frame in the menu: every click generates the level
    anew, so the bricks are those of the generation at the last click. *)
Lemma handle_menu_draw (evs : list pygame.Event) (self : t) (i : nat) :
  existsb pygame.is_click evs = true ->
  exists j : nat,
    (i <= j)%nat
    /\ (length (filter pygame.is_click evs) = 1%nat -> j = i)
    /\ _handle_menu self evs i
       = _generate_level (set_state self PLAYING) (level self) j.
Proof.
  unfold _handle_menu. revert self i.
  induction evs as [| e evs IH]; intros self i; [discriminate |].
  cbn [foldM existsb filter]. unfold bind.
  destruct (pygame.is_click e); cbn [orb length].
  - intros _. cbv zeta.
    change (level (set_state self PLAYING)) with (level self).
    pose proof (generate_level_draws (set_state self PLAYING) (level self) i)
      as Hdraws.
    destruct (generate_level_eq (set_state self PLAYING) (level self) i)
      as (bs & j & Hg & _).
    rewrite Hg in *. cbn [snd] in Hdraws.
    destruct (existsb pygame.is_click evs) eqn:Hmore.
    + destruct (IH (set_bricks (set_state self PLAYING) bs) j eq_refl)
        as (k & Hk & _ & Heq).
      exists k. split; [lia |]. split.
      * pose proof (clicks_some evs Hmore). lia.
      * rewrite Heq. cbn [level set_bricks set_state].
        destruct (generate_level_eq (set_state self PLAYING) (level self) k)
          as (bs' & j' & Hg' & Hany).
        rewrite Hg'.
        rewrite (Hany (set_state (set_bricks (set_state self PLAYING) bs)
                                 PLAYING)).
        reflexivity.
    + exists i. split; [lia |]. split; [reflexivity |].
      pose proof (proj1 (handle_menu_eq evs
                           (set_bricks (set_state self PLAYING) bs) j) Hmore)
        as Hrest.
      unfold _handle_menu in Hrest. rewrite Hrest. symmetry. exact Hg.
  - unfold ret. apply IH.
Qed.

(** X18.  A frame in the menu without a click changes nothing.  With a click it
    is the call of [_generate_level] for the current level on the game set
    to Playing, at the draw [j] the last click finds (the draw of the frame
    when there is one click): the bricks become the layout of the level
    drawn from [j], in which every brick is sound; score, lives, level,
    paddle and balls are as they were. *)
Theorem menu_frame (self : t) (inp : Input) (i : nat) :
  state self = MENU ->
  (existsb pygame.is_click (events inp) = false -> frame self inp i = (self, i))
  /\ (existsb pygame.is_click (events inp) = true ->
      exists j : nat,
        (i <= j)%nat
        /\ (length (filter pygame.is_click (events inp)) = 1%nat -> j = i)
        /\ frame self inp i
           = _generate_level (set_state self PLAYING) (level self) j
        /\ fst (frame self inp i)
           = set_bricks (set_state self PLAYING)
                        (level_as_claimed (level self) j)
        /\ Forall brick_sound (level_as_claimed (level self) j)).
Proof.
  intros Hs. unfold frame. rewrite Hs.
  split; [exact (proj1 (handle_menu_eq (events inp) self i)) |].
  intros Hc.
  destruct (handle_menu_draw (events inp) self i Hc) as (j & Hj & Hone & Heq).
  exists j. rewrite Heq.
  pose proof (generate_level_sound (set_state self PLAYING) (level self) j)
    as Hsound.
  unfold bricks_sound in Hsound.
  rewrite generate_level_layout in *. cbn [bricks set_bricks] in Hsound.
  repeat split; assumption.
Qed.

Lemma init_eq (w h : Z) (i : nat) :
  exists vx bs j,
    (vx = -200 \/ vx = 200)
    /\ Forall brick_sound bs
    /\ __init__ w h i
       = (mk w h MENU 0 3 1
             (Paddle.mk (IZR (w / 2 - 50)) (IZR (h - 50)) 100 20 100 0 false)
             [Ball.mk (Vector2D.mk (IZR (w / 2)) (IZR (h - 80)))
                      (Vector2D.mk vx (-300)) 8 [] 1]
             bs [] [], j).
Proof.
  pose proof (init_sound w h i) as Hsound. revert Hsound.
  unfold __init__, bind.
  destruct (Ball_init_eq (IZR (w / 2)) (IZR (h - 80)) i) as (vx & Hvx & Hb).
  rewrite Hb. cbn [level].
  match goal with
  | |- context [_generate_level ?s ?l ?k] =>
      destruct (generate_level_eq s l k) as (bs & j & Hg & _); rewrite Hg
  end.
  intros Hsound. exists vx, bs, j. repeat split; [exact Hvx | exact Hsound].
Qed.

Lemma restart_on_click_eq (evs : list pygame.Event) (self : t) (i : nat) :
  (existsb pygame.is_click evs = false ->
   restart_on_click self evs i = (self, i))
  /\ (existsb pygame.is_click evs = true ->
      exists j, restart_on_click self evs i
                = __init__ (width self) (height self) j).
Proof.
  unfold restart_on_click. revert self i.
  induction evs as [| e evs IH]; intros self i.
  - split; [reflexivity | discriminate].
  - cbn [foldM existsb]. unfold bind.
    destruct (pygame.is_click e); cbn [orb].
    + split; [discriminate | intros _].
      destruct (init_eq (width self) (height self) i)
        as (vx & bs & j & _ & _ & Hi).
      rewrite Hi.
      match goal with
      | |- context [foldM _ evs ?s j] =>
          destruct (IH s j) as [Hno Hyes]
      end.
      destruct (existsb pygame.is_click evs).
      * destruct (Hyes eq_refl) as [k Hk]. exists k. rewrite Hk. reflexivity.
      * exists i. rewrite (Hno eq_refl). symmetry. exact Hi.
    + unfold ret. apply IH.
Qed.

(** The game [__init__] builds: the ball is drawn first, the bricks of
    level 1 from the next draw on. *)
Lemma init_layout (w h : Z) (i : nat) :
  exists vx : R,
    (vx = -200 \/ vx = 200)
    /\ fst (__init__ w h i)
       = mk w h MENU 0 3 1
            (Paddle.mk (IZR (w / 2 - 50)) (IZR (h - 50)) 100 20 100 0 false)
            [Ball.mk (Vector2D.mk (IZR (w / 2)) (IZR (h - 80)))
                     (Vector2D.mk vx (-300)) 8 [] 1]
            (level_as_claimed 1 (S i)) [] []
    /\ (i <= snd (__init__ w h i))%nat.
Proof.
  unfold __init__, bind.
  destruct (Ball_init_eq (IZR (w / 2)) (IZR (h - 80)) i) as (vx & Hvx & Hb).
  rewrite Hb. cbn [level]. exists vx. split; [exact Hvx |].
  match goal with
  | |- context [_generate_level ?s ?l ?k] =>
      pose proof (generate_level_draws s l k) as Hdraws;
      rewrite (generate_level_layout s l k)
  end.
  split; [reflexivity | lia].
Qed.

(** The clicks of a frame in Game Over or Victory: every click builds the
    game anew, so the game is the one built at the last click. *)
Lemma restart_on_click_draw (evs : list pygame.Event) (self : t) (i : nat) :
  existsb pygame.is_click evs = true ->
  exists j : nat,
    (i <= j)%nat
    /\ (length (filter pygame.is_click evs) = 1%nat -> j = i)
    /\ restart_on_click self evs i = __init__ (width self) (height self) j.
Proof.
  unfold restart_on_click. revert self i.
  induction evs as [| e evs IH]; intros self i; [discriminate |].
  cbn [foldM existsb filter]. unfold bind.
  destruct (pygame.is_click e); cbn [orb length].
  - intros _.
    destruct (init_layout (width self) (height self) i)
      as (vx & _ & Hfst & Hdraws).
    destruct (__init__ (width self) (height self) i) as [s1 j1] eqn:Hinit.
    cbn [fst snd] in Hfst, Hdraws.
    destruct (existsb pygame.is_click evs) eqn:Hmore.
    + destruct (IH s1 j1 eq_refl) as (k & Hk & _ & Heq).
      exists k. split; [lia |]. split.
      * pose proof (clicks_some evs Hmore). lia.
      * rewrite Heq, Hfst. reflexivity.
    + exists i. split; [lia |]. split; [reflexivity |].
      pose proof (proj1 (restart_on_click_eq evs s1 j1) Hmore) as Hrest.
      unfold restart_on_click in Hrest. rewrite Hrest. symmetry. exact Hinit.
  - unfold ret. apply IH.
Qed.

(** X19.  A frame in Game Over or Victory without a click changes nothing.  With
    a click it is the call of [__init__] on the same field, at the draw [j]
    the last click finds (the draw of the frame when there is one click):
    the game is in the menu, with score 0, three lives, level 1, a paddle
    of width 100 centred 50 above the bottom, one ball 80 above the bottom
    going up at 300 and sideways at 200, the layout of level 1 drawn after
    the ball, in which every brick is sound, no particle and no
    power-up. *)
Theorem restart_resets_session (self : t) (inp : Input) (i : nat) :
  state self = GAME_OVER \/ state self = VICTORY ->
  (existsb pygame.is_click (events inp) = false -> frame self inp i = (self, i))
  /\ (existsb pygame.is_click (events inp) = true ->
      exists (vx : R) (j : nat),
        (i <= j)%nat
        /\ (length (filter pygame.is_click (events inp)) = 1%nat -> j = i)
        /\ (vx = -200 \/ vx = 200)
        /\ frame self inp i = __init__ (width self) (height self) j
        /\ fst (frame self inp i)
           = mk (width self) (height self) MENU 0 3 1
                (Paddle.mk (IZR (width self / 2 - 50))
                           (IZR (height self - 50)) 100 20 100 0 false)
                [Ball.mk (Vector2D.mk (IZR (width self / 2))
                                      (IZR (height self - 80)))
                         (Vector2D.mk vx (-300)) 8 [] 1]
                (level_as_claimed 1 (S j)) [] []
        /\ Forall brick_sound (level_as_claimed 1 (S j))).
Proof.
  intros Hs.
  assert (Hf : frame self inp i = restart_on_click self (events inp) i)
    by (unfold frame; destruct Hs as [-> | ->]; reflexivity).
  rewrite Hf.
  split; [exact (proj1 (restart_on_click_eq (events inp) self i)) |].
  intros Hc.
  destruct (restart_on_click_draw (events inp) self i Hc)
    as (j & Hj & Hone & Heq).
  destruct (init_layout (width self) (height self) j)
    as (vx & Hvx & Hfst & _).
  pose proof (init_sound (width self) (height self) j) as Hsound.
  unfold bricks_sound in Hsound. rewrite Hfst in Hsound.
  cbn [bricks] in Hsound.
  exists vx, j. rewrite Heq. repeat split; assumption.
Qed.
End States.

Section Transitions.
Context `{RandomSource} `{pygame.Lib}.
Import ArkanoidGame.

Lemma last_ball_lost_state (self : t) (i : nat) :
  state (fst (last_ball_lost self i)) = state self
  \/ state (fst (last_ball_lost self i)) = GAME_OVER.
Proof.
  destruct (last_ball_lost_eq self i) as [Hpos Hneg].
  destruct (Z_le_gt_dec (lives self - 1) 0) as [Hle | Hgt].
  - right. rewrite (Hneg Hle). reflexivity.
  - left. destruct (Hpos Hgt) as (vx & _ & Heq). rewrite Heq. reflexivity.
Qed.

Lemma balls_loop_state (dt : R) (snapshot : list Ball.t) (k : nat) (self : t)
      (i : nat) :
  state (fst (balls_loop dt snapshot k self i)) = state self
  \/ state (fst (balls_loop dt snapshot k self i)) = GAME_OVER.
Proof.
  revert k self i.
  induction snapshot as [| ball rest IH]; intros k self i.
  - left. reflexivity.
  - cbn [balls_loop].
    destruct (Ball.update ball dt (width self) (height self)) as [ball' lost].
    destruct lost.
    + unfold bind.
      destruct (balls (set_balls self (remove_at k (balls self)))).
      * pose proof (last_ball_lost_state
                      (set_balls self (remove_at k (balls self))) i) as Hl.
        destruct (last_ball_lost _ i) as [s j]. cbn [fst] in Hl.
        destruct (IH k s j) as [Hs | Hs]; [| right; exact Hs].
        rewrite Hs. exact Hl.
      * unfold ret. apply (IH k (set_balls self _) i).
    + unfold bind.
      destruct (handle_collision_balls_state self ball' dt i) as [_ Hc].
      destruct (_handle_collision self ball' dt i) as [[s b] j].
      cbn [fst snd] in *.
      destruct (IH (S k) (set_balls s (store_at k b (balls s))) j)
        as [Hs | Hs]; [| right; exact Hs].
      left. rewrite Hs. exact Hc.
Qed.

(** What [_handle_playing] has reached when it comes to its pause check:
    the state is still Playing, or the frame has ended the game. *)
Lemma playing_frame_eq (self : t) (inp : Input) (i : nat) :
  state self = PLAYING ->
  exists s j,
    frame self inp i = (check_pause s (events inp), j)
    /\ (state s = PLAYING \/ state s = GAME_OVER \/ state s = VICTORY).
Proof.
  intros Hstate. unfold frame. rewrite Hstate.
  unfold _handle_playing, bind, ret.
  match goal with
  | |- context [balls_loop ?d ?sn ?k ?s i] =>
      pose proof (balls_loop_state d sn k s i) as H1;
      destruct (balls_loop d sn k s i) as [s1 j1]
  end.
  cbn [fst state set_paddle] in H1. unfold _handle_powerups.
  match goal with
  | |- context [powerups_loop ?d ?r ?sn ?k ?s j1] =>
      destruct (powerups_loop_balls_state d r sn k s j1) as [_ H2];
      destruct (powerups_loop d r sn k s j1) as [s2 j2]
  end.
  cbn [fst state set_particles] in H2.
  destruct (check_victory_balls_state s2 j2) as [_ H3].
  destruct (check_victory s2 j2) as [s3 j3]. cbn [fst] in H3.
  exists s3, j3. split; [reflexivity |].
  destruct H3 as [H3 | H3]; [| auto].
  rewrite H3, H2. destruct H1 as [H1 | H1]; rewrite H1; auto.
Qed.

(** X20.  A frame in Playing ends in Paused exactly when Escape is among its
    events: the pause check comes last, so it also overrides a Game Over
    or a Victory that the same frame has reached. *)
Theorem playing_frame_pauses_iff (self : t) (inp : Input) (i : nat) :
  state self = PLAYING ->
  state (fst (frame self inp i)) = PAUSED
  <-> existsb pygame.is_escape (events inp) = true.
Proof.
  intros Hstate.
  destruct (playing_frame_eq self inp i Hstate) as (s & j & Heq & Hs).
  rewrite Heq. cbn [fst]. rewrite check_pause_eq.
  destruct (existsb pygame.is_escape (events inp)).
  - split; reflexivity.
  - split; [| discriminate].
    intros Hp. destruct Hs as [Hs | [Hs | Hs]]; congruence.
Qed.

Lemma restart_state (evs : list pygame.Event) (self : t) (i : nat)
      (st : GameState) :
  state self = st ->
  state (fst (restart_on_click self evs i)) = st
  \/ state (fst (restart_on_click self evs i)) = MENU.
Proof.
  intros Hstate.
  destruct (restart_on_click_eq evs self i) as [Hno Hyes].
  destruct (existsb pygame.is_click evs).
  - right. destruct (Hyes eq_refl) as [k Hk]. rewrite Hk.
    destruct (init_eq (width self) (height self) k)
      as (vx & bs & j & _ & _ & Hi).
    rewrite Hi. reflexivity.
  - left. rewrite (Hno eq_refl). exact Hstate.
Qed.

(** X21.  The states a frame can lead to: from the menu only Playing; from
    Playing anything but the menu; from Paused only Playing; from Game Over
    and from Victory only the menu. *)
Theorem frame_transitions (self : t) (inp : Input) (i : nat) :
  let after := state (fst (frame self inp i)) in
  match state self with
  | MENU => after = MENU \/ after = PLAYING
  | PLAYING => after <> MENU
  | PAUSED => after = PAUSED \/ after = PLAYING
  | GAME_OVER => after = GAME_OVER \/ after = MENU
  | VICTORY => after = VICTORY \/ after = MENU
  end.
Proof.
  cbn zeta. unfold frame. destruct (state self) eqn:Hstate.
  - destruct (handle_menu_eq (events inp) self i) as [Hno Hyes].
    destruct (existsb pygame.is_click (events inp)).
    + right. destruct (Hyes eq_refl) as [k Hk]. rewrite Hk.
      destruct (generate_level_eq (set_state self PLAYING) (level self) k)
        as (bs & j & Hg & _).
      rewrite Hg. reflexivity.
    + left. rewrite (Hno eq_refl). exact Hstate.
  - fold (frame self inp i). pose proof Hstate as Hp.
    destruct (playing_frame_eq self inp i Hstate) as (s & j & Heq & Hs).
    unfold frame in Heq. rewrite Hp in Heq. rewrite Heq.
    cbn [fst]. rewrite check_pause_eq.
    destruct (existsb pygame.is_escape (events inp)); [discriminate |].
    destruct Hs as [Hs | [Hs | Hs]]; congruence.
  - unfold ret. cbn [fst]. rewrite handle_paused_eq.
    destruct (existsb pygame.is_escape (events inp));
      [right; reflexivity | left; exact Hstate].
  - apply restart_state. exact Hstate.
  - apply restart_state. exact Hstate.
Qed.
End Transitions.

(** ** The loss of a ball *)

Section LostBalls.
Context `{RandomSource} `{pygame.Lib}.
Import ArkanoidGame.

Lemma hit_brick_round (self : t) (k : nat) (b : Brick.t) (i : nat) :
  let self' := fst (hit_brick self k b i) in
  lives self' = lives self /\ width self' = width self
  /\ height self' = height self.
Proof.
  cbn zeta. unfold hit_brick, Brick.hit.
  destruct (Brick.health b - 1 <=? 0)%Z.
  - unfold bind, ret.
    match goal with
    | |- context [_create_particles ?s ?x ?y ?c i] =>
        destruct (create_particles_eq s x y c i) as (ps & Hps);
        destruct (_create_particles s x y c i) as [s' j]
    end.
    cbn [fst] in *. subst s'. cbn [Brick.powerup].
    destruct (Brick.powerup b); repeat split.
  - repeat split.
Qed.

Lemma brick_collisions_round (snapshot : list Brick.t) (k : nat)
      (rect : pygame.Rect) (self : t) (ball : Ball.t) (i : nat) :
  let self' := fst (fst (brick_collisions snapshot k rect self ball i)) in
  lives self' = lives self /\ width self' = width self
  /\ height self' = height self.
Proof.
  revert k. induction snapshot as [| b rest IH]; intros k.
  - repeat split.
  - cbn zeta. cbn [brick_collisions].
    destruct (pygame.colliderect (brick_rect b) rect).
    + unfold bind, ret.
      pose proof (hit_brick_round self k b i) as Hhit.
      destruct (hit_brick self k b i) as [s j]. exact Hhit.
    + apply IH.
Qed.

Lemma handle_collision_round (self : t) (ball : Ball.t) (dt : R) (i : nat) :
  let self' := fst (fst (_handle_collision self ball dt i)) in
  lives self' = lives self /\ width self' = width self
  /\ height self' = height self.
Proof.
  cbn zeta. unfold _handle_collision, bind.
  destruct (paddle_collision_eq self ball (ball_rect ball) i) as (ps & Hps).
  destruct (paddle_collision self ball (ball_rect ball) i) as [[s b] j].
  cbn [fst snd] in *.
  destruct (brick_collisions_round (bricks s) 0 (ball_rect ball) s b j)
    as (Hl & Hw & Hh).
  cbn zeta in Hl, Hw, Hh. rewrite Hl, Hw, Hh, Hps. repeat split.
Qed.

(** The loop over the balls while a ball is left on the field: [pre] are
    the balls already moved and kept. *)
Lemma balls_loop_survivors (dt : R) (w h : Z) (snapshot pre : list Ball.t)
      (self : t) (i : nat) :
  width self = w -> height self = h ->
  balls self = pre ++ snapshot ->
  pre <> []
  \/ (exists b, In b snapshot /\ snd (Ball.update b dt w h) = false) ->
  let self' := fst (balls_loop dt snapshot (length pre) self i) in
  lives self' = lives self
  /\ state self' = state self
  /\ length (balls self')
     = (length pre
        + length (filter (fun b => negb (snd (Ball.update b dt w h)))
                         snapshot))%nat.
Proof.
  revert pre self i.
  induction snapshot as [| ball rest IH]; intros pre self i Hw Hh Hballs Hsome.
  - cbn zeta. cbn [balls_loop filter length]. unfold ret. cbn [fst].
    rewrite Hballs, app_nil_r, Nat.add_0_r. repeat split.
  - cbn zeta. cbn [balls_loop filter]. rewrite Hw, Hh.
    destruct (Ball.update ball dt w h) as [ball' lost] eqn:Hu.
    cbn [snd]. destruct lost; cbn [negb].
    + rewrite Hballs, remove_at_middle. unfold bind.
      cbn [balls set_balls].
      assert (Hleft : pre ++ rest <> []).
      { destruct Hsome as [Hpre | (b & [Hb | Hb] & Hkeep)].
        - destruct pre; [congruence | discriminate].
        - subst b. rewrite Hu in Hkeep. discriminate.
        - destruct rest; [contradiction |]. destruct pre; discriminate. }
      destruct (pre ++ rest) as [| b0 bs] eqn:Hrest; [congruence |].
      unfold ret. rewrite <- Hrest.
      apply (IH pre (set_balls self (pre ++ rest)) i Hw Hh eq_refl).
      destruct Hsome as [Hpre | (b & [Hb | Hb] & Hkeep)].
      * left. exact Hpre.
      * subst b. rewrite Hu in Hkeep. discriminate.
      * right. exists b. split; assumption.
    + unfold bind.
      destruct (handle_collision_balls_state self ball' dt i) as [Hb Hs].
      destruct (handle_collision_round self ball' dt i) as (Hl & Hw' & Hh').
      destruct (_handle_collision self ball' dt i) as [[s b] j].
      cbn zeta in Hl, Hw', Hh'. cbn [fst snd] in *.
      rewrite Hb, Hballs, store_at_middle.
      replace (S (length pre)) with (length (pre ++ [b]))
        by (rewrite length_app; cbn; lia).
      destruct (IH (pre ++ [b]) (set_balls s (pre ++ b :: rest)) j)
        as (IHl & IHs & IHn).
      * cbn [width set_balls]. congruence.
      * cbn [height set_balls]. congruence.
      * cbn [balls set_balls]. rewrite <- app_assoc. reflexivity.
      * left. destruct pre; discriminate.
      * cbn zeta in IHl, IHs, IHn. rewrite IHl, IHs, IHn.
        cbn [lives state set_balls]. rewrite length_app. cbn [length].
        repeat split; [congruence | congruence | lia].
Qed.

(** The loop over the balls when every ball leaves through the bottom. *)
Lemma balls_loop_all_lost (dt : R) (snapshot : list Ball.t) (self : t)
      (i : nat) :
  snapshot <> [] ->
  balls self = snapshot ->
  (forall b, In b snapshot ->
             snd (Ball.update b dt (width self) (height self)) = true) ->
  balls_loop dt snapshot 0 self i = last_ball_lost (set_balls self []) i.
Proof.
  revert self.
  induction snapshot as [| ball rest IH]; intros self Hne Hballs Hall;
    [congruence |].
  cbn [balls_loop].
  pose proof (Hall ball (or_introl eq_refl)) as Hlost.
  destruct (Ball.update ball dt (width self) (height self)) as [ball' lost].
  cbn [snd] in Hlost. subst lost. rewrite Hballs.
  cbn [remove_at firstn skipn app balls set_balls]. unfold bind.
  destruct rest as [| b2 rest'].
  - destruct (last_ball_lost (set_balls self []) i). reflexivity.
  - unfold ret.
    apply (IH (set_balls self (b2 :: rest'))); [discriminate | reflexivity |].
    intros b Hb. apply Hall. right. exact Hb.
Qed.

(** X22.  What the loop over the balls does with the balls that leave through
    the bottom.  While some ball stays on the field, the lost ones are only
    removed: lives and state are as before and as many balls are left as
    stay.  When every ball is lost, one life is taken; if a life is left, a
    new ball is launched from the default position, otherwise the state
    becomes Game Over with no ball. *)
Theorem ball_loss_protocol (dt : R) (self : t) (i : nat) :
  let lost b := snd (Ball.update b dt (width self) (height self)) in
  let self' := fst (balls_loop dt (balls self) 0 self i) in
  ((exists b, In b (balls self) /\ lost b = false) ->
   lives self' = lives self
   /\ state self' = state self
   /\ length (balls self')
      = length (filter (fun b => negb (lost b)) (balls self)))
  /\ (balls self <> [] ->
      (forall b, In b (balls self) -> lost b = true) ->
      lives self' = (lives self - 1)%Z
      /\ ((lives self - 1 > 0)%Z ->
          state self' = state self
          /\ exists vx : R,
              (vx = -200 \/ vx = 200)
              /\ balls self'
                 = [Ball.mk (Vector2D.mk (launch_x self) (launch_y self))
                            (Vector2D.mk vx (-300)) 8 [] 1])
      /\ ((lives self - 1 <= 0)%Z ->
          state self' = GAME_OVER /\ balls self' = [])).
Proof.
  cbn zeta. split.
  - intros Hsome.
    exact (balls_loop_survivors dt (width self) (height self) (balls self) []
             self i eq_refl eq_refl eq_refl (or_intror Hsome)).
  - intros Hne Hall.
    rewrite (balls_loop_all_lost dt (balls self) self i Hne eq_refl Hall).
    destruct (last_ball_lost_eq (set_balls self []) i) as [Hpos Hneg].
    cbn [lives set_balls] in Hpos, Hneg.
    destruct (Z_le_gt_dec (lives self - 1) 0) as [Hle | Hgt].
    + rewrite (Hneg Hle). cbn [fst]. repeat split; try reflexivity; lia.
    + destruct (Hpos Hgt) as (vx & Hvx & Heq). rewrite Heq. cbn [fst].
      split; [reflexivity |]. split; [| lia].
      intros _. split; [reflexivity |]. exists vx. split; [exact Hvx |].
      reflexivity.
Qed.
End LostBalls.

(** ** What a session keeps *)

Lemma last_n_length {A} (n : nat) (xs : list A) :
  (length (last_n n xs) <= n)%nat.
Proof. unfold last_n. rewrite length_skipn. lia. Qed.

Lemma map_store_at_middle {A B} (f : A -> B) (pre post : list A) (a v : A) :
  f v = f a -> map f (pre ++ v :: post) = map f (pre ++ a :: post).
Proof. intros Hf. rewrite !map_app. cbn [map]. rewrite Hf. reflexivity. Qed.

Ltac inv_fields :=
  unfold session_inv in *;
  cbn [ArkanoidGame.width ArkanoidGame.height ArkanoidGame.state
       ArkanoidGame.score ArkanoidGame.lives ArkanoidGame.level
       ArkanoidGame.paddle ArkanoidGame.balls ArkanoidGame.bricks
       ArkanoidGame.particles ArkanoidGame.powerups
       ArkanoidGame.set_state ArkanoidGame.set_score
       ArkanoidGame.set_lives ArkanoidGame.set_level
       ArkanoidGame.set_paddle ArkanoidGame.set_balls
       ArkanoidGame.set_bricks ArkanoidGame.set_particles
       ArkanoidGame.set_powerups] in *.

Section Invariant.
Context `{RandomSource} `{pygame.Lib}.
Import ArkanoidGame.

Lemma inv_set_state (lo : Z) (self : t) (v : GameState) :
  session_inv lo self -> session_inv lo (set_state self v).
Proof. intros Hinv. inv_fields. exact Hinv. Qed.

Lemma inv_set_lives (lo : Z) (self : t) (v : Z) :
  session_inv lo self -> session_inv lo (set_lives self v).
Proof. intros Hinv. inv_fields. exact Hinv. Qed.

Lemma inv_set_score (lo : Z) (self : t) (v : Z) :
  (lo <= v)%Z -> session_inv lo self -> session_inv lo (set_score self v).
Proof. intros Hv Hinv. inv_fields. tauto. Qed.

Lemma inv_set_paddle (lo : Z) (self : t) (v : Paddle.t) :
  paddle_ok (height self) v ->
  session_inv lo self -> session_inv lo (set_paddle self v).
Proof. intros Hv Hinv. inv_fields. tauto. Qed.

Lemma inv_set_balls (lo : Z) (self : t) (v : list Ball.t) :
  Forall ball_ok v -> session_inv lo self -> session_inv lo (set_balls self v).
Proof. intros Hv Hinv. inv_fields. tauto. Qed.

Lemma inv_set_bricks (lo : Z) (self : t) (v : list Brick.t) :
  Forall (brick_ok (level self)) v -> NoDup (map brick_cell v) ->
  session_inv lo self -> session_inv lo (set_bricks self v).
Proof. intros Hv Hnd Hinv. inv_fields. tauto. Qed.

Lemma inv_set_particles (lo : Z) (self : t) (v : list Particle.t) :
  Forall particle_ok v ->
  session_inv lo self -> session_inv lo (set_particles self v).
Proof. intros Hv Hinv. inv_fields. tauto. Qed.

Lemma inv_set_powerups (lo : Z) (self : t) (v : list PowerUp.t) :
  Forall powerup_ok v ->
  session_inv lo self -> session_inv lo (set_powerups self v).
Proof. intros Hv Hinv. inv_fields. tauto. Qed.

(** *** The bricks of a level *)

Lemma level_cells_ok (lvl : Z) (cells : list (Z * Z)) (i : nat) :
  let rows := Z.min (5 + lvl) 10 in
  (forall y x, In (y, x) cells -> (0 <= y < rows)%Z /\ (0 <= x < 10)%Z) ->
  NoDup cells ->
  let bs := fst (filter_mapM (level_cell rows) cells i) in
  Forall (brick_ok lvl) bs
  /\ NoDup (map brick_cell bs)
  /\ forall b, In b bs ->
               exists y x, In (y, x) cells
                           /\ brick_cell b = ((x * 78 + 10)%Z, (y * 30 + 60)%Z).
Proof.
  intros rows. revert i.
  induction cells as [| [y x] rest IH]; intros i Hcells Hnd.
  - cbn. repeat split; [constructor | constructor | contradiction].
  - cbn zeta. cbn [filter_mapM]. unfold bind, ret.
    pose proof (level_cell_brick rows y x i) as Hcell.
    destruct (level_cell rows (y, x) i) as [ob j]. cbn [fst] in Hcell.
    inversion Hnd as [| c rest' Hnotin Hrest]; subst.
    destruct (IH j) as (Hok & Hdistinct & Hfrom).
    { intros y' x' Hin. apply Hcells. right. exact Hin. }
    { exact Hrest. }
    cbn zeta in Hok, Hdistinct, Hfrom.
    destruct (filter_mapM (level_cell rows) rest j) as [bs k].
    cbn [fst] in *.
    destruct ob as [b |].
    + destruct (Hcell b eq_refl) as (p & Hb).
      destruct (Hcells y x (or_introl eq_refl)) as [Hy Hx].
      split; [| split].
      * constructor; [| exact Hok].
        subst b. unfold brick_ok.
        cbn [Brick.width Brick.height Brick.points Brick.health
             Brick.max_health Brick.x Brick.y].
        fold rows. repeat split; try lia.
        exists y, x. repeat split; lia.
      * cbn [map]. constructor; [| exact Hdistinct].
        intros Hin. apply in_map_iff in Hin.
        destruct Hin as (b' & Hsame & Hb').
        destruct (Hfrom b' Hb') as (y' & x' & Hin' & Hpos).
        rewrite Hpos in Hsame. subst b. unfold brick_cell in Hsame.
        cbn [Brick.x Brick.y] in Hsame.
        assert (y' = y /\ x' = x) as [-> ->]
            by (inversion Hsame; split; lia).
        contradiction.
      * intros b' [Hb' | Hb'].
        -- subst b'. exists y, x. split; [left; reflexivity |].
           subst b. reflexivity.
        -- destruct (Hfrom b' Hb') as (y' & x' & Hin' & Hpos).
           exists y', x'. split; [right; exact Hin' | exact Hpos].
    + split; [exact Hok | split; [exact Hdistinct |]].
      intros b' Hb'.
      destruct (Hfrom b' Hb') as (y' & x' & Hin' & Hpos).
      exists y', x'. split; [right; exact Hin' | exact Hpos].
Qed.

Lemma generate_level_ok (self : t) (lvl : Z) (i : nat) :
  exists bs j,
    _generate_level self lvl i = (set_bricks self bs, j)
    /\ Forall (brick_ok lvl) bs
    /\ NoDup (map brick_cell bs).
Proof.
  unfold _generate_level, bind, ret.
  destruct (level_cells_ok lvl
              (list_prod (range (Z.min (5 + lvl) 10)) (range 10)) i)
    as (Hok & Hnd & _).
  - intros y x Hin. apply in_prod_iff in Hin. destruct Hin as [Hy Hx].
    apply range_In in Hy. apply range_In in Hx. split; assumption.
  - apply NoDup_list_prod; apply range_NoDup.
  - cbn zeta in Hok, Hnd.
    destruct (filter_mapM _ _ i) as [bs j]. cbn [fst] in *.
    exists bs, j. repeat split; assumption.
Qed.

Lemma generate_level_inv (lo : Z) (self : t) (i : nat) :
  session_inv lo self ->
  session_inv lo (fst (_generate_level self (level self) i)).
Proof.
  intros Hinv.
  destruct (generate_level_ok self (level self) i)
    as (bs & j & Heq & Hok & Hnd).
  rewrite Heq. cbn [fst]. apply inv_set_bricks; assumption.
Qed.

Lemma fresh_ball_ok (x y : R) (i : nat) :
  ball_ok (fst (Ball.__init__ x y i)).
Proof.
  destruct (Ball_init_eq x y i) as (vx & _ & Heq). rewrite Heq.
  unfold ball_ok. cbn. repeat split; [left; reflexivity | lia].
Qed.

Lemma init_inv (w h : Z) (i : nat) : session_inv 0 (fst (__init__ w h i)).
Proof.
  unfold __init__, bind.
  pose proof (fresh_ball_ok (IZR (w / 2)) (IZR (h - 80)) i) as Hball.
  destruct (Ball.__init__ (IZR (w / 2)) (IZR (h - 80)) i) as [b j].
  cbn [fst] in Hball.
  apply generate_level_inv. inv_fields.
  unfold paddle_ok, Paddle.__init__.
  cbn [Paddle.y Paddle.height Paddle.base_width Paddle.width].
  repeat split; try lia; try constructor; try assumption; constructor.
Qed.
(** *** Collisions *)

Lemma burst_particle_ok (x y : R) (p : Particle.t) :
  burst_particle x y p -> particle_ok p.
Proof.
  intros (_ & Hlife & Hsize & _). unfold particle_ok. rewrite Hlife.
  split; lra.
Qed.

Lemma create_particles_inv (lo : Z) (self : t) (x y : R) (count : Z)
      (i : nat) :
  session_inv lo self ->
  session_inv lo (fst (_create_particles self x y count i)).
Proof.
  intros Hinv.
  destruct (create_particles_burst self x y count i) as (ps & Heq & Hps & _).
  rewrite Heq. apply inv_set_particles; [| exact Hinv].
  apply Forall_app. split.
  - unfold session_inv in Hinv. tauto.
  - eapply Forall_impl; [| exact Hps]. intros p. apply burst_particle_ok.
Qed.

Lemma paddle_bounce_ok (self : t) (ball : Ball.t) :
  ball_ok ball -> ball_ok (paddle_bounce self ball).
Proof. intros Hb. exact Hb. Qed.

Lemma brick_bounce_ok (ball : Ball.t) (brick : Brick.t) :
  ball_ok ball -> ball_ok (brick_bounce ball brick).
Proof.
  intros Hb. unfold brick_bounce.
  destruct (Rgtb _ _); exact Hb.
Qed.

Lemma paddle_collision_inv (lo : Z) (self : t) (ball : Ball.t)
      (rect : pygame.Rect) (i : nat) :
  session_inv lo self -> ball_ok ball ->
  session_inv lo (fst (fst (paddle_collision self ball rect i)))
  /\ ball_ok (snd (fst (paddle_collision self ball rect i))).
Proof.
  intros Hinv Hball. unfold paddle_collision.
  destruct (pygame.colliderect _ _ && Rgtb _ _).
  - unfold bind, ret.
    match goal with
    | |- context [_create_particles ?s ?x ?y ?c i] =>
        pose proof (create_particles_inv lo s x y c i Hinv) as Hc;
        destruct (_create_particles s x y c i) as [s' j]
    end.
    cbn [fst snd] in *. split; [exact Hc | exact Hball].
  - unfold ret. cbn [fst snd]. split; assumption.
Qed.

Lemma hit_brick_inv (lo : Z) (self : t) (pre post : list Brick.t)
      (b : Brick.t) (i : nat) :
  bricks self = pre ++ b :: post ->
  session_inv lo self ->
  session_inv lo (fst (hit_brick self (length pre) b i)).
Proof.
  intros Hbricks Hinv.
  assert (Hall : Forall (brick_ok (level self)) (pre ++ b :: post)
                 /\ NoDup (map brick_cell (pre ++ b :: post))
                 /\ (lo <= score self)%Z)
    by (rewrite <- Hbricks; unfold session_inv in Hinv; tauto).
  destruct Hall as (Hok & Hnd & Hscore).
  apply Forall_app in Hok. destruct Hok as [Hpre Hrest].
  inversion Hrest as [| b' post' Hb Hpost]; subst b' post'.
  destruct Hb as (Hw & Hh & Hpoints & Hhealth & row & col & Hrow & Hcol
                  & Hx & Hy & Hmax).
  unfold hit_brick, Brick.hit.
  destruct (Brick.health b - 1 <=? 0)%Z eqn:Hdestroyed.
  - rewrite Hbricks, remove_at_middle. unfold bind, ret.
    cbn [Brick.points Brick.powerup score set_bricks].
    match goal with
    | |- context [_create_particles ?s ?x ?y ?c i] =>
        assert (Hs : session_inv lo s);
        [| pose proof (create_particles_inv lo s x y c i Hs) as Hc;
           destruct (_create_particles s x y c i) as [s' j]]
    end.
    { apply inv_set_score; [lia |].
      apply inv_set_bricks; [| | exact Hinv].
      - apply Forall_app. split; assumption.
      - rewrite map_app in *. cbn [map] in Hnd.
        apply NoDup_remove_1 in Hnd. exact Hnd. }
    cbn [fst] in *.
    destruct (Brick.powerup b) as [kind |]; [| exact Hc].
    apply inv_set_powerups; [| exact Hc].
    apply Forall_app. split.
    + unfold session_inv in Hc. tauto.
    + constructor; [| constructor].
      unfold powerup_ok, PowerUp.__init__, brick_center_x.
      cbn [PowerUp.vel PowerUp.size PowerUp.active PowerUp.pos Vector2D.x
           Brick.x Brick.width].
      repeat split. exists col. split; [exact Hcol |].
      rewrite Hx, Hw. change (75 / 2)%Z with 37%Z. f_equal. lia.
  - rewrite Hbricks, store_at_middle. unfold ret. cbn [fst].
    apply Z.leb_gt in Hdestroyed.
    apply inv_set_bricks; [| | exact Hinv].
    + apply Forall_app. split; [exact Hpre |].
      constructor; [| exact Hpost].
      unfold brick_ok.
      cbn [Brick.width Brick.height Brick.points Brick.health
           Brick.max_health Brick.x Brick.y].
      repeat split; try assumption; try lia.
      exists row, col. repeat split; try assumption; lia.
    + rewrite (map_store_at_middle brick_cell pre post b); [exact Hnd |].
      reflexivity.
Qed.

Lemma brick_collisions_inv (lo : Z) (snapshot pre : list Brick.t)
      (rect : pygame.Rect) (self : t) (ball : Ball.t) (i : nat) :
  bricks self = pre ++ snapshot ->
  session_inv lo self -> ball_ok ball ->
  session_inv lo
    (fst (fst (brick_collisions snapshot (length pre) rect self ball i)))
  /\ ball_ok
       (snd (fst (brick_collisions snapshot (length pre) rect self ball i))).
Proof.
  revert pre.
  induction snapshot as [| b rest IH]; intros pre Hbricks Hinv Hball.
  - split; assumption.
  - cbn [brick_collisions].
    destruct (pygame.colliderect (brick_rect b) rect).
    + unfold bind, ret.
      pose proof (hit_brick_inv lo self pre rest b i Hbricks Hinv) as Hhit.
      destruct (hit_brick self (length pre) b i) as [s j].
      cbn [fst snd] in *. split; [exact Hhit |].
      apply brick_bounce_ok. exact Hball.
    + replace (S (length pre)) with (length (pre ++ [b]))
        by (rewrite length_app; cbn; lia).
      apply IH; [| exact Hinv | exact Hball].
      rewrite <- app_assoc. exact Hbricks.
Qed.

Lemma handle_collision_inv (lo : Z) (self : t) (ball : Ball.t) (dt : R)
      (i : nat) :
  session_inv lo self -> ball_ok ball ->
  session_inv lo (fst (fst (_handle_collision self ball dt i)))
  /\ ball_ok (snd (fst (_handle_collision self ball dt i))).
Proof.
  intros Hinv Hball. unfold _handle_collision, bind.
  destruct (paddle_collision_inv lo self ball (ball_rect ball) i Hinv Hball)
    as [Hs Hb].
  destruct (paddle_collision self ball (ball_rect ball) i) as [[s b] j].
  cbn [fst snd] in *.
  exact (brick_collisions_inv lo (bricks s) [] (ball_rect ball) s b j
           eq_refl Hs Hb).
Qed.

(** *** The balls *)

Lemma Ball_update_ok (b : Ball.t) (dt : R) (w h : Z) :
  ball_ok b -> ball_ok (fst (Ball.update b dt w h)).
Proof.
  intros (Hr & Hm & _).
  destruct (Ball_update_pos_trail b dt w h) as (_ & Htrail & Hr' & Hm').
  cbn zeta in Htrail, Hr', Hm'. unfold ball_ok.
  rewrite Htrail, Hr', Hm'.
  split; [exact Hr | split; [exact Hm | apply last_n_length]].
Qed.

Lemma last_ball_lost_inv (lo : Z) (self : t) (i : nat) :
  session_inv lo self -> session_inv lo (fst (last_ball_lost self i)).
Proof.
  intros Hinv. unfold last_ball_lost. cbv zeta.
  destruct (lives (set_lives self (lives self - 1)) >? 0)%Z.
  - unfold bind, ret.
    match goal with
    | |- context [Ball.__init__ ?x ?y i] =>
        pose proof (fresh_ball_ok x y i) as Hb;
        destruct (Ball.__init__ x y i) as [b j]
    end.
    cbn [fst] in *.
    apply inv_set_balls; [constructor; [exact Hb | constructor] |].
    apply inv_set_lives. exact Hinv.
  - unfold ret. cbn [fst]. apply inv_set_state, inv_set_lives. exact Hinv.
Qed.

Lemma balls_loop_inv (lo : Z) (dt : R) (snapshot : list Ball.t) (k : nat)
      (self : t) (i : nat) :
  Forall ball_ok snapshot ->
  session_inv lo self ->
  session_inv lo (fst (balls_loop dt snapshot k self i)).
Proof.
  revert k self i.
  induction snapshot as [| ball rest IH]; intros k self i Hsnap Hinv.
  - exact Hinv.
  - inversion Hsnap as [| b0 rest0 Hball Hrest]; subst.
    cbn [balls_loop].
    pose proof (Ball_update_ok ball dt (width self) (height self) Hball)
      as Hmoved.
    destruct (Ball.update ball dt (width self) (height self)) as [ball' lost].
    cbn [fst] in Hmoved.
    assert (Hballs : Forall ball_ok (balls self))
      by (unfold session_inv in Hinv; tauto).
    destruct lost.
    + unfold bind.
      assert (Hs : session_inv lo (set_balls self (remove_at k (balls self))))
        by (apply inv_set_balls; [apply Forall_remove_at; exact Hballs
                                 | exact Hinv]).
      destruct (balls (set_balls self (remove_at k (balls self)))).
      * pose proof (last_ball_lost_inv lo _ i Hs) as Hl.
        destruct (last_ball_lost _ i) as [s j]. cbn [fst] in Hl.
        apply IH; assumption.
      * unfold ret. apply IH; assumption.
    + unfold bind.
      destruct (handle_collision_inv lo self ball' dt i Hinv Hmoved)
        as [Hs Hb].
      destruct (_handle_collision self ball' dt i) as [[s b] j].
      cbn [fst snd] in *. apply IH; [exact Hrest |].
      apply inv_set_balls; [| exact Hs].
      apply Forall_store_at; [exact Hb |].
      unfold session_inv in Hs. tauto.
Qed.
(** *** Power-ups *)

Lemma apply_powerup_inv (lo : Z) (self : t) (kind : PowerUpType) (i : nat) :
  session_inv lo self -> session_inv lo (fst (_apply_powerup self kind i)).
Proof.
  intros Hinv.
  assert (Hscore : (lo <= score self)%Z)
    by (unfold session_inv in Hinv; tauto).
  assert (Hpaddle : paddle_ok (height self) (paddle self))
    by (unfold session_inv in Hinv; tauto).
  assert (Hballs : Forall ball_ok (balls self))
    by (unfold session_inv in Hinv; tauto).
  unfold _apply_powerup, bind, ret.
  destruct kind; cbn [effects]; unfold ret; cbn [fst].
  - apply inv_set_score; [cbn [score set_paddle]; lia |].
    apply inv_set_paddle; [| exact Hinv].
    destruct Hpaddle as (Hy & Hh & Hb & Hw). unfold paddle_ok.
    cbn [Paddle.set_width Paddle.y Paddle.height Paddle.base_width
         Paddle.width].
    repeat split; try assumption; lia.
  - destruct (balls self) as [| first others] eqn:Hbs.
    + unfold ret. cbn [fst]. apply inv_set_score; [lia | exact Hinv].
    + unfold bind, ret.
      match goal with
      | |- context [mapM ?f (range 2) i] =>
          destruct (mapM_spec f ball_ok 1 (range 2) i) as (Hnew & _);
          [| destruct (mapM f (range 2) i) as [new j]]
      end.
      { intros a j. split; [apply fresh_ball_ok |].
        destruct (Ball_init_eq (Vector2D.x (Ball.pos first))
                               (Vector2D.y (Ball.pos first)) j)
          as (vx & _ & Heq).
        rewrite Heq. cbn [snd]. lia. }
      cbn [fst] in *.
      apply inv_set_score; [cbn [score set_balls]; lia |].
      apply inv_set_balls; [| exact Hinv].
      apply Forall_app. split; [exact Hballs | exact Hnew].
  - apply inv_set_score; [cbn [score set_balls]; lia |].
    apply inv_set_balls; [| exact Hinv].
    apply Forall_forall. intros b Hb. apply in_map_iff in Hb.
    destruct Hb as (b0 & <- & Hb0).
    rewrite Forall_forall in Hballs.
    destruct (Hballs b0 Hb0) as (Hr & _ & Ht).
    unfold ball_ok.
    cbn [Ball.set_speed_multiplier Ball.radius Ball.speed_multiplier
         Ball.trail].
    split; [exact Hr | split; [right; reflexivity | exact Ht]].
  - apply inv_set_score; [lia | exact Hinv].
  - apply inv_set_score; [cbn [score set_paddle]; lia |].
    apply inv_set_paddle; [| exact Hinv]. exact Hpaddle.
  - apply inv_set_score; [cbn [score set_lives]; lia |].
    apply inv_set_lives. exact Hinv.
Qed.

Lemma PowerUp_update_ok (p : PowerUp.t) (dt : R) (h : Z) :
  powerup_ok p -> powerup_ok (fst (PowerUp.update p dt h)).
Proof.
  intros (Hv & Hs & Ha & col & Hcol & Hx).
  unfold powerup_ok, PowerUp.update.
  cbn [fst PowerUp.vel PowerUp.size PowerUp.active PowerUp.pos].
  repeat split; try assumption.
  exists col. split; [exact Hcol |].
  unfold Vector2D.__add__, Vector2D.__mul__. cbn [Vector2D.x].
  rewrite Hv, Hx. cbn [Vector2D.x]. lra.
Qed.

Lemma powerups_loop_inv (lo : Z) (dt : R) (rect : pygame.Rect)
      (snapshot : list PowerUp.t) (k : nat) (self : t) (i : nat) :
  Forall powerup_ok snapshot ->
  session_inv lo self ->
  session_inv lo (fst (powerups_loop dt rect snapshot k self i)).
Proof.
  revert k self i.
  induction snapshot as [| p rest IH]; intros k self i Hsnap Hinv.
  - exact Hinv.
  - inversion Hsnap as [| p0 rest0 Hp Hrest]; subst.
    cbn [powerups_loop].
    pose proof (PowerUp_update_ok p dt (height self) Hp) as Hmoved.
    destruct (PowerUp.update p dt (height self)) as [p' out].
    cbn [fst] in Hmoved.
    assert (Hpw : Forall powerup_ok (powerups self))
      by (unfold session_inv in Hinv; tauto).
    destruct out.
    + apply IH; [exact Hrest |].
      apply inv_set_powerups; [| exact Hinv].
      apply Forall_remove_at. exact Hpw.
    + cbv zeta.
      assert (Hs : session_inv lo
                     (set_powerups self (store_at k p' (powerups self))))
        by (apply inv_set_powerups;
            [apply Forall_store_at; assumption | exact Hinv]).
      destruct (pygame.colliderect rect (powerup_rect p')).
      * unfold bind.
        pose proof (apply_powerup_inv lo _ (PowerUp.type p') i Hs) as Ha.
        destruct (_apply_powerup _ (PowerUp.type p') i) as [s1 j1].
        cbn [fst] in Ha.
        assert (Hs1 : session_inv lo
                        (set_powerups s1 (remove_at k (powerups s1)))).
        { apply inv_set_powerups; [| exact Ha].
          apply Forall_remove_at. unfold session_inv in Ha. tauto. }
        match goal with
        | |- context [_create_particles ?s ?x ?y ?c j1] =>
            pose proof (create_particles_inv lo s x y c j1 Hs1) as Hc;
            destruct (_create_particles s x y c j1) as [s2 j2]
        end.
        cbn [fst] in Hc. apply IH; assumption.
      * apply IH; assumption.
Qed.

(** *** Particles, paddle and level *)

Lemma update_particles_ok (dt : R) (ps : list Particle.t) :
  Forall particle_ok ps -> Forall particle_ok (update_particles dt ps).
Proof.
  unfold update_particles. induction 1 as [| p ps Hp Hps IH];
    [constructor |].
  cbn [flat_map]. unfold Particle.update at 1.
  destruct (Rgtb (Particle.life p - dt * 2) 0) eqn:Halive;
    [| exact IH].
  cbn [app]. constructor; [| exact IH].
  unfold Rgtb in Halive. apply Rltb_spec in Halive.
  destruct Hp as (_ & Hsize). unfold particle_ok.
  cbn [Particle.life Particle.size]. split; lra.
Qed.

Lemma Paddle_update_ok (h : Z) (p : Paddle.t) (dt : R) (mouse_x w : Z) :
  paddle_ok h p -> paddle_ok h (Paddle.update p dt mouse_x w).
Proof. intros Hp. exact Hp. Qed.

Lemma check_victory_inv (lo : Z) (self : t) (i : nat) :
  session_inv lo self -> session_inv lo (fst (check_victory self i)).
Proof.
  intros Hinv. unfold check_victory.
  destruct (bricks self) as [| b bs] eqn:Hbricks; [| exact Hinv].
  cbv zeta.
  assert (Hnext : session_inv lo (set_level self (level self + 1))).
  { inv_fields. rewrite Hbricks in *.
    destruct Hinv as (Hp & Hba & _ & _ & Hpa & Hpw & Hl & Hs).
    repeat (split; [assumption || constructor |]).
    split; [lia | exact Hs]. }
  destruct (level (set_level self (level self + 1)) >? 5)%Z.
  - unfold ret. cbn [fst]. apply inv_set_state. exact Hnext.
  - unfold bind, ret.
    pose proof (generate_level_inv lo _ i Hnext) as Hg.
    destruct (_generate_level _ _ i) as [s j]. cbn [fst] in Hg.
    match goal with
    | |- context [Ball.__init__ ?x ?y j] =>
        pose proof (fresh_ball_ok x y j) as Hb;
        destruct (Ball.__init__ x y j) as [b j']
    end.
    cbn [fst] in *.
    apply inv_set_balls; [constructor; [exact Hb | constructor] | exact Hg].
Qed.

(** *** The frames of a session *)

Lemma handle_playing_inv (lo : Z) (self : t) (inp : Input) (i : nat) :
  session_inv lo self -> session_inv lo (fst (_handle_playing self inp i)).
Proof.
  intros Hinv. unfold _handle_playing, bind, ret.
  assert (H0' : session_inv lo
                  (set_paddle self
                     (Paddle.update (paddle self) (dt inp) (mouse_x inp)
                                    (width self)))).
  { apply inv_set_paddle; [| exact Hinv].
    apply Paddle_update_ok. unfold session_inv in Hinv. tauto. }
  match goal with
  | |- context [balls_loop ?d ?sn ?k ?s i] =>
      assert (H1 : session_inv lo (fst (balls_loop d sn k s i)))
        by (apply balls_loop_inv;
            [unfold session_inv in H0'; tauto | exact H0']);
      destruct (balls_loop d sn k s i) as [s1 j1]
  end.
  cbn [fst] in H1. unfold _handle_powerups.
  assert (H2 : session_inv lo
                 (set_particles s1
                    (update_particles (dt inp) (particles s1)))).
  { apply inv_set_particles; [| exact H1].
    apply update_particles_ok. unfold session_inv in H1. tauto. }
  match goal with
  | |- context [powerups_loop ?d ?r ?sn ?k ?s j1] =>
      assert (H3 : session_inv lo (fst (powerups_loop d r sn k s j1)))
        by (apply powerups_loop_inv;
            [unfold session_inv in H2; tauto | exact H2]);
      destruct (powerups_loop d r sn k s j1) as [s2 j2]
  end.
  cbn [fst] in H3.
  pose proof (check_victory_inv lo s2 j2 H3) as H4.
  destruct (check_victory s2 j2) as [s3 j3]. cbn [fst] in *.
  rewrite check_pause_eq.
  destruct (existsb pygame.is_escape (events inp));
    [apply inv_set_state |]; exact H4.
Qed.

Lemma handle_menu_inv (lo : Z) (evs : list pygame.Event) (self : t)
      (i : nat) :
  session_inv lo self -> session_inv lo (fst (_handle_menu self evs i)).
Proof.
  unfold _handle_menu. revert self i.
  induction evs as [| e evs IH]; intros self i Hinv; [exact Hinv |].
  cbn [foldM]. unfold bind. destruct (pygame.is_click e).
  - cbv zeta.
    pose proof (generate_level_inv lo (set_state self PLAYING) i
                  (inv_set_state lo self PLAYING Hinv)) as Hg.
    cbn [level set_state] in Hg.
    destruct (_generate_level (set_state self PLAYING)
                              (level (set_state self PLAYING)) i)
      as [s j] eqn:Heq.
    cbn [level set_state] in Heq. rewrite Heq in Hg. cbn [fst] in Hg.
    apply IH. exact Hg.
  - unfold ret. apply IH. exact Hinv.
Qed.

Lemma restart_on_click_inv (evs : list pygame.Event) (self : t) (i : nat) :
  session_inv 0 self -> session_inv 0 (fst (restart_on_click self evs i)).
Proof.
  unfold restart_on_click. revert self i.
  induction evs as [| e evs IH]; intros self i Hinv; [exact Hinv |].
  cbn [foldM]. unfold bind. destruct (pygame.is_click e).
  - pose proof (init_inv (width self) (height self) i) as Hi.
    destruct (__init__ (width self) (height self) i) as [s j].
    apply IH. exact Hi.
  - unfold ret. apply IH. exact Hinv.
Qed.

Lemma frame_inv (lo : Z) (self : t) (inp : Input) (i : nat) :
  state self = MENU \/ state self = PLAYING \/ state self = PAUSED ->
  session_inv lo self -> session_inv lo (fst (frame self inp i)).
Proof.
  intros Hstate Hinv. unfold frame.
  destruct Hstate as [-> | [-> | ->]].
  - apply handle_menu_inv. exact Hinv.
  - apply handle_playing_inv. exact Hinv.
  - unfold ret. cbn [fst]. rewrite handle_paused_eq.
    destruct (existsb pygame.is_escape (events inp));
      [apply inv_set_state |]; exact Hinv.
Qed.

Lemma frame_inv_0 (self : t) (inp : Input) (i : nat) :
  session_inv 0 self -> session_inv 0 (fst (frame self inp i)).
Proof.
  intros Hinv. destruct (state self) eqn:Hstate.
  - apply frame_inv; auto.
  - apply frame_inv; auto.
  - apply frame_inv; auto.
  - unfold frame. rewrite Hstate. apply restart_on_click_inv. exact Hinv.
  - unfold frame. rewrite Hstate. apply restart_on_click_inv. exact Hinv.
Qed.

Lemma reachable_inv (w : t * nat) : reachable w -> session_inv 0 (fst w).
Proof.
  induction 1 as [width height seed | self i inp Hreach IH].
  - apply init_inv.
  - apply frame_inv_0. exact IH.
Qed.
End Invariant.

Lemma bricks_count (lvl : Z) (bs : list Brick.t) :
  (1 <= lvl)%Z ->
  Forall (brick_ok lvl) bs ->
  NoDup (map brick_cell bs) ->
  (Z.of_nat (length bs) <= 10 * Z.min (5 + lvl) 10)%Z.
Proof.
  intros Hlvl Hok Hnd.
  set (rows := Z.min (5 + lvl) 10).
  set (place := fun c : Z * Z => ((snd c * 78 + 10)%Z, (fst c * 30 + 60)%Z)).
  assert (Hincl : incl (map brick_cell bs)
                       (map place (list_prod (range rows) (range 10)))).
  { intros cell Hcell. apply in_map_iff in Hcell.
    destruct Hcell as (b & <- & Hb).
    rewrite Forall_forall in Hok.
    destruct (Hok b Hb) as (_ & _ & _ & _ & row & col & Hrow & Hcol & Hx
                            & Hy & _).
    apply in_map_iff. exists (row, col). split.
    - unfold place, brick_cell. cbn [fst snd]. rewrite Hx, Hy. reflexivity.
    - apply in_prod_iff. split; apply range_In; assumption. }
  pose proof (NoDup_incl_length Hnd Hincl) as Hlen.
  rewrite !length_map, length_prod in Hlen.
  unfold range in Hlen. rewrite !length_map, !length_seq in Hlen.
  change (Z.to_nat 10) with 10%nat in Hlen.
  assert (Hrows : (0 <= rows)%Z) by (unfold rows; lia).
  nia.
Qed.

Section Sessions.
Context `{RandomSource} `{pygame.Lib}.
Import ArkanoidGame.

Lemma inv_score_floor (lo : Z) (self : t) :
  session_inv lo self -> session_inv (score self) self.
Proof.
  unfold session_inv. intros (Hp & Hba & Hbr & Hnd & Hpa & Hpw & Hl & _).
  repeat (split; [assumption |]). lia.
Qed.

(** X23.  Throughout a session the paddle stays on its line 50 above the bottom
    of the field, 20 high, and its width stays between 100 and 200. *)
Theorem session_paddle (self : t) (i : nat) :
  reachable (self, i) -> paddle_ok (height self) (paddle self).
Proof.
  intros Hreach. pose proof (reachable_inv _ Hreach) as Hinv.
  unfold session_inv in Hinv. cbn [fst] in Hinv. tauto.
Qed.

(** X24.  Throughout a session every ball has radius 8, moves at full speed or
    at 7/10 of it, and has a trail of at most ten positions. *)
Theorem session_balls (self : t) (i : nat) :
  reachable (self, i) -> forall b, In b (balls self) -> ball_ok b.
Proof.
  intros Hreach. pose proof (reachable_inv _ Hreach) as Hinv.
  unfold session_inv in Hinv. cbn [fst] in Hinv.
  apply Forall_forall. tauto.
Qed.

(** X25.  Throughout a session every brick on the field is a brick of the
    layout of the current level: 75 x 25, on a cell of the grid within the
    rows of the level, with the starting health of its row, worth 100
    points per unit of it, and with at least one unit of health left. *)
Theorem session_bricks_of_level (self : t) (i : nat) :
  reachable (self, i) ->
  forall b, In b (bricks self) -> brick_ok (level self) b.
Proof.
  intros Hreach. pose proof (reachable_inv _ Hreach) as Hinv.
  unfold session_inv in Hinv. cbn [fst] in Hinv.
  apply Forall_forall. tauto.
Qed.

(** X26.  Throughout a session no two bricks are on the same cell, so there are
    at most ten bricks for each row of the current level. *)
Theorem session_bricks_distinct (self : t) (i : nat) :
  reachable (self, i) ->
  NoDup (map brick_cell (bricks self))
  /\ (Z.of_nat (length (bricks self)) <= 10 * Z.min (5 + level self) 10)%Z.
Proof.
  intros Hreach. pose proof (reachable_inv _ Hreach) as Hinv.
  unfold session_inv in Hinv. cbn [fst] in Hinv.
  destruct Hinv as (_ & _ & Hok & Hnd & _ & _ & Hl & _).
  split; [exact Hnd |]. apply bricks_count; assumption.
Qed.

(** X27.  Throughout a session every particle in the list is alive (a particle
    whose life is used up is dropped in the frame that uses it up) and
    smaller than 5. *)
Theorem session_particles (self : t) (i : nat) :
  reachable (self, i) -> forall p, In p (particles self) -> particle_ok p.
Proof.
  intros Hreach. pose proof (reachable_inv _ Hreach) as Hinv.
  unfold session_inv in Hinv. cbn [fst] in Hinv.
  apply Forall_forall. tauto.
Qed.

(** X28.  Throughout a session every power-up falls straight down at 150 in the
    middle of one of the ten columns of the grid, is of size 20 and
    active. *)
Theorem session_powerups (self : t) (i : nat) :
  reachable (self, i) -> forall p, In p (powerups self) -> powerup_ok p.
Proof.
  intros Hreach. pose proof (reachable_inv _ Hreach) as Hinv.
  unfold session_inv in Hinv. cbn [fst] in Hinv.
  apply Forall_forall. tauto.
Qed.

(** X29.  Throughout a session the score is never negative and the level is at
    least 1, so a level is generated with 6 to 10 rows. *)
Theorem session_score_level (self : t) (i : nat) :
  reachable (self, i) ->
  (0 <= score self)%Z
  /\ (1 <= level self)%Z
  /\ (6 <= Z.min (5 + level self) 10 <= 10)%Z.
Proof.
  intros Hreach. pose proof (reachable_inv _ Hreach) as Hinv.
  unfold session_inv in Hinv. cbn [fst] in Hinv.
  destruct Hinv as (_ & _ & _ & _ & _ & _ & Hl & Hs). lia.
Qed.

(** X30.  In a session a frame in the menu, in Playing or in Paused never
    lowers the score. *)
Theorem frame_score_never_drops (self : t) (inp : Input) (i : nat) :
  reachable (self, i) ->
  state self = MENU \/ state self = PLAYING \/ state self = PAUSED ->
  (score self <= score (fst (frame self inp i)))%Z.
Proof.
  intros Hreach Hstate. pose proof (reachable_inv _ Hreach) as Hinv.
  cbn [fst] in Hinv. apply inv_score_floor in Hinv.
  pose proof (frame_inv (score self) self inp i Hstate Hinv) as Hafter.
  unfold session_inv in Hafter. tauto.
Qed.
End Sessions.

(** ** The further theorems at the scenarios *)

(** Escape pressed in [game_in_play], then Escape pressed again after
    another event. *)
Lemma pause_resume_round_trip_witness :
  ArkanoidGame.state
    (ArkanoidGame.check_pause game_in_play (events escape_frame)) = PAUSED
  /\ ArkanoidGame._handle_paused
       (ArkanoidGame.check_pause game_in_play (events escape_frame))
       [pygame.OTHER; pygame.KEYDOWN pygame.K_ESCAPE]
     = game_in_play.
Proof.
  exact (pause_resume_round_trip game_in_play (events escape_frame)
           [pygame.OTHER; pygame.KEYDOWN pygame.K_ESCAPE]
           eq_refl eq_refl eq_refl).
Defined.

(** Ten seconds pass in Paused without an event. *)
Lemma paused_frame_frozen_witness :
  @ArkanoidGame.frame steady_source aabb
     (game_with PAUSED 3 [launch_ball] [brick_a]) stall_frame 0%nat
  = (game_with PAUSED 3 [launch_ball] [brick_a], 0%nat).
Proof.
  exact (@paused_frame_frozen steady_source aabb
           (game_with PAUSED 3 [launch_ball] [brick_a]) stall_frame 0%nat
           eq_refl).
Defined.

(** The click that starts the game. *)
Lemma menu_frame_witness :
  @ArkanoidGame.frame steady_source aabb (menu_game []) click_frame 0%nat
  = @ArkanoidGame._generate_level steady_source
      (ArkanoidGame.set_state (menu_game []) PLAYING) 1 0%nat
  /\ In brick_a
        (ArkanoidGame.bricks
           (fst (@ArkanoidGame.frame steady_source aabb (menu_game [])
                   click_frame 0%nat))).
Proof.
  destruct (proj2 (@menu_frame steady_source aabb (menu_game []) click_frame
                     0%nat eq_refl) eq_refl)
    as (j & _ & Hone & Heq & _).
  rewrite (Hone eq_refl) in Heq.
  split; [exact Heq |]. rewrite Heq. apply steady_level_1.
Defined.

(** A click after the last ball is lost. *)
Lemma restart_resets_session_witness :
  @ArkanoidGame.frame steady_source aabb
     (game_with GAME_OVER 0 [] [brick_a]) click_frame 7%nat
  = @ArkanoidGame.__init__ steady_source 800 600 7%nat
  /\ ArkanoidGame.state
       (fst (@ArkanoidGame.frame steady_source aabb
               (game_with GAME_OVER 0 [] [brick_a]) click_frame 7%nat))
     = MENU
  /\ ArkanoidGame.lives
       (fst (@ArkanoidGame.frame steady_source aabb
               (game_with GAME_OVER 0 [] [brick_a]) click_frame 7%nat))
     = 3%Z.
Proof.
  destruct (proj2 (@restart_resets_session steady_source aabb
                     (game_with GAME_OVER 0 [] [brick_a]) click_frame 7%nat
                     (or_introl eq_refl)) eq_refl)
    as (vx & j & _ & Hone & _ & Heq & Hfst & _).
  rewrite (Hone eq_refl) in Heq.
  split; [exact Heq |]. rewrite Hfst. split; reflexivity.
Defined.

(** Escape pressed in a frame of Playing. *)
Lemma playing_frame_pauses_iff_witness :
  ArkanoidGame.state
    (fst (@ArkanoidGame.frame steady_source aabb
            (game_with PLAYING 3 [launch_ball] [brick_a])
            stall_escape_frame 0%nat))
  = PAUSED.
Proof.
  exact (proj2 (@playing_frame_pauses_iff steady_source aabb
                  (game_with PLAYING 3 [launch_ball] [brick_a])
                  stall_escape_frame 0%nat eq_refl) eq_refl).
Defined.

Lemma brick_a_clear : clear_of_the_left [brick_a].
Proof.
  split; [discriminate |].
  intros b [<- | []]. cbn. lia.
Qed.

(** The launched ball flies off the field through the top for ten
    seconds: the game is still in Playing, with its ball. *)
Lemma playing_frame_keeps_a_ball_witness :
  ArkanoidGame.balls
    (fst (@ArkanoidGame.frame steady_source aabb
            (game_with PLAYING 3 [launch_ball] [brick_a]) stall_frame 0%nat))
  <> [].
Proof.
  assert (Hflight :
            @ArkanoidGame.frame steady_source aabb
              (game_with PLAYING 3 [launch_ball] [brick_a]) stall_frame 0%nat
            = (game_with PLAYING 3 [ball_above] [brick_a], 0%nat)).
  { apply stall_flight.
    - exact launch_ball_flight.
    - reflexivity.
    - cbn. lra.
    - exact brick_a_clear. }
  apply (@playing_frame_keeps_a_ball steady_source aabb).
  - reflexivity.
  - discriminate.
  - rewrite Hflight. reflexivity.
Defined.

(** *** A session under [gift_source] *)

Lemma gift_random_keep (i : nat) :
  (i mod 3 = 1)%nat -> @random gift_source i = (1 / 2, S i).
Proof.
  intros Hi. unfold random. cbn [entropy gift_source].
  rewrite Hi. cbn [Nat.eqb].
  change ((2 ^ 52) mod 2 ^ 53)%Z with 4503599627370496%Z.
  change (2 ^ 53)%Z with 9007199254740992%Z.
  f_equal. lra.
Qed.

Lemma gift_entropy_zero (i : nat) :
  (i mod 3 <> 1)%nat -> @entropy gift_source i = 0%Z.
Proof.
  intros Hi. cbn [entropy gift_source].
  destruct (Nat.eqb_spec (i mod 3) 1); [contradiction | reflexivity].
Qed.

Lemma gift_random_zero (i : nat) :
  (i mod 3 <> 1)%nat -> @random gift_source i = (0, S i).
Proof.
  intros Hi. unfold random. rewrite (gift_entropy_zero i Hi).
  change (0 mod 2 ^ 53)%Z with 0%Z. f_equal. lra.
Qed.

Lemma gift_randint (i : nat) :
  (i mod 3 <> 1)%nat -> @randint gift_source 1 6 i = (1%Z, S i).
Proof.
  intros Hi. unfold randint, bind, ret, _randbelow.
  rewrite (gift_entropy_zero i Hi). reflexivity.
Qed.

Lemma mod3_next (d : nat) :
  (d mod 3 = 1)%nat ->
  (S d mod 3 <> 1)%nat /\ (S (S d) mod 3 <> 1)%nat
  /\ ((d + 3) mod 3 = 1)%nat.
Proof.
  intros Hd.
  pose proof (Nat.div_mod_eq d 3) as Hdiv.
  assert (H1 : (S d mod 3 = 2)%nat).
  { replace (S d) with (2 + (d / 3) * 3)%nat by lia.
    rewrite Nat.Div0.mod_add. reflexivity. }
  assert (H2 : (S (S d) mod 3 = 0)%nat).
  { replace (S (S d)) with (0 + (d / 3 + 1) * 3)%nat by lia.
    rewrite Nat.Div0.mod_add. reflexivity. }
  assert (H3 : ((d + 3) mod 3 = 1)%nat).
  { replace (d + 3)%nat with (1 + (d / 3 + 1) * 3)%nat by lia.
    rewrite Nat.Div0.mod_add. reflexivity. }
  rewrite H1, H2. repeat split; [lia | lia | exact H3].
Qed.

(** A cell drawn at 1 modulo 3 keeps its brick, with Expand Paddle. *)
Lemma gift_cell (d : nat) :
  (d mod 3 = 1)%nat ->
  @cell_kept gift_source d = true
  /\ @next_cell_draw gift_source d = (d + 3)%nat
  /\ @cell_powerup gift_source d = Some EXPAND_PADDLE.
Proof.
  intros Hd. destruct (mod3_next d Hd) as (H1 & H2 & _).
  assert (Hkept : @cell_kept gift_source d = true).
  { unfold cell_kept. rewrite (gift_random_keep d Hd). cbn [fst].
    unfold Rgtb. apply Rltb_true. lra. }
  unfold next_cell_draw, cell_powerup. rewrite Hkept.
  rewrite (gift_random_zero (S d) H1). cbn [fst].
  rewrite (Rltb_true 0 (1 / 10)) by lra.
  rewrite (gift_randint (S (S d)) H2). cbn [fst PowerUpType_of_value].
  repeat split.
Qed.

Lemma gift_layout (rows : Z) (cells : list (Z * Z)) (d : nat) :
  (d mod 3 = 1)%nat ->
  map (fun cd => @cell_brick gift_source rows (fst cd) (snd cd))
      (filter (fun cd => @cell_kept gift_source (snd cd))
              (combine cells (@cell_draws gift_source d (length cells))))
  = map (gift_brick rows) cells.
Proof.
  revert d. induction cells as [| [row col] cells IH]; intros d Hd;
    [reflexivity |].
  destruct (gift_cell d Hd) as (Hkept & Hnext & Hpower).
  destruct (mod3_next d Hd) as (_ & _ & H3).
  cbn [length cell_draws combine filter snd fst map].
  rewrite Hkept, Hnext. cbn [map fst snd].
  rewrite (IH (d + 3)%nat H3).
  unfold cell_brick, gift_brick. rewrite Hpower. reflexivity.
Qed.

Lemma gift_level_eq (i : nat) :
  (i mod 3 = 1)%nat -> @level_as_claimed gift_source 1 i = gift_level.
Proof.
  intros Hi. unfold level_as_claimed, gift_level.
  change (Z.min (5 + 1) 10) with 6%Z. apply gift_layout. exact Hi.
Qed.

Lemma gift_cells_draws (rows : Z) (cells : list (Z * Z)) (d : nat) :
  (d mod 3 = 1)%nat ->
  (snd (filter_mapM (@ArkanoidGame.level_cell gift_source rows) cells d)
   mod 3 = 1)%nat.
Proof.
  revert d. induction cells as [| c cells IH]; intros d Hd; [exact Hd |].
  cbn [filter_mapM]. unfold bind, ret.
  rewrite (@level_cell_eq gift_source).
  destruct (gift_cell d Hd) as (_ & Hnext & _).
  destruct (mod3_next d Hd) as (_ & _ & H3).
  rewrite Hnext. specialize (IH (d + 3)%nat H3).
  destruct (filter_mapM _ cells (d + 3)%nat) as [bs k].
  exact IH.
Qed.

(** A level generated from a draw that is 1 modulo 3. *)
Lemma gift_generate (self : ArkanoidGame.t) (i : nat) :
  (i mod 3 = 1)%nat ->
  exists j : nat,
    (j mod 3 = 1)%nat
    /\ @ArkanoidGame._generate_level gift_source self 1 i
       = (ArkanoidGame.set_bricks self gift_level, j).
Proof.
  intros Hi.
  pose proof (@generate_level_layout gift_source self 1 i) as Hlayout.
  rewrite (gift_level_eq i Hi) in Hlayout.
  assert (Hdraws : (snd (@ArkanoidGame._generate_level gift_source self 1 i)
                    mod 3 = 1)%nat).
  { unfold ArkanoidGame._generate_level, bind, ret.
    pose proof (gift_cells_draws (Z.min (5 + 1) 10)
                  (list_prod (range (Z.min (5 + 1) 10)) (range 10)) i Hi)
      as Hcells.
    destruct (filter_mapM _ _ i) as [bs k]. exact Hcells. }
  destruct (@ArkanoidGame._generate_level gift_source self 1 i) as [g j].
  cbn [fst snd] in *. exists j. split; [exact Hdraws |].
  rewrite Hlayout. reflexivity.
Qed.

Lemma gift_launch :
  @Ball.__init__ gift_source (IZR (800 / 2)) (IZR (320 - 80)) 0%nat
  = (low_ball, 1%nat).
Proof.
  unfold Ball.__init__, choice, bind, ret, _randbelow.
  cbn [entropy gift_source].
  change (Z.of_nat (length [-200; 200])) with 2%Z.
  reflexivity.
Qed.

Lemma gift_init :
  exists j : nat,
    (j mod 3 = 1)%nat
    /\ @ArkanoidGame.__init__ gift_source 800 320 0%nat
       = (low_game MENU gift_level, j).
Proof.
  unfold ArkanoidGame.__init__, bind. rewrite gift_launch.
  cbn [ArkanoidGame.level].
  match goal with
  | |- context [ArkanoidGame._generate_level ?s 1 1%nat] =>
      destruct (gift_generate s 1%nat eq_refl) as (j & Hj & Hgen)
  end.
  exists j. split; [exact Hj |]. rewrite Hgen. reflexivity.
Qed.

Lemma gift_click (bricks : list Brick.t) (i : nat) :
  (i mod 3 = 1)%nat ->
  exists j : nat,
    @ArkanoidGame.frame gift_source aabb (low_game MENU bricks) click_frame i
    = (low_game PLAYING gift_level, j).
Proof.
  intros Hi. unfold ArkanoidGame.frame. cbn [ArkanoidGame.state low_game].
  unfold ArkanoidGame._handle_menu.
  cbn [events click_frame foldM pygame.is_click].
  unfold bind, ret. cbv zeta.
  match goal with
  | |- context [ArkanoidGame._generate_level ?s ?l i] =>
      change l with 1%Z;
      destruct (gift_generate s i Hi) as (j & _ & Hgen)
  end.
  exists j. rewrite Hgen. reflexivity.
Qed.

Lemma low_paddle_update (dt : R) :
  Paddle.update low_paddle dt 400 800 = low_paddle.
Proof.
  unfold Paddle.update, low_paddle.
  cbn [Paddle.x Paddle.y Paddle.width Paddle.height Paddle.base_width
       Paddle.vel Paddle.sticky].
  change (400 - 100 / 2)%Z with 350%Z. change (800 - 100)%Z with 700%Z.
  replace (350 + (350 - 350) * 10 * dt) with 350 by ring.
  replace ((350 - 350) * 10) with 0 by ring.
  rewrite Rmin_left by lra. rewrite Rmax_right by lra. reflexivity.
Qed.

Lemma low_ball_flight :
  Ball.update low_ball (1 / 16) 800 320 = (low_ball_moved, false).
Proof.
  rewrite Ball_update_eq.
  cbn [low_ball Ball.pos Ball.vel Ball.radius Ball.trail
       Ball.speed_multiplier Vector2D.__add__ Vector2D.__mul__
       Vector2D.x Vector2D.y].
  decide_cmp.
  unfold low_ball_moved, last_n, Vector2D.__add__, Vector2D.__mul__.
  cbn [app length Nat.sub skipn Vector2D.x Vector2D.y].
  replace (400 + -200 * (1 / 16 * 1)) with (775 / 2) by lra.
  replace (240 + -300 * (1 / 16 * 1)) with (885 / 4) by lra.
  reflexivity.
Qed.

(** The first element of a list that passes a test. *)
Lemma first_true {A} (f : A -> bool) (l : list A) :
  (exists a, In a l /\ f a = true) ->
  exists mid a post,
    l = mid ++ a :: post
    /\ (forall a', In a' mid -> f a' = false)
    /\ f a = true.
Proof.
  induction l as [| x l IH]; intros (a & Hin & Hf); [contradiction |].
  destruct (f x) eqn:Hx.
  - exists [], x, l. repeat split; [contradiction | exact Hx].
  - destruct Hin as [-> | Hin]; [congruence |].
    destruct (IH (ex_intro _ a (conj Hin Hf))) as (mid & a' & post & -> & Hmid
                                                   & Ha').
    exists (x :: mid), a', post. repeat split; [| exact Ha'].
    intros y [<- | Hy]; [exact Hx | apply Hmid; exact Hy].
Qed.

(** The moved ball overlaps the brick of row 5, column 4, and no other
    brick of the level. *)
Lemma low_overlap_hit :
  @pygame.colliderect aabb (ArkanoidGame.brick_rect (gift_brick 6 (5, 4)%Z))
                      (ArkanoidGame.ball_rect low_ball_moved) = true.
Proof.
  unfold pygame.colliderect, aabb, ArkanoidGame.brick_rect,
    ArkanoidGame.ball_rect, gift_brick, low_ball_moved.
  cbn [pygame.left pygame.top pygame.width pygame.height Brick.x Brick.y
       Brick.width Brick.height Ball.pos Ball.radius Vector2D.x Vector2D.y].
  norm_IZR. decide_cmp. reflexivity.
Qed.

Lemma low_overlap_cell (row col : Z) :
  (0 <= row < 6)%Z -> (0 <= col < 10)%Z ->
  @pygame.colliderect aabb
     (ArkanoidGame.brick_rect (gift_brick 6 (row, col)))
     (ArkanoidGame.ball_rect low_ball_moved) = true ->
  row = 5%Z /\ col = 4%Z.
Proof.
  intros Hrow Hcol.
  unfold pygame.colliderect, aabb, ArkanoidGame.brick_rect,
    ArkanoidGame.ball_rect, gift_brick, low_ball_moved, Rgtb.
  cbn [pygame.left pygame.top pygame.width pygame.height Brick.x Brick.y
       Brick.width Brick.height Ball.pos Ball.radius Vector2D.x Vector2D.y].
  change (IZR (8 * 2)) with 16.
  rewrite !andb_true_iff, !Rltb_spec.
  intros [[[Hleft Htop] Hright] Hbottom].
  assert (H1 : IZR (col * 78 + 10) < 396) by lra.
  assert (H2 : 304 < IZR (col * 78 + 10)) by lra.
  assert (H3 : 188 < IZR (row * 30 + 60)) by lra.
  apply lt_IZR in H1, H2, H3. lia.
Qed.

Section Bursts.
Context `{RandomSource} `{pygame.Lib}.
Import ArkanoidGame.

(** The hit that destroys a brick, with the particles it makes. *)
Lemma hit_brick_destroyed_burst (self : t) (pre post : list Brick.t)
      (b : Brick.t) (i : nat) :
  bricks self = pre ++ b :: post ->
  (Brick.health b - 1 <= 0)%Z ->
  exists ps,
    length ps = 10%nat
    /\ Forall (burst_particle (IZR (brick_center_x b))
                              (IZR (brick_center_y b))) ps
    /\ fst (hit_brick self (length pre) b i)
       = let s := set_particles
                    (set_score (set_bricks self (pre ++ post))
                               (score self + Brick.points b))
                    (particles self ++ ps) in
         match Brick.powerup b with
         | Some kind =>
             set_powerups s
               (powerups self ++
                [PowerUp.__init__ (IZR (brick_center_x b))
                                  (IZR (brick_center_y b)) kind])
         | None => s
         end.
Proof.
  intros Hbricks Hdead. unfold hit_brick, Brick.hit.
  apply Z.leb_le in Hdead. rewrite Hdead.
  unfold bind, ret. rewrite Hbricks, remove_at_middle.
  cbn [Brick.x Brick.y Brick.width Brick.height Brick.points Brick.powerup
       brick_center_x brick_center_y].
  match goal with
  | |- context [_create_particles ?s ?x ?y ?c i] =>
      destruct (create_particles_burst s x y c i) as (ps & Hps & Hburst & Hlen);
      destruct (_create_particles s x y c i) as [s' j]
  end.
  cbn [fst] in Hps. subst s'. exists ps.
  split; [exact Hlen | split; [exact Hburst |]].
  cbn [fst]. destruct (Brick.powerup b); reflexivity.
Qed.

(** The clear check leaves particles and power-ups as they are. *)
Lemma check_victory_effects (self : t) (i : nat) :
  particles (fst (check_victory self i)) = particles self
  /\ powerups (fst (check_victory self i)) = powerups self.
Proof.
  unfold check_victory. destruct (bricks self); [| split; reflexivity].
  cbv zeta. destruct (level _ >? 5)%Z; [split; reflexivity |].
  unfold bind, ret.
  match goal with
  | |- context [_generate_level ?s ?l i] =>
      pose proof (generate_level_frame s l i) as Hframe;
      destruct (_generate_level s l i) as [g j]
  end.
  cbn [fst] in Hframe.
  destruct (Ball.__init__ _ _ j) as [b k]. cbn [fst].
  rewrite Hframe. split; reflexivity.
Qed.
End Bursts.

(** New particles outlive a frame shorter than half a second. *)
Lemma update_particles_alive (dt x y : R) (ps : list Particle.t) :
  dt * 2 < 1 ->
  Forall (burst_particle x y) ps ->
  length (ArkanoidGame.update_particles dt ps) = length ps.
Proof.
  intros Hdt. unfold ArkanoidGame.update_particles.
  induction 1 as [| p ps Hp Hps IH]; [reflexivity |].
  cbn [flat_map]. unfold Particle.update at 1.
  destruct Hp as (_ & Hlife & _). rewrite Hlife.
  unfold Rgtb. rewrite Rltb_true by lra.
  cbn [app length]. rewrite IH. reflexivity.
Qed.

Lemma gift_level_cells (b : Brick.t) :
  In b gift_level ->
  exists row col : Z,
    (0 <= row < 6)%Z /\ (0 <= col < 10)%Z /\ b = gift_brick 6 (row, col).
Proof.
  unfold gift_level. intros Hin. apply in_map_iff in Hin.
  destruct Hin as ([row col] & <- & Hcell).
  apply in_prod_iff in Hcell. destruct Hcell as [Hrow Hcol].
  apply range_In in Hrow. apply range_In in Hcol.
  exists row, col. repeat split; lia.
Qed.

Lemma gift_level_hit : In (gift_brick 6 (5, 4)%Z) gift_level.
Proof.
  unfold gift_level. apply in_map. apply in_prod_iff.
  split; apply range_In; lia.
Qed.

(** The collisions of the moved ball: it is above the paddle and moving
    up, and the first brick it overlaps is the one of row 5, column 4,
    which the hit destroys. *)
Lemma low_collision (i : nat) :
  let s := fst (fst (@ArkanoidGame._handle_collision gift_source aabb
                       (low_game PLAYING gift_level) low_ball_moved (1 / 16)
                       i)) in
  length (ArkanoidGame.particles s) = 10%nat
  /\ Forall (burst_particle 359 222) (ArkanoidGame.particles s)
  /\ ArkanoidGame.powerups s = [PowerUp.__init__ 359 222 EXPAND_PADDLE]
  /\ ArkanoidGame.height s = 320%Z
  /\ ArkanoidGame.paddle s = low_paddle
  /\ ArkanoidGame.balls s = [low_ball].
Proof.
  cbn zeta. unfold ArkanoidGame._handle_collision, bind.
  assert (Hpaddle :
            @ArkanoidGame.paddle_collision gift_source aabb
              (low_game PLAYING gift_level) low_ball_moved
              (ArkanoidGame.ball_rect low_ball_moved) i
            = (low_game PLAYING gift_level, low_ball_moved, i)).
  { unfold ArkanoidGame.paddle_collision.
    cbn [Ball.vel low_ball_moved Vector2D.y]. unfold Rgtb.
    rewrite (Rltb_false 0 (-300)) by lra.
    rewrite andb_false_r. reflexivity. }
  rewrite Hpaddle. cbn [fst snd].
  change (ArkanoidGame.bricks (low_game PLAYING gift_level)) with gift_level.
  destruct (first_true
              (fun b => @pygame.colliderect aabb (ArkanoidGame.brick_rect b)
                          (ArkanoidGame.ball_rect low_ball_moved))
              gift_level)
    as (mid & b & post & Hsplit & Hmiss & Hhit).
  { exists (gift_brick 6 (5, 4)%Z).
    split; [exact gift_level_hit | exact low_overlap_hit]. }
  assert (Hb : b = gift_brick 6 (5, 4)%Z).
  { destruct (gift_level_cells b) as (row & col & Hrow & Hcol & ->).
    - rewrite Hsplit. apply in_or_app. right. left. reflexivity.
    - destruct (low_overlap_cell row col Hrow Hcol Hhit) as [-> ->].
      reflexivity. }
  subst b. rewrite Hsplit.
  rewrite (@brick_collisions_first gift_source aabb) by assumption.
  cbn [Nat.add].
  destruct (@hit_brick_destroyed_burst gift_source
              (low_game PLAYING (mid ++ gift_brick 6 (5, 4)%Z :: post))
              mid post (gift_brick 6 (5, 4)%Z) i eq_refl)
    as (ps & Hlen & Hburst & Hfst); [cbn; lia |].
  destruct (@ArkanoidGame.hit_brick gift_source _ (length mid) _ i)
    as [s j].
  cbn [fst] in *. rewrite Hfst.
  cbn [gift_brick Brick.powerup ArkanoidGame.particles ArkanoidGame.powerups
       ArkanoidGame.height ArkanoidGame.paddle ArkanoidGame.balls
       ArkanoidGame.set_powerups ArkanoidGame.set_particles
       ArkanoidGame.set_score ArkanoidGame.set_bricks low_game app].
  repeat split; assumption.
Qed.

(** The new power-up falls for 1/16 s: it stays on the field, above the
    paddle. *)
Lemma low_powerup_fall :
  PowerUp.update (PowerUp.__init__ 359 222 EXPAND_PADDLE) (1 / 16) 320
  = (PowerUp.mk (Vector2D.mk 359 (3702 / 16)) EXPAND_PADDLE
                (Vector2D.mk 0 150) 20 true, false).
Proof.
  unfold PowerUp.update, PowerUp.__init__, Vector2D.__add__,
    Vector2D.__mul__.
  cbn [PowerUp.pos PowerUp.vel PowerUp.type PowerUp.size PowerUp.active
       Vector2D.x Vector2D.y].
  replace (359 + 0 * (1 / 16)) with 359 by lra.
  replace (222 + 150 * (1 / 16)) with (3702 / 16) by lra.
  decide_cmp. reflexivity.
Qed.

Lemma low_powerup_misses :
  @pygame.colliderect aabb (ArkanoidGame.paddle_rect low_paddle)
     (ArkanoidGame.powerup_rect
        (PowerUp.mk (Vector2D.mk 359 (3702 / 16)) EXPAND_PADDLE
                    (Vector2D.mk 0 150) 20 true))
  = false.
Proof.
  unfold pygame.colliderect, aabb, ArkanoidGame.paddle_rect,
    ArkanoidGame.powerup_rect, low_paddle.
  cbn [pygame.left pygame.top pygame.width pygame.height Paddle.x Paddle.y
       Paddle.width Paddle.height PowerUp.pos PowerUp.size Vector2D.x
       Vector2D.y].
  norm_IZR. decide_cmp. reflexivity.
Qed.

(** The frame that takes the ball into the brick: afterwards ten
    particles and one power-up are on the field. *)
Lemma low_frame_field (i : nat) :
  let after :=
    fst (@ArkanoidGame.frame gift_source aabb (low_game PLAYING gift_level)
           low_frame i) in
  length (ArkanoidGame.particles after) = 10%nat
  /\ length (ArkanoidGame.powerups after) = 1%nat.
Proof.
  cbn zeta. unfold ArkanoidGame.frame. cbn [ArkanoidGame.state low_game].
  unfold ArkanoidGame._handle_playing, bind, ret.
  cbn [dt mouse_x events low_frame ArkanoidGame.paddle ArkanoidGame.width
       ArkanoidGame.balls ArkanoidGame.set_paddle low_game].
  rewrite low_paddle_update.
  change (ArkanoidGame.set_paddle (low_game PLAYING gift_level) low_paddle)
    with (low_game PLAYING gift_level).
  cbn [ArkanoidGame.balls_loop].
  change (ArkanoidGame.width (low_game PLAYING gift_level)) with 800%Z.
  change (ArkanoidGame.height (low_game PLAYING gift_level)) with 320%Z.
  rewrite low_ball_flight. unfold bind, ret.
  destruct (low_collision i) as (Hlen & Hburst & Hpw & Hh & Hpad & Hballs).
  cbn zeta in Hlen, Hburst, Hpw, Hh, Hpad, Hballs.
  destruct (@ArkanoidGame._handle_collision gift_source aabb
              (low_game PLAYING gift_level) low_ball_moved (1 / 16) i)
    as [[s b] j].
  cbn [fst snd] in *.
  unfold ArkanoidGame._handle_powerups.
  cbn [ArkanoidGame.particles ArkanoidGame.powerups ArkanoidGame.paddle
       ArkanoidGame.set_particles ArkanoidGame.set_balls].
  rewrite Hpw, Hpad. cbn [ArkanoidGame.powerups_loop].
  cbn [ArkanoidGame.height ArkanoidGame.set_particles
       ArkanoidGame.set_balls].
  rewrite Hh, low_powerup_fall. cbv zeta.
  rewrite low_powerup_misses. unfold ret.
  match goal with
  | |- context [ArkanoidGame.check_victory ?g j] =>
      destruct (@check_victory_effects gift_source g j) as [Hp Hu];
      destruct (ArkanoidGame.check_victory g j) as [g' j']
  end.
  cbn [fst ArkanoidGame.check_pause fold_left] in *.
  rewrite Hp, Hu.
  cbn [ArkanoidGame.particles ArkanoidGame.powerups
       ArkanoidGame.set_powerups ArkanoidGame.set_particles
       ArkanoidGame.set_balls].
  rewrite Hpw. split; [| reflexivity].
  rewrite (update_particles_alive (1 / 16) 359 222) by (lra || assumption).
  exact Hlen.
Qed.

(** The session under [gift_source] ends with particles and a power-up on
    the field. *)
Lemma gift_session_field :
  @ArkanoidGame.reachable gift_source aabb (fst gift_session, snd gift_session)
  /\ length (ArkanoidGame.particles (fst gift_session)) = 10%nat
  /\ length (ArkanoidGame.powerups (fst gift_session)) = 1%nat.
Proof.
  split.
  - rewrite <- surjective_pairing. unfold gift_session.
    apply run_reachable.
    rewrite <- surjective_pairing. apply ArkanoidGame.reachable_init.
  - unfold gift_session.
    destruct gift_init as (j0 & Hj0 & ->). cbn [fst snd].
    rewrite run_cons.
    destruct (gift_click gift_level j0 Hj0) as (j1 & ->). cbn [fst snd].
    rewrite run_cons. unfold ArkanoidGame.run, foldM, ret. cbn [fst].
    exact (low_frame_field j1).
Qed.

(** *** A session under [steady_source] *)

Lemma opened_game_reachable :
  @ArkanoidGame.reachable steady_source aabb (fst opened_game, snd opened_game).
Proof.
  rewrite <- surjective_pairing. unfold opened_game.
  apply ArkanoidGame.reachable_frame.
  rewrite <- surjective_pairing. apply ArkanoidGame.reachable_init.
Qed.

Lemma session_paddle_witness :
  @ArkanoidGame.reachable steady_source aabb (fst opened_game, snd opened_game)
  /\ paddle_ok (ArkanoidGame.height (fst opened_game))
               (ArkanoidGame.paddle (fst opened_game)).
Proof.
  split; [exact opened_game_reachable |].
  exact (@session_paddle steady_source aabb _ _ opened_game_reachable).
Defined.

Lemma session_balls_witness :
  @ArkanoidGame.reachable steady_source aabb (fst opened_game, snd opened_game)
  /\ forall b, In b (ArkanoidGame.balls (fst opened_game)) -> ball_ok b.
Proof.
  split; [exact opened_game_reachable |].
  exact (@session_balls steady_source aabb _ _ opened_game_reachable).
Defined.

Lemma session_bricks_of_level_witness :
  @ArkanoidGame.reachable steady_source aabb (fst opened_game, snd opened_game)
  /\ forall b, In b (ArkanoidGame.bricks (fst opened_game)) ->
               brick_ok (ArkanoidGame.level (fst opened_game)) b.
Proof.
  split; [exact opened_game_reachable |].
  exact (@session_bricks_of_level steady_source aabb _ _
           opened_game_reachable).
Defined.

Lemma session_bricks_distinct_witness :
  @ArkanoidGame.reachable steady_source aabb (fst opened_game, snd opened_game)
  /\ NoDup (map brick_cell (ArkanoidGame.bricks (fst opened_game))).
Proof.
  split; [exact opened_game_reachable |].
  exact (proj1 (@session_bricks_distinct steady_source aabb _ _
                  opened_game_reachable)).
Defined.

(** The session under [gift_source] ends with ten particles and one
    power-up on the field. *)
Lemma session_particles_witness :
  @ArkanoidGame.reachable gift_source aabb (fst gift_session, snd gift_session)
  /\ length (ArkanoidGame.particles (fst gift_session)) = 10%nat
  /\ forall p, In p (ArkanoidGame.particles (fst gift_session)) ->
               particle_ok p.
Proof.
  destruct gift_session_field as (Hreach & Hparticles & _).
  split; [exact Hreach | split; [exact Hparticles |]].
  exact (@session_particles gift_source aabb _ _ Hreach).
Defined.

Lemma session_powerups_witness :
  @ArkanoidGame.reachable gift_source aabb (fst gift_session, snd gift_session)
  /\ length (ArkanoidGame.powerups (fst gift_session)) = 1%nat
  /\ forall p, In p (ArkanoidGame.powerups (fst gift_session)) ->
               powerup_ok p.
Proof.
  destruct gift_session_field as (Hreach & _ & Hpowerups).
  split; [exact Hreach | split; [exact Hpowerups |]].
  exact (@session_powerups gift_source aabb _ _ Hreach).
Defined.

Lemma session_score_level_witness :
  @ArkanoidGame.reachable steady_source aabb (fst opened_game, snd opened_game)
  /\ (0 <= ArkanoidGame.score (fst opened_game))%Z
  /\ (1 <= ArkanoidGame.level (fst opened_game))%Z.
Proof.
  split; [exact opened_game_reachable |].
  destruct (@session_score_level steady_source aabb _ _
              opened_game_reachable) as (Hs & Hl & _).
  split; assumption.
Defined.

(** The click that starts the game does not change the score. *)
Lemma frame_score_never_drops_witness :
  let w := @ArkanoidGame.__init__ steady_source 800 600 0%nat in
  (ArkanoidGame.score (fst w)
   <= ArkanoidGame.score
        (fst (@ArkanoidGame.frame steady_source aabb (fst w) click_frame
                (snd w))))%Z.
Proof.
  intros w. apply (@frame_score_never_drops steady_source aabb).
  - rewrite <- surjective_pairing. apply ArkanoidGame.reachable_init.
  - left. subst w. destruct steady_init as (bs & j & ->). reflexivity.
Defined.
